(** * SDlab ComfyUI viewer: filesystem-boundary safety and grid ingestion

    A shallow embedding of [lib/comfyui-path.ts], [lib/comfyui-types.ts] and
    [lib/comfyui-fs.ts], followed by the properties of the ingestion layer.

    Conventions of the embedding:
    - a JavaScript string is the list of its UTF-16 code units ([list N]);
    - a thrown [Error] is the [Throw] branch of [result], carrying a
      constructor of [exn] whose text is given by [message];
    - what the code obtains from Node ([process.platform], [path.*],
      [String.prototype.toLowerCase], [JSON.parse]) is a field of
      [Platform]; what it reads from storage ([readdir], [stat],
      [readFile]) is a field of [Disk]. *)

From Stdlib Require Import ZArith NArith QArith_base String Ascii DecimalString DecimalZ.
From stdpp Require Import base option list gmap sorting.

Set Warnings "-register-all".

Local Close Scope Q_scope.
Local Open Scope Z_scope.
Local Open Scope nat_scope.

(** ** JavaScript strings *)

(** UTF-16 code units of an ASCII literal. *)
Definition str (s : string) : list N :=
  List.map N_of_ascii (list_ascii_of_string s).

Module Char.
Definition NUL : N := 0.
Definition PERCENT : N := 37.
Definition COMMA : N := 44.
Definition MINUS : N := 45.
Definition DOT : N := 46.
Definition SLASH : N := 47.
Definition COLON : N := 58.
Definition BACKSLASH : N := 92.
Definition LF : N := 10.
Definition CR : N := 13.
Definition SPACE : N := 32.

Definition is_digit (c : N) : bool := (48 <=? c)%N && (c <=? 57)%N.
Definition is_upper (c : N) : bool := (65 <=? c)%N && (c <=? 90)%N.
Definition is_lower (c : N) : bool := (97 <=? c)%N && (c <=? 122)%N.
Definition is_letter (c : N) : bool := is_upper c || is_lower c.

(** ECMAScript WhiteSpace and LineTerminator code points, the characters
    [String.prototype.trim] strips. *)
Definition is_space (c : N) : bool :=
  ((9 <=? c)%N && (c <=? 13)%N)
  || (c =? 32)%N || (c =? 160)%N || (c =? 5760)%N
  || ((8192 <=? c)%N && (c <=? 8202)%N)
  || (c =? 8232)%N || (c =? 8233)%N || (c =? 8239)%N
  || (c =? 8287)%N || (c =? 12288)%N || (c =? 65279)%N.
End Char.

Module JsString.

Fixpoint trimStart (s : list N) : list N :=
  match s with
  | c :: s' => if Char.is_space c then trimStart s' else s
  | [] => []
  end.

Definition trimEnd (s : list N) : list N := rev (trimStart (rev s)).

(** [s.trim()] *)
Definition trim (s : list N) : list N := trimEnd (trimStart s).

Fixpoint startsWith (s p : list N) {struct p} : bool :=
  match p, s with
  | [], _ => true
  | a :: p', b :: s' => (a =? b)%N && startsWith s' p'
  | _ :: _, [] => false
  end.

Definition endsWith (s p : list N) : bool := startsWith (rev s) (rev p).

(** [s.includes(p)] *)
Fixpoint includes (s p : list N) : bool :=
  startsWith s p ||
  match s with
  | [] => false
  | _ :: s' => includes s' p
  end.

(** [s.split(sep)] for a one-character separator; the result is never
    empty. *)
Fixpoint split (sep : N) (s : list N) : list (list N) :=
  match s with
  | [] => [[]]
  | c :: s' =>
      if (c =? sep)%N then [] :: split sep s'
      else match split sep s' with
           | seg :: rest => (c :: seg) :: rest
           | [] => [[c]]
           end
  end.

(** [segs.join(sep)] *)
Fixpoint join (sep : list N) (segs : list (list N)) : list N :=
  match segs with
  | [] => []
  | [seg] => seg
  | seg :: rest => seg ++ sep ++ join sep rest
  end.

Definition eqb (a b : list N) : bool := bool_decide (a = b).

(** [raw.split(/\r?\n/)]: a line ends at LF, and a CR directly before
    that LF belongs to the terminator. *)
Fixpoint split_lines (s : list N) : list (list N) :=
  match s with
  | [] => [[]]
  | c :: s' =>
      if (c =? Char.LF)%N then [] :: split_lines s'
      else
        match s' with
        | d :: s'' =>
            if (c =? Char.CR)%N && (d =? Char.LF)%N
            then [] :: split_lines s''
            else match split_lines s' with
                 | line :: rest => (c :: line) :: rest
                 | [] => [[c]]
                 end
        | [] => [[c]]
        end
  end.

End JsString.

(** ** Exceptions *)

Inductive exn : Type :=
| EmptyField (fieldName : string)
| InvalidRunDirFormat
| NotInAllowlist
| NullByte
| EncodedChars
| Backslash
| Absolute
| DriveLetter
| EmptySegment
| DotSegment
| Escapes
| RootEscape
| InvalidRunJson (runDir : list N)
| MissingIdentity (runDir : list N)
| Errno (code : string).

(** The [message] of the [Error] each constructor stands for; [Errno] is a
    [NodeJS.ErrnoException] raised by [node:fs], which carries a [code]. *)
Definition message (e : exn) : list N :=
  match e with
  | EmptyField fieldName => str fieldName ++ str " must not be empty"
  | InvalidRunDirFormat => str "Invalid runDir format"
  | NotInAllowlist => str "runDir is not in allowlist"
  | NullByte => str "imagePath must not contain null bytes"
  | EncodedChars => str "imagePath must not contain URL-encoded characters"
  | Backslash => str "imagePath must not contain backslashes"
  | Absolute => str "imagePath must be relative"
  | DriveLetter => str "imagePath must not contain a drive letter"
  | EmptySegment => str "imagePath must not contain empty segments"
  | DotSegment => str "imagePath must not contain dot segments"
  | Escapes => str "imagePath escapes the expected relative scope"
  | RootEscape => str "Resolved path escapes root"
  | InvalidRunJson runDir => str "Invalid run.json: " ++ runDir
  | MissingIdentity runDir =>
      str "Invalid run.json: missing run_id/created_at for " ++ runDir
  | Errno code => str code
  end.

Inductive result (A : Type) : Type :=
| Ok (a : A)
| Throw (e : exn).
Arguments Ok {A} a.
Arguments Throw {A} e.

Definition bind {A B} (r : result A) (k : A -> result B) : result B :=
  match r with
  | Ok a => k a
  | Throw e => Throw e
  end.

Declare Scope js_scope.
Delimit Scope js_scope with js.
Notation "'let*' x ':=' r 'in' k" := (bind r (fun x => k))
  (at level 10, x name, r at level 100, k at level 200) : js_scope.
Notation "'check' b 'else' e 'in' k" := (if (b : bool) then k else Throw e)
  (at level 10, b at level 100, e at level 100, k at level 200) : js_scope.
Local Open Scope js_scope.

(** ** [node:path], POSIX flavour *)

Module Posix.

Definition dotdot : list N := [Char.DOT; Char.DOT].

(** One segment of [normalizeString]: empty and [.] segments vanish, [..]
    removes the segment before it unless there is none or it is itself
    [..]; then it is kept only when [allowAboveRoot]. [acc] holds the
    segments kept so far, most recent first. *)
Definition normalize_segment (allowAboveRoot : bool)
    (acc : list (list N)) (seg : list N) : list (list N) :=
  if bool_decide (seg = []) || bool_decide (seg = [Char.DOT]) then acc
  else if bool_decide (seg = dotdot) then
    match acc with
    | top :: below =>
        if bool_decide (top = dotdot)
        then (if allowAboveRoot then dotdot :: acc else acc)
        else below
    | [] => if allowAboveRoot then [dotdot] else []
    end
  else seg :: acc.

Definition normalizeString (p : list N) (allowAboveRoot : bool) : list N :=
  JsString.join [Char.SLASH]
    (rev (fold_left (normalize_segment allowAboveRoot)
                    (JsString.split Char.SLASH p) [])).

(** [path.posix.isAbsolute] *)
Definition isAbsolute (p : list N) : bool :=
  match p with
  | c :: _ => (c =? Char.SLASH)%N
  | [] => false
  end.

(** [path.posix.normalize] *)
Definition normalize (p : list N) : list N :=
  match p with
  | [] => [Char.DOT]
  | _ =>
      let absolute := isAbsolute p in
      let trailingSeparator := JsString.endsWith p [Char.SLASH] in
      let body := normalizeString p (negb absolute) in
      match body with
      | [] =>
          if absolute then [Char.SLASH]
          else if trailingSeparator then [Char.DOT; Char.SLASH]
          else [Char.DOT]
      | _ =>
          let body := if trailingSeparator then body ++ [Char.SLASH] else body in
          if absolute then Char.SLASH :: body else body
      end
  end.

(** The right-to-left loop of [path.posix.resolve]: arguments are
    prepended until one is absolute; empty arguments are skipped. [args]
    is given last argument first, ending with the working directory. *)
Fixpoint resolve_loop (args : list (list N)) (resolvedPath : list N)
    : list N * bool :=
  match args with
  | [] => (resolvedPath, false)
  | p :: earlier =>
      match p with
      | [] => resolve_loop earlier resolvedPath
      | _ =>
          let resolvedPath := p ++ Char.SLASH :: resolvedPath in
          if isAbsolute p then (resolvedPath, true)
          else resolve_loop earlier resolvedPath
      end
  end.

(** [path.posix.resolve(...args)] in working directory [cwd]. *)
Definition resolve (cwd : list N) (args : list (list N)) : list N :=
  let '(resolvedPath, resolvedAbsolute) :=
    resolve_loop (rev args ++ [cwd]) [] in
  let resolvedPath := normalizeString resolvedPath (negb resolvedAbsolute) in
  if resolvedAbsolute then Char.SLASH :: resolvedPath
  else match resolvedPath with
       | [] => [Char.DOT]
       | _ => resolvedPath
       end.

(** [path.posix.join(...args)] *)
Definition join (args : list (list N)) : list N :=
  match JsString.join [Char.SLASH] (filter (fun a : list N => a <> []) args) with
  | [] => [Char.DOT]
  | joined => normalize joined
  end.

End Posix.

(** [path.win32.isAbsolute]: a leading separator, or a drive letter, a colon
    and a separator. *)
Definition win32_isPathSeparator (c : N) : bool :=
  (c =? Char.SLASH)%N || (c =? Char.BACKSLASH)%N.

Definition win32_isAbsolute (p : list N) : bool :=
  match p with
  | [] => false
  | c :: rest =>
      win32_isPathSeparator c ||
      match rest with
      | colon :: third :: _ =>
          Char.is_letter c && (colon =? Char.COLON)%N && win32_isPathSeparator third
      | _ => false
      end
  end.

(** ** JavaScript values *)

(** A number is a finite double (a rational), an infinity or NaN. *)
Inductive number : Type :=
| Finite (q : Q)
| Infinity (negative : bool)
| NaN.

Definition Number_isNaN (n : number) : bool :=
  match n with NaN => true | _ => false end.

Definition Number_isFinite (n : number) : bool :=
  match n with Finite _ => true | _ => false end.

Definition Number_isInteger (n : number) : bool :=
  match n with
  | Finite q => (Qnum q mod Z.pos (Qden q) =? 0)%Z
  | _ => false
  end.

(** The integer an integral number denotes. Negative zero denotes [0]: it
    prints as [0] in a key and is the same [Map] key as [0]. *)
Definition integer_of (n : number) : Z :=
  match n with
  | Finite q => (Qnum q / Z.pos (Qden q))%Z
  | _ => 0%Z
  end.

(** What [JSON.parse] can return, and [undefined], which reading an absent
    property yields. *)
Inductive value : Type :=
| VUndefined
| VNull
| VBool (b : bool)
| VNumber (n : number)
| VString (s : list N)
| VArray (items : list value)
| VObject (props : list (list N * value)).

(** [record[key]] *)
Fixpoint get (props : list (list N * value)) (key : list N) : value :=
  match props with
  | [] => VUndefined
  | (k, v) :: rest => if bool_decide (k = key) then v else get rest key
  end.

(** [String(n)] for an integer. Beyond [1e21] JavaScript prints an exponent
    form instead; both are injective and neither contains a comma. *)
Definition number_to_string (n : Z) : list N :=
  str (NilEmpty.string_of_int (Z.to_int n)).

(** ** The host: Node and the storage *)

(** What the code takes from the Node runtime. [path_sep], [path_resolve]
    and [path_join] are [path.sep], [path.resolve] and [path.join] of the
    platform the process runs on. *)
Record Platform : Type := {
  win32 : bool;
  path_sep : list N;
  path_resolve : list (list N) -> list N;
  path_join : list (list N) -> list N;
  toLowerCase : list N -> list N;
  localeCompare : list N -> list N -> Z;
  JSON_parse : list N -> option value;
}.

(** A POSIX host whose working directory is [cwd] and whose [JSON.parse] is
    [parse]. [toLowerCase] is never called there; it is given on ASCII
    letters. [localeCompare] is only applied to run directory names, which
    differ in decimal digits alone; there collation order is code unit
    order. *)
Definition ascii_lower (c : N) : N :=
  if Char.is_upper c then (c + 32)%N else c.

Fixpoint compare_code_units (a b : list N) : Z :=
  match a, b with
  | [], [] => 0
  | [], _ :: _ => -1
  | _ :: _, [] => 1
  | x :: a', y :: b' =>
      match (x ?= y)%N with
      | Lt => -1
      | Gt => 1
      | Eq => compare_code_units a' b'
      end
  end.

Definition posix (cwd : list N) (parse : list N -> option value) : Platform := {|
  win32 := false;
  path_sep := [Char.SLASH];
  path_resolve := Posix.resolve cwd;
  path_join := Posix.join;
  toLowerCase := List.map ascii_lower;
  localeCompare := compare_code_units;
  JSON_parse := parse;
|}.

(** ** [lib/comfyui-types.ts] *)

Inductive CellStatus : Type := success | failed | skipped | missing.

Definition CellStatus_name (s : CellStatus) : list N :=
  match s with
  | success => str "success"
  | failed => str "failed"
  | skipped => str "skipped"
  | missing => str "missing"
  end.

(** Matching a regular expression from the left: each piece consumes a
    prefix of the input and returns what is left. *)
Definition eat_literal (lit : list N) (s : list N) : option (list N) :=
  if JsString.startsWith s lit then Some (drop (length lit) s) else None.

Fixpoint eat_digits (n : nat) (s : list N) : option (list N) :=
  match n with
  | O => Some s
  | S n' =>
      match s with
      | c :: s' => if Char.is_digit c then eat_digits n' s' else None
      | [] => None
      end
  end.

(** [RUN_DIR_REGEX = /^run-\d{8}T\d{6}Z$/] *)
Definition RUN_DIR_REGEX_test (s : list N) : bool :=
  match
    rest ← eat_literal (str "run-") s;
    rest ← eat_digits 8 rest;
    rest ← eat_literal (str "T") rest;
    rest ← eat_digits 6 rest;
    eat_literal (str "Z") rest
  with
  | Some [] => true
  | _ => false
  end.

Definition isValidRunDir (runDir : list N) : bool := RUN_DIR_REGEX_test runDir.

(** [['success', 'failed', 'skipped', 'missing'].includes(status)], with the
    status it names. *)
Definition parseCellStatus (status : list N) : option CellStatus :=
  List.find (fun s => JsString.eqb (CellStatus_name s) status)
            [success; failed; skipped; missing].

Definition isCellStatus (status : list N) : bool :=
  bool_decide (is_Some (parseCellStatus status)).

(** ** [lib/comfyui-path.ts] *)

(** [WINDOWS_DRIVE_LETTER_PREFIX = /^[a-zA-Z]:/] *)
Definition WINDOWS_DRIVE_LETTER_PREFIX_test (s : list N) : bool :=
  match s with
  | c :: colon :: _ => Char.is_letter c && (colon =? Char.COLON)%N
  | _ => false
  end.

Definition toComparablePath (P : Platform) (value : list N) : list N :=
  if win32 P then toLowerCase P value else value.

Definition assertNonEmptyTrimmed (value : list N) (fieldName : string)
    : result (list N) :=
  let trimmed := JsString.trim value in
  match trimmed with
  | [] => Throw (EmptyField fieldName)
  | _ => Ok trimmed
  end.

Definition assertAllowedRunDir (runDir : list N) (allowed : gset (list N))
    : result (list N) :=
  let* candidate := assertNonEmptyTrimmed runDir "runDir" in
  check isValidRunDir candidate else InvalidRunDirFormat in
  check bool_decide (candidate ∈ allowed) else NotInAllowlist in
  Ok candidate.

Definition assertSafeRelativeImagePath (imagePath : list N) : result (list N) :=
  let* candidate := assertNonEmptyTrimmed imagePath "imagePath" in
  check negb (JsString.includes candidate [Char.NUL]) else NullByte in
  check negb (JsString.includes candidate [Char.PERCENT]) else EncodedChars in
  check negb (JsString.includes candidate [Char.BACKSLASH]) else Backslash in
  check negb (Posix.isAbsolute candidate || win32_isAbsolute candidate)
    else Absolute in
  check negb (WINDOWS_DRIVE_LETTER_PREFIX_test candidate) else DriveLetter in
  let segments := JsString.split Char.SLASH candidate in
  check negb (existsb (fun segment => Nat.eqb (length segment) 0) segments)
    else EmptySegment in
  check negb (bool_decide ([Char.DOT] ∈ segments)
              || bool_decide (Posix.dotdot ∈ segments))
    else DotSegment in
  let normalized := Posix.normalize candidate in
  check negb (JsString.eqb normalized [Char.DOT]
              || JsString.startsWith normalized (str "../")
              || JsString.includes normalized (str "/../"))
    else Escapes in
  Ok normalized.

Definition resolvePathUnderRoot (P : Platform) (root relPath : list N)
    : result (list N) :=
  let* safeRoot := assertNonEmptyTrimmed root "root" in
  let* safeRelPath := assertSafeRelativeImagePath relPath in
  let resolvedRoot := path_resolve P [safeRoot] in
  let resolvedTarget := path_resolve P [resolvedRoot; safeRelPath] in
  let comparableRoot := toComparablePath P resolvedRoot in
  let comparableTarget := toComparablePath P resolvedTarget in
  let rootWithSep :=
    if JsString.endsWith comparableRoot (path_sep P)
    then comparableRoot
    else comparableRoot ++ path_sep P in
  check negb (negb (JsString.eqb comparableTarget comparableRoot)
              && negb (JsString.startsWith comparableTarget rootWithSep))
    else RootEscape in
  Ok resolvedTarget.

(** ** [lib/comfyui-fs.ts]: records *)

Module XKey.
Inductive t : Type := quality | rating | gender | characters | series | general.

Definition name (key : t) : list N :=
  match key with
  | quality => str "quality"
  | rating => str "rating"
  | gender => str "gender"
  | characters => str "characters"
  | series => str "series"
  | general => str "general"
  end.
End XKey.

Definition X_FIELDS_ORDER : list XKey.t :=
  [XKey.quality; XKey.rating; XKey.gender; XKey.characters; XKey.series;
   XKey.general].

Module XFields.
(** An object with up to six optional string properties. *)
Record t : Type := {
  quality : option (list N);
  rating : option (list N);
  gender : option (list N);
  characters : option (list N);
  series : option (list N);
  general : option (list N);
}.

Definition empty : t := Build_t None None None None None None.

Definition read (x : t) (key : XKey.t) : option (list N) :=
  match key with
  | XKey.quality => quality x
  | XKey.rating => rating x
  | XKey.gender => gender x
  | XKey.characters => characters x
  | XKey.series => series x
  | XKey.general => general x
  end.

Definition write (x : t) (key : XKey.t) (item : list N) : t :=
  match key with
  | XKey.quality => Build_t (Some item) (rating x) (gender x) (characters x) (series x) (general x)
  | XKey.rating => Build_t (quality x) (Some item) (gender x) (characters x) (series x) (general x)
  | XKey.gender => Build_t (quality x) (rating x) (Some item) (characters x) (series x) (general x)
  | XKey.characters => Build_t (quality x) (rating x) (gender x) (Some item) (series x) (general x)
  | XKey.series => Build_t (quality x) (rating x) (gender x) (characters x) (Some item) (general x)
  | XKey.general => Build_t (quality x) (rating x) (gender x) (characters x) (series x) (Some item)
  end.
End XFields.

Module GenerationParams.
Record t : Type := {
  seed : option number;
  negative_prompt : option (list N);
  width : option number;
  height : option number;
  batch_size : option number;
  steps : option number;
  cfg : option number;
  denoise : option number;
  sampler_name : option (list N);
  scheduler : option (list N);
}.
End GenerationParams.

Module GridCell.
Record t : Type := {
  status : CellStatus;
  x_index : Z;
  y_index : Z;
  x_fields : XFields.t;
  y_value : option (list N);
  positive_prompt : option (list N);
  prompt_hash : option (list N);
  seed : option number;
  generation_params : option GenerationParams.t;
  workflow_hash : option (list N);
  comfyui_prompt_id : option (list N);
  local_image_path : option (list N);
  local_image_paths : option (list (list N));
  error : value;
  started_at : option (list N);
  finished_at : option (list N);
  elapsed_ms : option number;
}.
End GridCell.

Module Selection.
Record t : Type := {
  x_indexes : list Z;
  y_indexes : list Z;
  x_count : Z;
  y_count : Z;
  total_cells : Z;
  x_limit : option number;
  y_limit : option number;
  x_indexes_raw : option (list N);
  y_indexes_raw : option (list N);
}.
End Selection.

Module GenerationOverrides.
Record t : Type := {
  negative_prompt : option (list N);
  width : option number;
  height : option number;
  batch_size : option number;
  steps : option number;
  cfg : option number;
  denoise : option number;
  sampler_name : option (list N);
  scheduler : option (list N);
}.
End GenerationOverrides.

Module RunDetail.
Record t : Type := {
  run_id : list N;
  created_at : list N;
  dry_run : bool;
  run_dir : list N;
  x_csv_path : list N;
  y_csv_path : list N;
  x_csv_sha256 : list N;
  y_csv_sha256 : list N;
  template : list N;
  base_seed : number;
  seed_strategy : list N;
  workflow_json_path : list N;
  workflow_json_sha256 : list N;
  workflow_status : list N;
  selected_ksampler_node_id : option (list N);
  comfyui_base_url : list N;
  request_timeout_s : number;
  job_timeout_s : number;
  concurrency : Z;
  client_id : option (list N);
  selection : Selection.t;
  generation_overrides : GenerationOverrides.t;
}.
End RunDetail.

Module RunSummary.
Record t : Type := {
  run_id : list N;
  created_at : list N;
  run_dir : list N;
  x_count : nat;
  y_count : nat;
  total_cells : nat;
}.
End RunSummary.

Module GridIndex.
(** [cells] is a [Record<GridCellKey, GridCell>]: string keys that are not
    array indices, enumerated in the order they were first assigned. *)
Record t : Type := {
  xLabels : list (list N);
  yLabels : list (list N);
  x_count : nat;
  y_count : nat;
  cells : list (list N * GridCell.t);
}.
End GridIndex.

(** A [Map] or a plain object with string keys, in insertion order:
    assigning to a present key replaces its value where it stands, assigning
    to a new key appends. *)
Module Dict.
Section Dict.
Context {V : Type}.

Fixpoint get (m : list (list N * V)) (key : list N) : option V :=
  match m with
  | [] => None
  | (k, v) :: rest => if bool_decide (k = key) then Some v else get rest key
  end.

Fixpoint set (m : list (list N * V)) (key : list N) (v : V)
    : list (list N * V) :=
  match m with
  | [] => [(key, v)]
  | (k, old) :: rest =>
      if bool_decide (k = key) then (k, v) :: rest
      else (k, old) :: set rest key v
  end.

(** [Object.values] *)
Definition values (m : list (list N * V)) : list V := List.map snd m.

Definition keys (m : list (list N * V)) : list (list N) := List.map fst m.
End Dict.
End Dict.

(** The storage. *)
Record Dirent : Type := { name : list N; isDirectory : bool }.
Record Stats : Type := { isFile : bool }.

Record Disk : Type := {
  readdir : list N -> result (list Dirent);
  stat : list N -> result Stats;
  readFile : list N -> result (list N);
}.

(** ** [lib/comfyui-fs.ts]: functions *)

Definition RUN_JSON_FILENAME : list N := str "run.json".
Definition METADATA_JSONL_FILENAME : list N := str "metadata.jsonl".

(** [isErrnoException(error) && error.code === "ENOENT"] *)
Definition isENOENT (e : exn) : bool :=
  match e with
  | Errno code => String.eqb code "ENOENT"
  | _ => false
  end.

Definition isJsonObject (v : value) : option (list (list N * value)) :=
  match v with
  | VObject props => Some props
  | _ => None
  end.

Definition parseJsonObject (P : Platform) (raw : list N)
    : option (list (list N * value)) :=
  match JSON_parse P raw with
  | Some parsed => isJsonObject parsed
  | None => None
  end.

Definition toNullableString (v : value) : option (list N) :=
  match v with VString s => Some s | _ => None end.

Definition toStringOrEmpty (v : value) : list N :=
  match v with VString s => s | _ => [] end.

Definition toNullableNumber (v : value) : option number :=
  match v with
  | VNumber n =>
      if Number_isNaN n then None
      else if Number_isFinite n then Some n else None
  | _ => None
  end.

Definition toNumberOrZero (v : value) : number :=
  default (Finite (0 # 1)) (toNullableNumber v).

Definition toNullableInteger (v : value) : option Z :=
  match v with
  | VNumber n => if Number_isInteger n then Some (integer_of n) else None
  | _ => None
  end.

Definition toIntegerArray (v : value) : list Z :=
  match v with
  | VArray items => omap toNullableInteger items
  | _ => []
  end.

Definition toStringArray (v : value) : option (list (list N)) :=
  match v with
  | VArray items =>
      let values :=
        omap (fun item => match item with
                          | VString (c :: s) => Some (c :: s)
                          | _ => None
                          end) items in
      match values with
      | [] => None
      | _ => Some values
      end
  | _ => None
  end.

Definition toCellKey (xIndex yIndex : Z) : list N :=
  number_to_string xIndex ++ Char.COMMA :: number_to_string yIndex.

Definition normalizeCellStatus (v : value) : CellStatus :=
  match v with
  | VString s => default failed (parseCellStatus s)
  | _ => failed
  end.

Definition normalizeXFields (v : value) : XFields.t :=
  match isJsonObject v with
  | None => XFields.empty
  | Some props =>
      fold_left
        (fun xFields key =>
           match get props (XKey.name key) with
           | VString item => XFields.write xFields key item
           | _ => xFields
           end)
        X_FIELDS_ORDER XFields.empty
  end.

Definition normalizeGenerationParams (v : value) : option GenerationParams.t :=
  match isJsonObject v with
  | None => None
  | Some props =>
      Some {|
        GenerationParams.seed := toNullableNumber (get props (str "seed"));
        GenerationParams.negative_prompt :=
          toNullableString (get props (str "negative_prompt"));
        GenerationParams.width := toNullableNumber (get props (str "width"));
        GenerationParams.height := toNullableNumber (get props (str "height"));
        GenerationParams.batch_size :=
          toNullableNumber (get props (str "batch_size"));
        GenerationParams.steps := toNullableNumber (get props (str "steps"));
        GenerationParams.cfg := toNullableNumber (get props (str "cfg"));
        GenerationParams.denoise := toNullableNumber (get props (str "denoise"));
        GenerationParams.sampler_name :=
          toNullableString (get props (str "sampler_name"));
        GenerationParams.scheduler :=
          toNullableString (get props (str "scheduler"));
      |}
  end.

(** [a ?? b] on a value: [undefined] and [null] give way to [b]. *)
Definition nullish_or (a b : value) : value :=
  match a with
  | VUndefined | VNull => b
  | _ => a
  end.

Definition normalizeGridCell (record : list (list N * value))
    : option GridCell.t :=
  match toNullableInteger (get record (str "x_index")),
        toNullableInteger (get record (str "y_index")) with
  | Some xIndex, Some yIndex =>
      let localImagePath := toNullableString (get record (str "local_image_path")) in
      let imagePaths := toStringArray (get record (str "local_image_paths")) in
      let mergedImagePaths :=
        match imagePaths with
        | Some paths => Some paths
        | None =>
            match localImagePath with
            | Some (c :: s) => Some [c :: s]
            | _ => None
            end
        end in
      Some {|
        GridCell.status := normalizeCellStatus (get record (str "status"));
        GridCell.x_index := xIndex;
        GridCell.y_index := yIndex;
        GridCell.x_fields := normalizeXFields (get record (str "x_fields"));
        GridCell.y_value := toNullableString (get record (str "y_value"));
        GridCell.positive_prompt :=
          toNullableString (get record (str "positive_prompt"));
        GridCell.prompt_hash := toNullableString (get record (str "prompt_hash"));
        GridCell.seed := toNullableNumber (get record (str "seed"));
        GridCell.generation_params :=
          normalizeGenerationParams (get record (str "generation_params"));
        GridCell.workflow_hash :=
          toNullableString (get record (str "workflow_hash"));
        GridCell.comfyui_prompt_id :=
          toNullableString (get record (str "comfyui_prompt_id"));
        GridCell.local_image_path :=
          match localImagePath with
          | Some p => Some p
          | None => mergedImagePaths ≫= head
          end;
        GridCell.local_image_paths := mergedImagePaths;
        GridCell.error := nullish_or (get record (str "error")) VNull;
        GridCell.started_at := toNullableString (get record (str "started_at"));
        GridCell.finished_at := toNullableString (get record (str "finished_at"));
        GridCell.elapsed_ms := toNullableNumber (get record (str "elapsed_ms"));
      |}
  | _, _ => None
  end.

Definition normalizeSelection (v : value) : Selection.t :=
  let record := default [] (isJsonObject v) in
  let xIndexes := toIntegerArray (get record (str "x_indexes")) in
  let yIndexes := toIntegerArray (get record (str "y_indexes")) in
  {|
    Selection.x_indexes := xIndexes;
    Selection.y_indexes := yIndexes;
    Selection.x_count :=
      default (Z.of_nat (length xIndexes))
              (toNullableInteger (get record (str "x_count")));
    Selection.y_count :=
      default (Z.of_nat (length yIndexes))
              (toNullableInteger (get record (str "y_count")));
    Selection.total_cells :=
      default (Z.of_nat (length xIndexes) * Z.of_nat (length yIndexes))%Z
              (toNullableInteger (get record (str "total_cells")));
    Selection.x_limit := toNullableNumber (get record (str "x_limit"));
    Selection.y_limit := toNullableNumber (get record (str "y_limit"));
    Selection.x_indexes_raw := toNullableString (get record (str "x_indexes_raw"));
    Selection.y_indexes_raw := toNullableString (get record (str "y_indexes_raw"));
  |}.

Definition normalizeGenerationOverrides (v : value) : GenerationOverrides.t :=
  let record := default [] (isJsonObject v) in
  {|
    GenerationOverrides.negative_prompt :=
      toNullableString (get record (str "negative_prompt"));
    GenerationOverrides.width := toNullableNumber (get record (str "width"));
    GenerationOverrides.height := toNullableNumber (get record (str "height"));
    GenerationOverrides.batch_size :=
      toNullableNumber (get record (str "batch_size"));
    GenerationOverrides.steps := toNullableNumber (get record (str "steps"));
    GenerationOverrides.cfg := toNullableNumber (get record (str "cfg"));
    GenerationOverrides.denoise := toNullableNumber (get record (str "denoise"));
    GenerationOverrides.sampler_name :=
      toNullableString (get record (str "sampler_name"));
    GenerationOverrides.scheduler :=
      toNullableString (get record (str "scheduler"));
  |}.

(** [!s] for [s : string | null] *)
Definition falsy (s : option (list N)) : bool :=
  match s with
  | Some (_ :: _) => false
  | _ => true
  end.

Definition normalizeRunDetail (record : list (list N * value)) (runDir : list N)
    : result RunDetail.t :=
  let runId := toNullableString (get record (str "run_id")) in
  let createdAt := toNullableString (get record (str "created_at")) in
  check negb (falsy runId || falsy createdAt) else MissingIdentity runDir in
  Ok {|
    RunDetail.run_id := default [] runId;
    RunDetail.created_at := default [] createdAt;
    RunDetail.dry_run :=
      match get record (str "dry_run") with VBool true => true | _ => false end;
    RunDetail.run_dir :=
      default (Posix.join [str "comfyui_api_outputs"; runDir])
              (toNullableString (get record (str "run_dir")));
    RunDetail.x_csv_path := toStringOrEmpty (get record (str "x_csv_path"));
    RunDetail.y_csv_path := toStringOrEmpty (get record (str "y_csv_path"));
    RunDetail.x_csv_sha256 := toStringOrEmpty (get record (str "x_csv_sha256"));
    RunDetail.y_csv_sha256 := toStringOrEmpty (get record (str "y_csv_sha256"));
    RunDetail.template := toStringOrEmpty (get record (str "template"));
    RunDetail.base_seed := toNumberOrZero (get record (str "base_seed"));
    RunDetail.seed_strategy := toStringOrEmpty (get record (str "seed_strategy"));
    RunDetail.workflow_json_path :=
      toStringOrEmpty (get record (str "workflow_json_path"));
    RunDetail.workflow_json_sha256 :=
      toStringOrEmpty (get record (str "workflow_json_sha256"));
    RunDetail.workflow_status :=
      toStringOrEmpty (get record (str "workflow_status"));
    RunDetail.selected_ksampler_node_id :=
      toNullableString (get record (str "selected_ksampler_node_id"));
    RunDetail.comfyui_base_url :=
      toStringOrEmpty (get record (str "comfyui_base_url"));
    RunDetail.request_timeout_s :=
      toNumberOrZero (get record (str "request_timeout_s"));
    RunDetail.job_timeout_s := toNumberOrZero (get record (str "job_timeout_s"));
    RunDetail.concurrency :=
      default 0%Z (toNullableInteger (get record (str "concurrency")));
    RunDetail.client_id := toNullableString (get record (str "client_id"));
    RunDetail.selection := normalizeSelection (get record (str "selection"));
    RunDetail.generation_overrides :=
      normalizeGenerationOverrides (get record (str "generation_overrides"));
  |}.

Definition createMissingCell (xIndex yIndex : Z) : GridCell.t := {|
  GridCell.status := missing;
  GridCell.x_index := xIndex;
  GridCell.y_index := yIndex;
  GridCell.x_fields := XFields.empty;
  GridCell.y_value := None;
  GridCell.positive_prompt := None;
  GridCell.prompt_hash := None;
  GridCell.seed := None;
  GridCell.generation_params := None;
  GridCell.workflow_hash := None;
  GridCell.comfyui_prompt_id := None;
  GridCell.local_image_path := None;
  GridCell.local_image_paths := None;
  GridCell.error := VNull;
  GridCell.started_at := None;
  GridCell.finished_at := None;
  GridCell.elapsed_ms := None;
|}.

Definition formatXLabel (cell : option GridCell.t) (xIndex : Z) : list N :=
  match cell with
  | None => str "x" ++ number_to_string xIndex
  | Some cell =>
      let values :=
        omap (fun key =>
                match JsString.trim <$> XFields.read (GridCell.x_fields cell) key with
                | Some (c :: s) => Some (c :: s)
                | _ => None
                end)
             X_FIELDS_ORDER in
      match values with
      | [] => str "x" ++ number_to_string xIndex
      | _ => JsString.join [Char.SPACE] values
      end
  end.

Definition formatYLabel (cell : option GridCell.t) (yIndex : Z) : list N :=
  match JsString.trim <$> (cell ≫= GridCell.y_value) with
  | Some (c :: s) => c :: s
  | _ => str "y" ++ number_to_string yIndex
  end.

Definition containsRunJson (P : Platform) (D : Disk) (runPath : list N)
    : result bool :=
  match stat D (path_join P [runPath; RUN_JSON_FILENAME]) with
  | Ok file => Ok (isFile file)
  | Throw error => if isENOENT error then Ok false else Throw error
  end.

(** [Promise.all] over an array: every result when all succeed, else a
    rejection. *)
Fixpoint all_ok {A B} (f : A -> result B) (items : list A) : result (list B) :=
  match items with
  | [] => Ok []
  | item :: rest =>
      let* b := f item in
      let* bs := all_ok f rest in
      Ok (b :: bs)
  end.

(** [Array.prototype.sort] with a comparator: a stable sort, where [a] goes
    after [b] when [cmp a b > 0]. *)
Fixpoint sort_insert {A} (cmp : A -> A -> Z) (a : A) (sorted : list A) : list A :=
  match sorted with
  | [] => [a]
  | b :: rest =>
      if (0 <? cmp a b)%Z then b :: sort_insert cmp a rest
      else a :: sorted
  end.

Definition sort {A} (cmp : A -> A -> Z) (items : list A) : list A :=
  foldr (sort_insert cmp) [] items.

Definition discoverRunDirs (P : Platform) (D : Disk) (outputsRoot : list N)
    : result (list (list N)) :=
  match readdir D outputsRoot with
  | Throw error => if isENOENT error then Ok [] else Throw error
  | Ok entries =>
      let candidates :=
        List.filter (fun entry => isDirectory entry && isValidRunDir (name entry))
                    entries in
      let* runDirs :=
        all_ok (fun entry =>
                  let runPath := path_join P [outputsRoot; name entry] in
                  let* found := containsRunJson P D runPath in
                  Ok (if found then Some (name entry) else None))
               candidates in
      Ok (sort (fun left right => localeCompare P right left)
               (omap id runDirs))
  end.

Definition loadRunDetail (P : Platform) (D : Disk) (runDir outputsRoot : list N)
    : result RunDetail.t :=
  let runJsonPath := path_join P [outputsRoot; runDir; RUN_JSON_FILENAME] in
  let* raw := readFile D runJsonPath in
  match parseJsonObject P raw with
  | None => Throw (InvalidRunJson runDir)
  | Some parsed => normalizeRunDetail parsed runDir
  end.

(** One turn of the loop over the lines of [metadata.jsonl]. *)
Definition ingest_line (P : Platform) (cells : list (list N * GridCell.t))
    (line : list N) : list (list N * GridCell.t) :=
  let trimmed := JsString.trim line in
  match trimmed with
  | [] => cells
  | _ =>
      match parseJsonObject P trimmed with
      | None => cells
      | Some parsed =>
          match normalizeGridCell parsed with
          | None => cells
          | Some cell =>
              Dict.set cells
                (toCellKey (GridCell.x_index cell) (GridCell.y_index cell)) cell
          end
      end
  end.

Definition parseMetadataJsonl (P : Platform) (D : Disk)
    (runDir outputsRoot : list N) : result (list (list N * GridCell.t)) :=
  let metadataPath := path_join P [outputsRoot; runDir; METADATA_JSONL_FILENAME] in
  match readFile D metadataPath with
  | Throw error => if isENOENT error then Ok [] else Throw error
  | Ok raw =>
      let lines := JsString.split_lines raw in
      Ok (fold_left (ingest_line P) lines [])
  end.

(** The first loop of [buildGridIndex]: the first cell met for each X index
    and for each Y index, in the enumeration order of [cells]. *)
Definition note_first (firsts : gmap Z GridCell.t * gmap Z GridCell.t)
    (cell : GridCell.t) : gmap Z GridCell.t * gmap Z GridCell.t :=
  let '(firstByX, firstByY) := firsts in
  (match firstByX !! GridCell.x_index cell with
   | Some _ => firstByX
   | None => <[GridCell.x_index cell := cell]> firstByX
   end,
   match firstByY !! GridCell.y_index cell with
   | Some _ => firstByY
   | None => <[GridCell.y_index cell := cell]> firstByY
   end).

Definition buildGridIndex (runDetail : RunDetail.t)
    (cells : list (list N * GridCell.t)) : GridIndex.t :=
  let xIndexes := Selection.x_indexes (RunDetail.selection runDetail) in
  let yIndexes := Selection.y_indexes (RunDetail.selection runDetail) in
  let '(firstByX, firstByY) :=
    fold_left note_first (Dict.values cells) (∅, ∅) in
  let xLabels :=
    List.map (fun xIndex => formatXLabel (firstByX !! xIndex) xIndex) xIndexes in
  let yLabels :=
    List.map (fun yIndex => formatYLabel (firstByY !! yIndex) yIndex) yIndexes in
  let gridCells :=
    fold_left
      (fun gridCells yIndex =>
         fold_left
           (fun gridCells xIndex =>
              let key := toCellKey xIndex yIndex in
              Dict.set gridCells key
                (default (createMissingCell xIndex yIndex) (Dict.get cells key)))
           xIndexes gridCells)
      yIndexes [] in
  {|
    GridIndex.xLabels := xLabels;
    GridIndex.yLabels := yLabels;
    GridIndex.x_count := length xIndexes;
    GridIndex.y_count := length yIndexes;
    GridIndex.cells := gridCells;
  |}.

Definition loadRunGridIndex (P : Platform) (D : Disk)
    (runDir outputsRoot : list N) : result (RunDetail.t * GridIndex.t) :=
  let* runDetail := loadRunDetail P D runDir outputsRoot in
  let* cells := parseMetadataJsonl P D runDir outputsRoot in
  let grid := buildGridIndex runDetail cells in
  Ok (runDetail, grid).

Definition summarize (runDir : list N) (runDetail : RunDetail.t) : RunSummary.t :=
  let selection := RunDetail.selection runDetail in
  {|
    RunSummary.run_id := RunDetail.run_id runDetail;
    RunSummary.created_at := RunDetail.created_at runDetail;
    RunSummary.run_dir := runDir;
    RunSummary.x_count := length (Selection.x_indexes selection);
    RunSummary.y_count := length (Selection.y_indexes selection);
    RunSummary.total_cells :=
      length (Selection.x_indexes selection)
      * length (Selection.y_indexes selection);
  |}.

Definition listRunSummaries (P : Platform) (D : Disk) (outputsRoot : list N)
    : result (list RunSummary.t) :=
  let* runDirs := discoverRunDirs P D outputsRoot in
  Ok (fold_left
        (fun summaries runDir =>
           match loadRunDetail P D runDir outputsRoot with
           | Ok runDetail => summaries ++ [summarize runDir runDetail]
           | Throw _ => summaries
           end)
        runDirs []).

(** ** The route handlers

    [app/api/comfyui/run/[runDir]/route.ts], the listing route and the image
    route. A [Response] is its status and what its body is made from. The
    constant [DEFAULT_COMFYUI_OUTPUTS_ROOT], computed once from
    [process.cwd()], is a parameter of each handler, and so is
    [path.extname] for the image route. *)

Module Response.
Inductive payload : Type :=
| error (text : string)
| run_detail (run : RunDetail.t) (xLabels yLabels : list (list N))
| run_summaries (runs : list RunSummary.t)
| stream (absoluteImagePath : list N) (contentType cacheControl : string).

Record t : Type := { status : nat; body : payload }.

(** [Response.json({ error: text }, { status })] *)
Definition failure (status : nat) (text : string) : t :=
  {| status := status; body := error text |}.
End Response.

(** [error.message === text], for the texts a handler lists. An errno
    exception is told apart by its [code]; its message begins with that code
    and is none of the listed texts. *)
Definition message_among (texts : list string) (e : exn) : bool :=
  match e with
  | Errno _ => false
  | _ => existsb (fun text => JsString.eqb (message e) (str text)) texts
  end.

Module RunRoute.
Section RunRoute.
Variables (P : Platform) (D : Disk) (DEFAULT_COMFYUI_OUTPUTS_ROOT : list N).

Definition isNotFoundError (e : exn) : bool :=
  message_among
    [ "runDir must not be empty"; "Invalid runDir format";
      "runDir is not in allowlist" ]%string e
  || isENOENT e.

Definition GET (runDir : list N) : Response.t :=
  match
    (let* discovered := discoverRunDirs P D DEFAULT_COMFYUI_OUTPUTS_ROOT in
     let allowedRunDirs : gset (list N) := list_to_set discovered in
     let* safeRunDir := assertAllowedRunDir runDir allowedRunDirs in
     let* loaded := loadRunGridIndex P D safeRunDir DEFAULT_COMFYUI_OUTPUTS_ROOT in
     Ok {| Response.status := 200;
           Response.body :=
             Response.run_detail (fst loaded) (GridIndex.xLabels (snd loaded))
                                 (GridIndex.yLabels (snd loaded)) |})
  with
  | Ok response => response
  | Throw e =>
      if isNotFoundError e then Response.failure 404 "Run not found"
      else Response.failure 500 "Failed to load run detail"
  end.
End RunRoute.
End RunRoute.

Module RunsRoute.
Section RunsRoute.
Variables (P : Platform) (D : Disk) (DEFAULT_COMFYUI_OUTPUTS_ROOT : list N).

Definition normalizeRunSummaries (runs : list RunSummary.t) : list RunSummary.t :=
  List.map
    (fun run =>
       {| RunSummary.run_dir := RunSummary.run_dir run;
          RunSummary.run_id := RunSummary.run_id run;
          RunSummary.created_at := RunSummary.created_at run;
          RunSummary.x_count := RunSummary.x_count run;
          RunSummary.y_count := RunSummary.y_count run;
          RunSummary.total_cells := RunSummary.total_cells run |})
    runs.

Definition GET : Response.t :=
  match listRunSummaries P D DEFAULT_COMFYUI_OUTPUTS_ROOT with
  | Ok runs =>
      {| Response.status := 200;
         Response.body := Response.run_summaries (normalizeRunSummaries runs) |}
  | Throw _ =>
      {| Response.status := 200; Response.body := Response.run_summaries [] |}
  end.
End RunsRoute.
End RunsRoute.

Module ImageRoute.
Section ImageRoute.
Variables (P : Platform) (D : Disk) (DEFAULT_COMFYUI_OUTPUTS_ROOT : list N).
Variable path_extname : list N -> list N.

Definition CACHE_CONTROL : string := "public, max-age=86400".

Definition contentTypeFromExt (imagePath : list N) : string :=
  let ext := toLowerCase P (path_extname imagePath) in
  if JsString.eqb ext (str ".png") then "image/png"
  else if JsString.eqb ext (str ".jpg") || JsString.eqb ext (str ".jpeg")
  then "image/jpeg"
  else if JsString.eqb ext (str ".webp") then "image/webp"
  else if JsString.eqb ext (str ".gif") then "image/gif"
  else "application/octet-stream".

Definition isNotFoundError (e : exn) : bool :=
  message_among
    [ "runDir must not be empty"; "Invalid runDir format";
      "runDir is not in allowlist"; "imagePath must not be empty";
      "imagePath must not contain null bytes";
      "imagePath must not contain URL-encoded characters";
      "imagePath must not contain backslashes"; "imagePath must be relative";
      "imagePath must not contain a drive letter";
      "imagePath must not contain empty segments";
      "imagePath must not contain dot segments";
      "imagePath escapes the expected relative scope";
      "Resolved path escapes root" ]%string e
  || isENOENT e.

Definition GET (runDir : list N) (imagePath : list (list N)) : Response.t :=
  match
    (let* discovered := discoverRunDirs P D DEFAULT_COMFYUI_OUTPUTS_ROOT in
     let allowedRunDirs : gset (list N) := list_to_set discovered in
     let* safeRunDir := assertAllowedRunDir runDir allowedRunDirs in
     let* relativeImagePath :=
       assertSafeRelativeImagePath (JsString.join [Char.SLASH] imagePath) in
     let runRoot := path_join P [DEFAULT_COMFYUI_OUTPUTS_ROOT; safeRunDir] in
     let* absoluteImagePath := resolvePathUnderRoot P runRoot relativeImagePath in
     let* imageStat := stat D absoluteImagePath in
     if negb (isFile imageStat) then Ok (Response.failure 404 "Image not found")
     else
       Ok {| Response.status := 200;
             Response.body :=
               Response.stream absoluteImagePath
                 (contentTypeFromExt relativeImagePath) CACHE_CONTROL |})
  with
  | Ok response => response
  | Throw e =>
      if isNotFoundError e then Response.failure 404 "Image not found"
      else Response.failure 500 "Failed to load image"
  end.
End ImageRoute.
End ImageRoute.

(** ** [components/comfyui/virtual-grid.tsx]: the pure helpers *)

Module RunGridCell.
Record generation_params_t : Type := {
  width : option number;
  height : option number;
  steps : option number;
  cfg : option number;
  sampler_name : option (list N);
}.

(** [local_image_paths], [positive_prompt] and [generation_params] are
    optional properties: [None] stands for their absence (and, for
    [positive_prompt], also for [null]). *)
Record t : Type := {
  status : CellStatus;
  x_index : number;
  y_index : number;
  local_image_path : option (list N);
  local_image_paths : option (list (list N));
  seed : option number;
  prompt_hash : option (list N);
  positive_prompt : option (list N);
  generation_params : option generation_params_t;
}.
End RunGridCell.

(** [cells[`${xIndex},${yIndex}`] ?? null], for integer positions. *)
Definition getGridCell {V : Type} (cells : list (list N * V)) (xIndex yIndex : Z)
    : option V :=
  Dict.get cells (toCellKey xIndex yIndex).

(** [s && s.length > 0] for [s : string | null] *)
Definition non_empty (s : option (list N)) : bool := negb (falsy s).

Definition getCellImagePaths (cell : RunGridCell.t) : list (list N) :=
  let paths :=
    match RunGridCell.local_image_paths cell with
    | Some listed => List.filter (fun path => negb (Nat.eqb (length path) 0)) listed
    | None => []
    end in
  match RunGridCell.local_image_path cell with
  | Some first =>
      if non_empty (Some first) && negb (bool_decide (first ∈ paths))
      then first :: paths
      else
        match paths with
        | _ :: _ => paths
        | [] => if non_empty (Some first) then [first] else []
        end
  | None => paths
  end.

(** The updaters behind the two image buttons of the preview dialog;
    [imagePaths] is [selectedCell?.imagePaths], absent when no cell is
    selected. *)
Definition showPreviousImage (index : Z) : Z :=
  if (index <=? 0)%Z then 0%Z else (index - 1)%Z.

Definition showNextImage (imagePaths : option (list (list N))) (index : Z) : Z :=
  match imagePaths with
  | None => index
  | Some paths =>
      if (index >=? Z.of_nat (length paths) - 1)%Z then index else (index + 1)%Z
  end.

(** * Vocabulary of the properties

    Definitions the properties are stated with. [rejection_rules],
    [sanitize], [within_root_as_stated], [attempted] and [lowest_with]
    follow the words of the specification and are compared with the code
    above; the others name what the code computes. *)

(** The nine rejection rules of the path sanitizer, in the order the
    specification lists them; each is a test of the trimmed candidate and
    the rejection it causes. *)
Definition rejection_rules : list ((list N -> bool) * exn) :=
  [ (fun c => bool_decide (c = []), EmptyField "imagePath");
    (fun c => bool_decide (Char.NUL ∈ c), NullByte);
    (fun c => bool_decide (Char.PERCENT ∈ c), EncodedChars);
    (fun c => bool_decide (Char.BACKSLASH ∈ c), Backslash);
    (fun c => Posix.isAbsolute c || win32_isAbsolute c, Absolute);
    (WINDOWS_DRIVE_LETTER_PREFIX_test, DriveLetter);
    (fun c => bool_decide ([] ∈ JsString.split Char.SLASH c), EmptySegment);
    (fun c => bool_decide ([Char.DOT] ∈ JsString.split Char.SLASH c
                           ∨ Posix.dotdot ∈ JsString.split Char.SLASH c),
     DotSegment);
    (fun c => let normalized := Posix.normalize c in
              bool_decide (normalized = [Char.DOT])
              || JsString.startsWith normalized (str "../")
              || JsString.includes normalized (str "/../"),
     Escapes) ].

(** First match wins; with no match the normalized path is returned. *)
Definition sanitize (candidate : list N) : result (list N) :=
  let c := JsString.trim candidate in
  match List.find (fun rule => fst rule c) rejection_rules with
  | Some rule => Throw (snd rule)
  | None => Ok (Posix.normalize c)
  end.

(** Containment under the root as the specification words it: the target's
    comparable form is the root's, or starts with the root's followed by the
    separator. *)
Definition within_root_as_stated (P : Platform)
    (comparableRoot comparableTarget : list N) : Prop :=
  comparableTarget = comparableRoot
  \/ JsString.startsWith comparableTarget (comparableRoot ++ path_sep P) = true.

(** Containment as [resolvePathUnderRoot] tests it: the separator is added
    to the root only when the root does not end with it already. *)
Definition rootWithSep (P : Platform) (comparableRoot : list N) : list N :=
  if JsString.endsWith comparableRoot (path_sep P)
  then comparableRoot
  else comparableRoot ++ path_sep P.

Definition within_root (P : Platform)
    (comparableRoot comparableTarget : list N) : Prop :=
  comparableTarget = comparableRoot
  \/ JsString.startsWith comparableTarget (rootWithSep P comparableRoot) = true.

(** A run directory the storage backs: an entry of the storage root that is
    a directory, whose name matches the run identifier pattern, and directly
    inside which [run.json] exists as a regular file. *)
Definition backed_run (P : Platform) (D : Disk) (outputsRoot runDir : list N)
    : Prop :=
  exists entries entry file,
    readdir D outputsRoot = Ok entries
    /\ entry ∈ entries
    /\ name entry = runDir
    /\ isDirectory entry = true
    /\ isValidRunDir runDir = true
    /\ stat D (path_join P [path_join P [outputsRoot; runDir]; RUN_JSON_FILENAME])
       = Ok file
    /\ isFile file = true.

(** The summary of a run, when its descriptor loads. *)
Definition summary_of (P : Platform) (D : Disk) (outputsRoot runDir : list N)
    : option RunSummary.t :=
  match loadRunDetail P D runDir outputsRoot with
  | Ok runDetail => Some (summarize runDir runDetail)
  | Throw _ => None
  end.

(** The record a log line yields: none for a blank line, for a line that
    is not a JSON object, and for an object without integer coordinates. *)
Definition parse_line (P : Platform) (line : list N) : option GridCell.t :=
  match JsString.trim line with
  | [] => None
  | trimmed => parseJsonObject P trimmed ≫= normalizeGridCell
  end.

Definition coordinate (cell : GridCell.t) : Z * Z :=
  (GridCell.x_index cell, GridCell.y_index cell).

(** The statuses a record read from the log has according to the
    specification. *)
Definition attempted (status : CellStatus) : Prop :=
  status = success \/ status = failed \/ status = skipped.

(** The explicit count a Selection record carries under [field], when it is
    an integer. *)
Definition explicit_count (v : value) (field : string) : option Z :=
  toNullableInteger (get (default [] (isJsonObject v)) (str field)).

(** The declared coordinates, in the order [buildGridIndex] visits them:
    row by row, each row along the X indexes. *)
Definition coordinates (xIndexes yIndexes : list Z) : list (Z * Z) :=
  flat_map (fun yIndex => List.map (fun xIndex => (xIndex, yIndex)) xIndexes)
           yIndexes.

(** The record the grid shows at a coordinate: the one of the log, or a
    synthesized [missing] record. *)
Definition cell_at (cells : list (list N * GridCell.t)) (x y : Z) : GridCell.t :=
  default (createMissingCell x y) (Dict.get cells (toCellKey x y)).

Definition place (cells : list (list N * GridCell.t))
    (gridCells : list (list N * GridCell.t)) (xy : Z * Z)
    : list (list N * GridCell.t) :=
  Dict.set gridCells (toCellKey xy.1 xy.2) (cell_at cells xy.1 xy.2).

(** The first record, in the enumeration order of the record map, whose
    index along one axis ([project]) is [i]. *)
Definition first_with (project : GridCell.t -> Z)
    (cells : list (list N * GridCell.t)) (i : Z) : option GridCell.t :=
  List.find (fun cell => bool_decide (project cell = i)) (Dict.values cells).

(** The record the specification designates for an axis value: among the
    records whose index along the axis is [i], the one with the lowest
    index along the other axis ([complement]). *)
Definition lowest_with (project complement : GridCell.t -> Z)
    (cells : list (list N * GridCell.t)) (i : Z) : option GridCell.t :=
  fold_left
    (fun best cell =>
       if bool_decide (project cell = i) then
         match best with
         | Some b => if (complement cell <? complement b)%Z then Some cell else best
         | None => Some cell
         end
       else best)
    (Dict.values cells) None.

(** A record with a descriptive attribute to show for its X value, and one
    with a descriptive value to show for its Y value. *)
Definition x_populated (cell : GridCell.t) : Prop :=
  exists key s, XFields.read (GridCell.x_fields cell) key = Some s
                /\ JsString.trim s <> [].

Definition y_populated (cell : GridCell.t) : Prop :=
  exists s, GridCell.y_value cell = Some s /\ JsString.trim s <> [].

(** A path segment that normalization keeps as it is. *)
Definition clean_segment (seg : list N) : Prop :=
  seg <> [] /\ seg <> [Char.DOT] /\ seg <> Posix.dotdot.

(** A list of path segments as [normalizeString] leaves it below the root:
    none is empty, [.] or [..], and none holds a separator. *)
Definition tidy (segs : list (list N)) : Prop :=
  Forall (fun seg => clean_segment seg /\ (Char.SLASH ∉ seg)) segs.

(** The shape of a run identifier: [run-], eight digits, [T], six digits,
    [Z]. *)
Definition run_identifier (s : list N) : Prop :=
  exists date time,
    length date = 8 /\ length time = 6
    /\ Forall (fun c => Char.is_digit c = true) date
    /\ Forall (fun c => Char.is_digit c = true) time
    /\ s = str "run-" ++ date ++ str "T" ++ time ++ str "Z".

(** [a] may stand before [b] in a list sorted most recent first. *)
Definition not_before (P : Platform) (a b : list N) : Prop :=
  (localeCompare P b a <= 0)%Z.

(** Storing a record under the key of its own coordinate. *)
Definition store (cells : list (list N * GridCell.t)) (cell : GridCell.t)
    : list (list N * GridCell.t) :=
  Dict.set cells (toCellKey (GridCell.x_index cell) (GridCell.y_index cell)) cell.

(** The lines of the event log of a run; none when the log cannot be
    read. *)
Definition log_lines (P : Platform) (D : Disk) (runDir outputsRoot : list N)
    : list (list N) :=
  match readFile D (path_join P [outputsRoot; runDir; METADATA_JSONL_FILENAME]) with
  | Ok raw => JsString.split_lines raw
  | Throw _ => []
  end.

(** A press on one of the two image buttons of the preview dialog, and its
    effect on the index of the image shown. *)
Inductive press : Type := previous_image | next_image.

Definition after_press (imagePaths : option (list (list N))) (index : Z)
    (p : press) : Z :=
  match p with
  | previous_image => showPreviousImage index
  | next_image => showNextImage imagePaths index
  end.

(** The response of a handler that found nothing, and of one that
    failed. *)
Definition not_found_or_failed (notFound failed : string) (r : Response.t) : Prop :=
  r = Response.failure 404 notFound \/ r = Response.failure 500 failed.

#[global] Instance XKey_eq_dec : EqDecision XKey.t.
Proof. solve_decision. Defined.

(** The keys of a list in the order of their first occurrence, leaving out
    those already [seen]. *)
Fixpoint first_occurrences (seen keys : list (list N)) : list (list N) :=
  match keys with
  | [] => []
  | key :: rest =>
      if bool_decide (key ∈ seen) then first_occurrences seen rest
      else key :: first_occurrences (seen ++ [key]) rest
  end.

Definition key_of (cell : GridCell.t) : list N :=
  toCellKey (GridCell.x_index cell) (GridCell.y_index cell).

(** * Sample hosts *)

(** A POSIX host in [/srv/app] on which no text parses as JSON. *)
Definition plain_host : Platform := posix (str "/srv/app") (fun _ => None).

(** JSON text written with single quotes standing for double quotes. *)
Definition json_text (s : string) : list N :=
  List.map (fun c => if (c =? 39)%N then 34%N else c) (str s).

Definition json_int (z : Z) : value := VNumber (Finite (z # 1)).

Module Sample.

Definition outputsRoot : list N := str "/srv/app/comfyui_api_outputs".

(** Three directories that look like runs: the first complete, the
    second without [run.json], the third with a [run.json] that is not
    JSON; and a plain file. *)
Definition run1 : list N := str "run-20260217T072414Z".
Definition run2 : list N := str "run-20260218T000000Z".
Definition run3 : list N := str "run-20260219T101500Z".

Definition run1_json : list N :=
  json_text "{'run_id':'r1','created_at':'2026-02-17T07:24:14Z','selection':{'x_indexes':[0,1],'y_indexes':[0,1],'x_count':2}}".

Definition run1_object : value :=
  VObject
    [ (str "run_id", VString (str "r1"));
      (str "created_at", VString (str "2026-02-17T07:24:14Z"));
      (str "selection",
       VObject [ (str "x_indexes", VArray [json_int 0; json_int 1]);
                 (str "y_indexes", VArray [json_int 0; json_int 1]);
                 (str "x_count", json_int 2) ]) ].

(** A descriptor that declares the X index 0 twice. *)
Definition repeated_object : list (list N * value) :=
  [ (str "run_id", VString (str "r4"));
    (str "created_at", VString (str "2026-02-20T00:00:00Z"));
    (str "selection",
     VObject [ (str "x_indexes", VArray [json_int 0; json_int 0]);
               (str "y_indexes", VArray [json_int 0]) ]) ].

(** The event log of the first run: cell (0,1) fails, a corrupt line,
    cell (0,0) succeeds, cell (0,1) is tried again and succeeds. *)
Definition line_a : list N :=
  json_text "{'x_index':0,'y_index':1,'status':'failed','x_fields':{'quality':'draft'},'y_value':'artist b'}".
Definition line_b : list N := json_text "{'x_index':0,'y_in".
Definition line_c : list N :=
  json_text "{'x_index':0,'y_index':0,'status':'success','x_fields':{'quality':'best'},'y_value':'artist a'}".
Definition line_m : list N :=
  json_text "{'x_index':1,'y_index':1,'status':'missing'}".
Definition line_d : list N :=
  json_text "{'x_index':0,'y_index':1,'status':'success','x_fields':{'quality':'final'},'y_value':'artist b'}".

Definition log_record (x y : Z) (status quality y_value : string) : value :=
  VObject
    [ (str "x_index", json_int x);
      (str "y_index", json_int y);
      (str "status", VString (str status));
      (str "x_fields", VObject [(str "quality", VString (str quality))]);
      (str "y_value", VString (str y_value)) ].

Definition metadata_jsonl : list N :=
  line_a ++ [Char.LF] ++ line_b ++ [Char.CR; Char.LF] ++ line_c ++ [Char.LF]
  ++ line_d ++ [Char.LF].

(** [JSON.parse] on the texts above. *)
Definition parse (text : list N) : option value :=
  snd <$> List.find (fun entry => JsString.eqb (fst entry) text)
    [ (run1_json, run1_object);
      (line_a, log_record 0 1 "failed" "draft" "artist b");
      (line_c, log_record 0 0 "success" "best" "artist a");
      (line_d, log_record 0 1 "success" "final" "artist b");
      (line_m, VObject [ (str "x_index", json_int 1); (str "y_index", json_int 1);
                         (str "status", VString (str "missing")) ]) ].

Definition host : Platform := posix (str "/srv/app") parse.

Definition files : list (list N * list N) :=
  [ (str "/srv/app/comfyui_api_outputs/run-20260217T072414Z/run.json", run1_json);
    (str "/srv/app/comfyui_api_outputs/run-20260217T072414Z/metadata.jsonl",
     metadata_jsonl);
    (str "/srv/app/comfyui_api_outputs/run-20260219T101500Z/run.json",
     json_text "{'run_id':") ].

Definition disk : Disk := {|
  readdir := fun p =>
    if JsString.eqb p outputsRoot
    then Ok [ {| name := run1; isDirectory := true |};
              {| name := str "notes.txt"; isDirectory := false |};
              {| name := run2; isDirectory := true |};
              {| name := run3; isDirectory := true |} ]
    else Throw (Errno "ENOENT");
  stat := fun p =>
    match Dict.get files p with
    | Some _ => Ok {| isFile := true |}
    | None => Throw (Errno "ENOENT")
    end;
  readFile := fun p =>
    match Dict.get files p with
    | Some text => Ok text
    | None => Throw (Errno "ENOENT")
    end;
|}.

End Sample.

(** The storage of a run that has just started: the descriptor of the
    first sample run and no event log yet. *)
Module Fresh.

Definition files : list (list N * list N) :=
  [ (str "/srv/app/comfyui_api_outputs/run-20260217T072414Z/run.json",
     Sample.run1_json) ].

Definition disk : Disk := {|
  readdir := fun p =>
    if JsString.eqb p Sample.outputsRoot
    then Ok [ {| name := Sample.run1; isDirectory := true |} ]
    else Throw (Errno "ENOENT");
  stat := fun p =>
    match Dict.get files p with
    | Some _ => Ok {| isFile := true |}
    | None => Throw (Errno "ENOENT")
    end;
  readFile := fun p =>
    match Dict.get files p with
    | Some text => Ok text
    | None => Throw (Errno "ENOENT")
    end;
|}.

End Fresh.

(** A storage whose outputs root does not exist. *)
Module Empty.

Definition disk : Disk := {|
  readdir := fun _ => Throw (Errno "ENOENT");
  stat := fun _ => Throw (Errno "ENOENT");
  readFile := fun _ => Throw (Errno "ENOENT");
|}.

End Empty.

(** A storage in which the descriptor of the second sample run cannot be
    examined: [stat] fails on it with [EACCES]. *)
Module Locked.

Definition disk : Disk := {|
  readdir := readdir Sample.disk;
  stat := fun p =>
    if JsString.eqb p
         (str "/srv/app/comfyui_api_outputs/run-20260218T000000Z/run.json")
    then Throw (Errno "EACCES")
    else stat Sample.disk p;
  readFile := readFile Sample.disk;
|}.

End Locked.

(** * Properties *)

(** The segments of a literal path are clean. *)
Ltac by_clean_literal :=
  vm_compute; repeat constructor; discriminate.

(** Closed goals settled by evaluation. *)
Ltac by_evaluation := vm_compute; reflexivity.
Ltac decide_by_evaluation := apply (bool_decide_unpack _); vm_compute; exact I.

(** ** Strings *)

Section StringFacts.

Lemma startsWith_prefix (s p : list N) :
  JsString.startsWith s p = true <-> exists rest, s = p ++ rest.
Proof.
  revert s; induction p as [|a p IH]; intros s; simpl.
  - split; [intros _; now exists s | reflexivity].
  - destruct s as [|b s].
    + split; [discriminate | intros [rest H]; discriminate].
    + rewrite andb_true_iff, N.eqb_eq, IH. split.
      * intros [-> [rest ->]]. eauto.
      * intros [rest [= -> ->]]. eauto.
Qed.

Lemma startsWith_app (p rest : list N) : JsString.startsWith (p ++ rest) p = true.
Proof. apply startsWith_prefix; eauto. Qed.

Lemma includes_char (s : list N) (c : N) :
  JsString.includes s [c] = true <-> c ∈ s.
Proof.
  induction s as [|b s IH]; simpl.
  - split; [discriminate | intros H; inversion H].
  - rewrite orb_true_iff, andb_true_r, N.eqb_eq, IH, elem_of_cons. tauto.
Qed.

Lemma trimStart_head (s : list N) (c : N) (s' : list N) :
  JsString.trimStart s = c :: s' -> Char.is_space c = false.
Proof.
  induction s as [|b s IH]; simpl; [discriminate|].
  destruct (Char.is_space b) eqn:Hb; [exact IH|].
  intros [= <- <-]; exact Hb.
Qed.

Lemma trimStart_fixed (c : N) (s : list N) :
  Char.is_space c = false -> JsString.trimStart (c :: s) = c :: s.
Proof. intros H; simpl; now rewrite H. Qed.

Lemma trimStart_idem (s : list N) :
  JsString.trimStart (JsString.trimStart s) = JsString.trimStart s.
Proof.
  destruct (JsString.trimStart s) as [|c s'] eqn:E; [reflexivity|].
  apply trimStart_fixed, (trimStart_head _ _ _ E).
Qed.

Lemma trimStart_snoc (s : list N) (c : N) :
  Char.is_space c = false ->
  exists s', JsString.trimStart (s ++ [c]) = s' ++ [c].
Proof.
  intros Hc; induction s as [|b s IH]; simpl.
  - rewrite Hc. now exists [].
  - destruct (Char.is_space b); [exact IH|]. now exists (b :: s).
Qed.

Lemma trimEnd_head (c : N) (s : list N) :
  Char.is_space c = false ->
  exists s', JsString.trimEnd (c :: s) = c :: s'.
Proof.
  intros Hc. unfold JsString.trimEnd. simpl.
  destruct (trimStart_snoc (rev s) c Hc) as [s' ->].
  rewrite rev_app_distr. simpl. eauto.
Qed.

Lemma trimEnd_idem (s : list N) :
  JsString.trimEnd (JsString.trimEnd s) = JsString.trimEnd s.
Proof.
  unfold JsString.trimEnd. now rewrite rev_involutive, trimStart_idem.
Qed.

(** Trimming a trimmed string changes nothing. *)
Lemma trim_idem (s : list N) : JsString.trim (JsString.trim s) = JsString.trim s.
Proof.
  unfold JsString.trim.
  destruct (JsString.trimStart s) as [|c s'] eqn:E; [reflexivity|].
  pose proof (trimStart_head _ _ _ E) as Hc.
  destruct (trimEnd_head c s' Hc) as [t Ht].
  rewrite Ht, (trimStart_fixed c t Hc), <- Ht. apply trimEnd_idem.
Qed.

Lemma split_nonempty (sep : N) (s : list N) : JsString.split sep s <> [].
Proof.
  destruct s as [|c s]; simpl; [discriminate|].
  destruct (c =? sep)%N; [discriminate|].
  destruct (JsString.split sep s); discriminate.
Qed.

Lemma split_app (sep : N) (a b : list N) :
  JsString.split sep (a ++ sep :: b) = JsString.split sep a ++ JsString.split sep b.
Proof.
  induction a as [|c a IH]; simpl.
  - now rewrite N.eqb_refl.
  - destruct (c =? sep)%N; [now rewrite IH|].
    rewrite IH. pose proof (split_nonempty sep a) as Hne.
    destruct (JsString.split sep a); [contradiction|reflexivity].
Qed.

Lemma join_split (sep : N) (s : list N) :
  JsString.join [sep] (JsString.split sep s) = s.
Proof.
  induction s as [|c s IH]; simpl; [reflexivity|].
  destruct (c =? sep)%N eqn:E.
  - apply N.eqb_eq in E; subst c.
    pose proof (split_nonempty sep s) as Hne.
    destruct (JsString.split sep s) as [|seg rest]; [contradiction|].
    simpl in *. now rewrite IH.
  - pose proof (split_nonempty sep s) as Hne.
    destruct (JsString.split sep s) as [|seg rest]; [contradiction|].
    destruct rest; simpl in *; now rewrite <- IH.
Qed.

Lemma endsWith_snoc (s : list N) (c : N) :
  JsString.endsWith s [c] = true -> exists s', s = s' ++ [c].
Proof.
  unfold JsString.endsWith. change (rev [c]) with [c]. intros H.
  apply startsWith_prefix in H as [rest H].
  exists (rev rest). apply (f_equal (@rev N)) in H.
  now rewrite rev_involutive in H.
Qed.

Lemma endsWith_sep_split (s : list N) (sep : N) :
  JsString.endsWith s [sep] = true -> [] ∈ JsString.split sep s.
Proof.
  intros H. apply endsWith_snoc in H as [s' ->].
  rewrite split_app. simpl. set_solver.
Qed.

Lemma existsb_empty_segment (segments : list (list N)) :
  existsb (fun segment => Nat.eqb (length segment) 0) segments = true
  <-> [] ∈ segments.
Proof.
  rewrite existsb_exists. split.
  - intros [seg [Hin Hlen]]. apply Nat.eqb_eq in Hlen.
    destruct seg; [|discriminate]. now apply list_elem_of_In.
  - intros Hin. exists []. split; [now apply list_elem_of_In | reflexivity].
Qed.

End StringFacts.

(** ** The path sanitizer *)

Section Sanitizer.

Lemma normalize_segment_clean (allowAboveRoot : bool)
    (acc : list (list N)) (seg : list N) :
  clean_segment seg ->
  Posix.normalize_segment allowAboveRoot acc seg = seg :: acc.
Proof.
  intros (H1 & H2 & H3). unfold Posix.normalize_segment.
  now rewrite !bool_decide_eq_false_2.
Qed.

Lemma fold_normalize_clean (allowAboveRoot : bool) (segs acc : list (list N)) :
  Forall clean_segment segs ->
  fold_left (Posix.normalize_segment allowAboveRoot) segs acc = rev segs ++ acc.
Proof.
  intros H; revert acc; induction H as [|seg segs Hseg _ IH]; intros acc.
  - reflexivity.
  - simpl. rewrite normalize_segment_clean, IH by assumption.
    now rewrite <- app_assoc.
Qed.

(** [path.posix.normalize] leaves a non-empty relative path alone when
    none of its segments is empty, [.] or [..]. *)
Lemma normalize_clean (c : list N) :
  c <> [] ->
  Forall clean_segment (JsString.split Char.SLASH c) ->
  Posix.normalize c = c.
Proof.
  intros Hne Hclean.
  assert (Habs : Posix.isAbsolute c = false).
  { destruct c as [|a c]; [reflexivity|]. simpl.
    destruct (a =? Char.SLASH)%N eqn:E; [|reflexivity].
    simpl in Hclean. rewrite E in Hclean.
    apply Forall_cons_1 in Hclean as [[Hseg _] _]. now destruct Hseg. }
  assert (Htrail : JsString.endsWith c [Char.SLASH] = false).
  { destruct (JsString.endsWith c [Char.SLASH]) eqn:E; [|reflexivity].
    apply endsWith_sep_split in E.
    rewrite Forall_forall in Hclean. destruct (Hclean _ E) as [Hseg _].
    now destruct Hseg. }
  assert (Hbody : forall b, Posix.normalizeString c b = c).
  { intros b. unfold Posix.normalizeString.
    rewrite fold_normalize_clean by assumption.
    rewrite app_nil_r, rev_involutive. apply join_split. }
  unfold Posix.normalize. destruct c as [|a c]; [contradiction|].
  rewrite Hbody, Habs, Htrail. reflexivity.
Qed.

Lemma includes_char_decide (s : list N) (c : N) :
  JsString.includes s [c] = bool_decide (c ∈ s).
Proof.
  destruct (JsString.includes s [c]) eqn:E; symmetry.
  - apply bool_decide_eq_true_2, includes_char, E.
  - apply bool_decide_eq_false_2. rewrite <- includes_char. congruence.
Qed.

Lemma existsb_empty_segment_decide (segments : list (list N)) :
  existsb (fun segment => Nat.eqb (length segment) 0) segments
  = bool_decide ([] ∈ segments).
Proof.
  destruct (existsb _ segments) eqn:E; symmetry.
  - apply bool_decide_eq_true_2, existsb_empty_segment, E.
  - apply bool_decide_eq_false_2. rewrite <- existsb_empty_segment. congruence.
Qed.

Lemma sanitizer_refines (imagePath : list N) :
  assertSafeRelativeImagePath imagePath = sanitize imagePath.
Proof.
  unfold assertSafeRelativeImagePath, sanitize, assertNonEmptyTrimmed.
  destruct (JsString.trim imagePath) as [|a c] eqn:Etrim; [reflexivity|].
  set (cand := a :: c). cbn [bind rejection_rules List.find fst snd].
  rewrite (bool_decide_eq_false_2 (cand = [])) by discriminate.
  rewrite !includes_char_decide, existsb_empty_segment_decide.
  unfold JsString.eqb.
  rewrite <- (bool_decide_or ([Char.DOT] ∈ _) (Posix.dotdot ∈ _)).
  repeat match goal with
         | |- context [negb ?b] => destruct b; cbn [negb fst snd]; try reflexivity
         end.
Qed.

(** What an accepted candidate looks like. *)
Lemma sanitizer_accepted (imagePath r : list N) :
  assertSafeRelativeImagePath imagePath = Ok r ->
  let c := JsString.trim imagePath in
  c <> [] /\ Forall clean_segment (JsString.split Char.SLASH c)
  /\ r = Posix.normalize c.
Proof.
  rewrite sanitizer_refines. unfold sanitize.
  destruct (List.find _ rejection_rules) as [rule|] eqn:Efind; [discriminate|].
  intros [= <-]. cbn zeta.
  pose proof (find_none _ _ Efind) as Hnone.
  assert (Hrule : forall t e, In (t, e) rejection_rules ->
                              t (JsString.trim imagePath) = false).
  { intros t e Hin. exact (Hnone _ Hin). }
  unfold rejection_rules in Hrule.
  pose proof (Hrule _ _ (or_introl eq_refl)) as H1.
  pose proof (Hrule _ _ (or_intror (or_intror (or_intror (or_intror (or_intror
                (or_intror (or_introl eq_refl)))))))) as H7.
  pose proof (Hrule _ _ (or_intror (or_intror (or_intror (or_intror (or_intror
                (or_intror (or_intror (or_introl eq_refl))))))))) as H8.
  cbv beta in H1, H7, H8.
  apply bool_decide_eq_false_1 in H1, H7, H8.
  split; [exact H1|]. split; [|reflexivity].
  apply Forall_forall. intros seg Hseg. unfold clean_segment.
  repeat split; intros ->; tauto.
Qed.

Lemma sanitizer_trim (imagePath : list N) :
  assertSafeRelativeImagePath (JsString.trim imagePath)
  = assertSafeRelativeImagePath imagePath.
Proof.
  unfold assertSafeRelativeImagePath, assertNonEmptyTrimmed.
  now rewrite trim_idem.
Qed.

Lemma sanitizer_returns_trimmed (imagePath r : list N) :
  assertSafeRelativeImagePath imagePath = Ok r -> r = JsString.trim imagePath.
Proof.
  intros Hok.
  destruct (sanitizer_accepted _ _ Hok) as (Hne & Hclean & Hr).
  now rewrite (normalize_clean _ Hne Hclean) in Hr.
Qed.

End Sanitizer.

(** C3. The path sanitizer evaluates the nine rejection rules in the order
    of the specification and the first rule that matches decides: the code
    agrees on every input with [sanitize], the first-match search through
    [rejection_rules]. In particular a candidate whose trimmed form is not
    empty and has no null byte is rejected with [EncodedChars] as soon as
    it contains a percent character, whatever the later rules (backslash,
    absolute path, drive letter, segments, normalization) would say. *)
Theorem sanitizer_first_match_wins (imagePath : list N) :
  assertSafeRelativeImagePath imagePath = sanitize imagePath
  /\ (JsString.trim imagePath <> [] ->
      Char.NUL ∉ JsString.trim imagePath ->
      Char.PERCENT ∈ JsString.trim imagePath ->
      assertSafeRelativeImagePath imagePath = Throw EncodedChars).
Proof.
  split; [apply sanitizer_refines|].
  intros Hne Hnul Hpct. rewrite sanitizer_refines. unfold sanitize.
  cbn [rejection_rules List.find fst snd].
  rewrite (bool_decide_eq_false_2 _ Hne), (bool_decide_eq_false_2 _ Hnul),
    (bool_decide_eq_true_2 _ Hpct).
  reflexivity.
Qed.

(** Scenario B: the candidate [..%2fsecret] is rejected at the
    percent-character check. *)
Lemma sanitizer_first_match_wins_witness :
  JsString.trim (str "..%2fsecret") <> []
  /\ (Char.NUL ∉ JsString.trim (str "..%2fsecret"))
  /\ (Char.PERCENT ∈ JsString.trim (str "..%2fsecret"))
  /\ assertSafeRelativeImagePath (str "..%2fsecret") = Throw EncodedChars.
Proof.
  assert (H1 : JsString.trim (str "..%2fsecret") <> []) by (vm_compute; discriminate).
  assert (H2 : Char.NUL ∉ JsString.trim (str "..%2fsecret"))
    by decide_by_evaluation.
  assert (H3 : Char.PERCENT ∈ JsString.trim (str "..%2fsecret"))
    by decide_by_evaluation.
  split; [exact H1|]. split; [exact H2|]. split; [exact H3|].
  exact (proj2 (sanitizer_first_match_wins (str "..%2fsecret")) H1 H2 H3).
Defined.

(** C9. On the inputs it accepts the path sanitizer is the identity up to
    trimming: the returned path is the candidate without its leading and
    trailing white space, and the sanitizer accepts its own output and
    returns it unchanged. *)
Theorem sanitizer_identity_on_accepted (imagePath r : list N) :
  assertSafeRelativeImagePath imagePath = Ok r ->
  r = JsString.trim imagePath /\ assertSafeRelativeImagePath r = Ok r.
Proof.
  intros Hok.
  pose proof (sanitizer_returns_trimmed _ _ Hok) as Hr.
  split; [exact Hr|].
  rewrite Hr at 1. rewrite sanitizer_trim, Hok. reflexivity.
Qed.

Lemma sanitizer_identity_on_accepted_witness :
  assertSafeRelativeImagePath (str "  images/x0_y1.png ") = Ok (str "images/x0_y1.png")
  /\ str "images/x0_y1.png" = JsString.trim (str "  images/x0_y1.png ")
  /\ assertSafeRelativeImagePath (str "images/x0_y1.png") = Ok (str "images/x0_y1.png").
Proof.
  assert (H : assertSafeRelativeImagePath (str "  images/x0_y1.png ")
              = Ok (str "images/x0_y1.png")) by by_evaluation.
  split; [exact H|].
  exact (sanitizer_identity_on_accepted _ _ H).
Defined.

(** ** The root-scoped resolver *)

Section Resolver.
Variable P : Platform.

Lemma within_root_test (comparableRoot comparableTarget : list N) :
  negb (negb (JsString.eqb comparableTarget comparableRoot)
        && negb (JsString.startsWith comparableTarget
                   (rootWithSep P comparableRoot))) = true
  <-> within_root P comparableRoot comparableTarget.
Proof.
  unfold within_root, JsString.eqb.
  rewrite negb_true_iff, andb_false_iff, !negb_false_iff, bool_decide_eq_true.
  reflexivity.
Qed.

Lemma within_root_prefix (comparableRoot comparableTarget : list N) :
  within_root P comparableRoot comparableTarget ->
  JsString.startsWith comparableTarget comparableRoot = true.
Proof.
  intros [-> | H].
  - apply startsWith_prefix. exists []. now rewrite app_nil_r.
  - apply startsWith_prefix in H as [rest ->]. unfold rootWithSep.
    destruct (JsString.endsWith _ _); [|rewrite <- app_assoc];
      apply startsWith_app.
Qed.

Lemma resolvePathUnderRoot_unfold (root relPath safeRoot safeRelPath : list N) :
  assertNonEmptyTrimmed root "root" = Ok safeRoot ->
  assertSafeRelativeImagePath relPath = Ok safeRelPath ->
  let resolvedRoot := path_resolve P [safeRoot] in
  let resolvedTarget := path_resolve P [resolvedRoot; safeRelPath] in
  resolvePathUnderRoot P root relPath =
    if negb (negb (JsString.eqb (toComparablePath P resolvedTarget)
                                (toComparablePath P resolvedRoot))
             && negb (JsString.startsWith (toComparablePath P resolvedTarget)
                        (rootWithSep P (toComparablePath P resolvedRoot))))
    then Ok resolvedTarget else Throw RootEscape.
Proof.
  intros Hroot Hrel. unfold resolvePathUnderRoot. rewrite Hroot, Hrel.
  reflexivity.
Qed.

Lemma assertNonEmptyTrimmed_Ok (v : list N) (fieldName : string) (t : list N) :
  assertNonEmptyTrimmed v fieldName = Ok t <-> t = JsString.trim v /\ t <> [].
Proof.
  unfold assertNonEmptyTrimmed.
  destruct (JsString.trim v) as [|c s]; split.
  - discriminate.
  - intros [-> H]. contradiction.
  - intros [= <-]. split; [reflexivity | discriminate].
  - intros [-> _]. reflexivity.
Qed.

End Resolver.

(** C1, as the code has it. Whenever [resolvePathUnderRoot] returns a
    path, that path is the resolution of the trimmed candidate against the
    resolved root, and its comparable form either equals the root's
    comparable form or starts with the root's comparable form completed by
    the path separator, the separator being appended only when the root
    does not already end with it; in both cases the root's comparable form
    is a prefix of it. When the root is not blank and the candidate passes
    the sanitizer, every other outcome is rejected with [RootEscape]. *)
Theorem resolved_path_within_root (P : Platform) (root relPath : list N) :
  (forall target,
      resolvePathUnderRoot P root relPath = Ok target ->
      let resolvedRoot := path_resolve P [JsString.trim root] in
      target = path_resolve P [resolvedRoot; JsString.trim relPath]
      /\ within_root P (toComparablePath P resolvedRoot) (toComparablePath P target)
      /\ JsString.startsWith (toComparablePath P target)
                             (toComparablePath P resolvedRoot) = true)
  /\ (forall safeRoot safeRelPath,
      assertNonEmptyTrimmed root "root" = Ok safeRoot ->
      assertSafeRelativeImagePath relPath = Ok safeRelPath ->
      let resolvedRoot := path_resolve P [safeRoot] in
      let resolvedTarget := path_resolve P [resolvedRoot; safeRelPath] in
      ~ within_root P (toComparablePath P resolvedRoot)
                      (toComparablePath P resolvedTarget) ->
      resolvePathUnderRoot P root relPath = Throw RootEscape).
Proof.
  split.
  - intros target Hok.
    destruct (assertNonEmptyTrimmed root "root") as [safeRoot|e] eqn:Hroot;
      [|unfold resolvePathUnderRoot in Hok; rewrite Hroot in Hok; discriminate].
    destruct (assertSafeRelativeImagePath relPath) as [safeRelPath|e] eqn:Hrel;
      [|unfold resolvePathUnderRoot in Hok; rewrite Hroot, Hrel in Hok;
        discriminate].
    rewrite (resolvePathUnderRoot_unfold P _ _ _ _ Hroot Hrel) in Hok.
    apply assertNonEmptyTrimmed_Ok in Hroot as [-> _].
    apply sanitizer_returns_trimmed in Hrel. subst safeRelPath.
    cbv zeta in *.
    destruct (negb _) eqn:Htest in Hok; [|discriminate].
    injection Hok as <-. apply within_root_test in Htest.
    split; [reflexivity|]. split; [exact Htest|].
    now apply (within_root_prefix P).
  - intros safeRoot safeRelPath Hroot Hrel resolvedRoot resolvedTarget Hout.
    rewrite (resolvePathUnderRoot_unfold P _ _ _ _ Hroot Hrel).
    fold resolvedRoot. fold resolvedTarget.
    destruct (negb _) eqn:Htest; [|reflexivity].
    apply within_root_test in Htest. contradiction.
Qed.

Lemma resolved_path_within_root_witness :
  resolvePathUnderRoot plain_host (str "comfyui_api_outputs") (str " images/a.png")
  = Ok (str "/srv/app/comfyui_api_outputs/images/a.png")
  /\ JsString.startsWith
       (toComparablePath plain_host (str "/srv/app/comfyui_api_outputs/images/a.png"))
       (toComparablePath plain_host
          (path_resolve plain_host [JsString.trim (str "comfyui_api_outputs")]))
     = true.
Proof.
  assert (H : resolvePathUnderRoot plain_host (str "comfyui_api_outputs")
                (str " images/a.png")
              = Ok (str "/srv/app/comfyui_api_outputs/images/a.png"))
    by by_evaluation.
  split; [exact H|].
  exact (proj2 (proj2 (proj1 (resolved_path_within_root plain_host _ _) _ H))).
Defined.

(** C1, as stated, fails at the root [/]: [a] resolves to [/a], which is
    accepted although it neither equals [/] nor starts with [//]. *)
Lemma resolved_path_root_slash :
  resolvePathUnderRoot plain_host (str "/") (str "a") = Ok (str "/a")
  /\ ~ within_root_as_stated plain_host
        (toComparablePath plain_host (path_resolve plain_host [str "/"]))
        (toComparablePath plain_host (str "/a")).
Proof.
  split; [by_evaluation|].
  intros [H | H]; vm_compute in H; discriminate.
Qed.

(** ** The run allowlist *)

Section Allowlist.
Context {A B : Type}.

Lemma all_ok_Forall2 (f : A -> result B) (items : list A) (bs : list B) :
  all_ok f items = Ok bs -> Forall2 (fun a b => f a = Ok b) items bs.
Proof.
  revert bs; induction items as [|a items IH]; intros bs; simpl.
  - intros [= <-]. constructor.
  - destruct (f a) as [b|e] eqn:Ea; [|discriminate]. simpl.
    destruct (all_ok f items) as [bs'|e]; [|discriminate]. simpl.
    intros [= <-]. constructor; auto.
Qed.

Lemma sort_insert_elem (cmp : A -> A -> Z) (a x : A) (sorted : list A) :
  x ∈ sort_insert cmp a sorted <-> x = a \/ x ∈ sorted.
Proof.
  induction sorted as [|b rest IH]; simpl.
  - rewrite list_elem_of_singleton, elem_of_nil. tauto.
  - destruct (0 <? cmp a b)%Z; rewrite !elem_of_cons; [rewrite IH|]; tauto.
Qed.

(** Sorting keeps the elements. *)
Lemma sort_elem (cmp : A -> A -> Z) (x : A) (items : list A) :
  x ∈ sort cmp items <-> x ∈ items.
Proof.
  unfold sort. induction items as [|a items IH]; simpl; [reflexivity|].
  rewrite sort_insert_elem, IH, elem_of_cons. reflexivity.
Qed.

End Allowlist.

Section Discovery.
Variables (P : Platform) (D : Disk).

Lemma containsRunJson_true (runPath : list N) :
  containsRunJson P D runPath = Ok true <->
  exists file, stat D (path_join P [runPath; RUN_JSON_FILENAME]) = Ok file
               /\ isFile file = true.
Proof.
  unfold containsRunJson.
  destruct (stat D _) as [file|e]; split.
  - intros [= H]. eauto.
  - intros (file' & [= <-] & ->). reflexivity.
  - destruct (isENOENT e); discriminate.
  - intros (file & [=] & _).
Qed.

(** The names [discoverRunDirs] returns are the backed run directories. *)
Lemma discoverRunDirs_elem (outputsRoot : list N) (runDirs : list (list N)) :
  discoverRunDirs P D outputsRoot = Ok runDirs ->
  forall runDir, runDir ∈ runDirs <-> backed_run P D outputsRoot runDir.
Proof.
  unfold discoverRunDirs, backed_run.
  destruct (readdir D outputsRoot) as [entries|e] eqn:Edir.
  - destruct (all_ok _ _) as [found|e] eqn:Eall; [|discriminate].
    simpl. intros [= <-] runDir. rewrite sort_elem, list_elem_of_omap.
    apply all_ok_Forall2 in Eall. split.
    + intros (o & Ho & Hsome). simpl in Hsome. subst o.
      apply list_elem_of_lookup in Ho as [i Hi].
      destruct (Forall2_lookup_r _ _ _ _ _ Eall Hi) as (entry & Hentry & Hf).
      apply list_elem_of_lookup_2 in Hentry.
      apply list_elem_of_In, filter_In in Hentry as [Hin Hcand].
      apply andb_true_iff in Hcand as [Hisdir Hvalid].
      destruct (containsRunJson P D _) as [[|]|] eqn:Ec; simpl in Hf;
        try discriminate.
      injection Hf as Hname.
      apply containsRunJson_true in Ec as (file & Hstat & Hfile).
      exists entries, entry, file. rewrite <- Hname.
      repeat split; try assumption. now apply list_elem_of_In.
    + intros (entries' & entry & file & [= <-] & Hin & Hname & Hisdir
              & Hvalid & Hstat & Hfile).
      exists (Some runDir). split; [|reflexivity].
      assert (Hcand : entry ∈ List.filter
                (fun entry => isDirectory entry && isValidRunDir (name entry))
                entries).
      { apply list_elem_of_In, filter_In. split; [now apply list_elem_of_In|].
        now rewrite Hisdir, Hname, Hvalid. }
      apply list_elem_of_lookup in Hcand as [i Hi].
      destruct (Forall2_lookup_l _ _ _ _ _ Eall Hi) as (o & Ho & Hf).
      apply list_elem_of_lookup_2 in Ho.
      rewrite Hname in Hf.
      rewrite (proj2 (containsRunJson_true _)) in Hf by eauto.
      simpl in Hf. injection Hf as <-. exact Ho.
  - destruct (isENOENT e); [|discriminate].
    intros [= <-] runDir. split; [intros H; inversion H|].
    intros (entries & entry & file & [=] & _).
Qed.

End Discovery.

(** C2. With the allowlist taken from [discoverRunDirs], a caller-supplied
    run identifier is accepted exactly when its trimmed form is not empty,
    matches the run identifier pattern and is a member of the allowlist,
    and the value returned is that trimmed form. A name is in the allowlist
    exactly when the storage root has a directory of that name, the name
    matches the pattern, and [run.json] exists as a regular file directly
    inside it; so a directory that matches the pattern but has no
    descriptor, or whose descriptor is not a regular file, is left out. *)
Theorem run_allowlist (P : Platform) (D : Disk)
    (outputsRoot : list N) (runDirs : list (list N)) (runDir : list N) :
  discoverRunDirs P D outputsRoot = Ok runDirs ->
  (forall accepted,
      assertAllowedRunDir runDir (list_to_set runDirs) = Ok accepted <->
      accepted = JsString.trim runDir
      /\ accepted <> []
      /\ isValidRunDir accepted = true
      /\ accepted ∈ runDirs)
  /\ (runDir ∈ runDirs <-> backed_run P D outputsRoot runDir)
  /\ (forall e, stat D (path_join P [path_join P [outputsRoot; runDir];
                                    RUN_JSON_FILENAME]) = Throw e ->
                runDir ∉ runDirs)
  /\ (forall file, stat D (path_join P [path_join P [outputsRoot; runDir];
                                       RUN_JSON_FILENAME]) = Ok file ->
                   isFile file = false -> runDir ∉ runDirs).
Proof.
  intros Hdisc.
  pose proof (discoverRunDirs_elem P D _ _ Hdisc runDir) as Hbacked.
  split; [|split; [exact Hbacked|split]].
  - intros accepted. unfold assertAllowedRunDir, assertNonEmptyTrimmed.
    destruct (JsString.trim runDir) as [|c s] eqn:Etrim; simpl.
    + split; [discriminate | intros (-> & Hne & _); contradiction].
    + destruct (isValidRunDir (c :: s)) eqn:Evalid.
      * destruct (bool_decide _) eqn:Emem.
        -- apply bool_decide_eq_true in Emem. rewrite elem_of_list_to_set in Emem.
           split; [intros [= <-]; repeat split; auto; discriminate|].
           intros (-> & _). reflexivity.
        -- apply bool_decide_eq_false in Emem. rewrite elem_of_list_to_set in Emem.
           split; [discriminate | intros (-> & _ & _ & Hin); contradiction].
      * split; [discriminate | intros (-> & _ & Hv & _); congruence].
  - intros e Hstat Hin. apply Hbacked in Hin.
    destruct Hin as (_ & _ & file & _ & _ & _ & _ & _ & Hfile & _). congruence.
  - intros file Hstat Hnot Hin. apply Hbacked in Hin.
    destruct Hin as (_ & _ & file' & _ & _ & _ & _ & _ & Hfile & Htrue).
    congruence.
Qed.

Lemma run_allowlist_witness :
  discoverRunDirs Sample.host Sample.disk Sample.outputsRoot
  = Ok [Sample.run3; Sample.run1]
  /\ (Sample.run2 ∉ [Sample.run3; Sample.run1]).
Proof.
  assert (H : discoverRunDirs Sample.host Sample.disk Sample.outputsRoot
              = Ok [Sample.run3; Sample.run1]) by by_evaluation.
  split; [exact H|].
  destruct (run_allowlist _ _ _ _ Sample.run2 H) as (_ & _ & Habsent & _).
  apply (Habsent (Errno "ENOENT")). vm_compute. reflexivity.
Defined.

(** ** Listing the runs *)

Section Listing.
Variables (P : Platform) (D : Disk) (outputsRoot : list N).

Lemma summaries_loop (runDirs : list (list N)) (summaries : list RunSummary.t) :
  fold_left
    (fun summaries runDir =>
       match loadRunDetail P D runDir outputsRoot with
       | Ok runDetail => summaries ++ [summarize runDir runDetail]
       | Throw _ => summaries
       end)
    runDirs summaries
  = summaries ++ omap (summary_of P D outputsRoot) runDirs.
Proof.
  revert summaries; induction runDirs as [|runDir runDirs IH];
    intros summaries; simpl.
  - now rewrite app_nil_r.
  - rewrite IH. unfold summary_of at 2.
    destruct (loadRunDetail P D runDir outputsRoot); [|reflexivity].
    now rewrite <- app_assoc.
Qed.

(** X29. The three ways a descriptor fails to load. *)
Lemma loadRunDetail_fails (runDir : list N) :
  (exists e, loadRunDetail P D runDir outputsRoot = Throw e) <->
  (exists e, readFile D (path_join P [outputsRoot; runDir; RUN_JSON_FILENAME])
             = Throw e)
  \/ (exists raw,
        readFile D (path_join P [outputsRoot; runDir; RUN_JSON_FILENAME]) = Ok raw
        /\ (parseJsonObject P raw = None
            \/ exists record,
                parseJsonObject P raw = Some record
                /\ (falsy (toNullableString (get record (str "run_id"))) = true
                    \/ falsy (toNullableString (get record (str "created_at")))
                       = true))).
Proof.
  unfold loadRunDetail.
  destruct (readFile D _) as [raw|e]; simpl.
  - destruct (parseJsonObject P raw) as [record|] eqn:Eparse.
    + unfold normalizeRunDetail.
      destruct (falsy (toNullableString (get record (str "run_id")))) eqn:E1;
        [|destruct (falsy (toNullableString (get record (str "created_at"))))
            eqn:E2]; simpl.
      * split; [|intros _; eexists; reflexivity].
        intros _. right. exists raw. split; [reflexivity|].
        right. exists record. split; [exact Eparse|]. now left.
      * split; [|intros _; eexists; reflexivity].
        intros _. right. exists raw. split; [reflexivity|].
        right. exists record. split; [exact Eparse|]. now right.
      * split; [intros [e [=]]|].
        intros [[e [=]] | (raw' & [= <-] & [H | (record' & Hrec & H)])].
        -- congruence.
        -- assert (record' = record) as -> by congruence.
           rewrite E1, E2 in H. destruct H; discriminate.
    + split; [|intros _; eexists; reflexivity].
      intros _. right. exists raw. split; [reflexivity|]. left. exact Eparse.
  - split; [|intros _; eexists; reflexivity].
    intros _. left. eexists; reflexivity.
Qed.

End Listing.

(** C10. [listRunSummaries] tolerates broken runs. Once the run
    directories are discovered the listing succeeds, whatever loading the
    individual descriptors does: it holds, in discovery order, the summary
    of each run whose descriptor loads; a run whose descriptor fails to
    load for any reason (the file cannot be read, it is not a JSON object,
    or [run_id] or [created_at] is missing or empty) has no summary and
    takes nothing away from the others. *)
Theorem listing_tolerates_broken_runs (P : Platform) (D : Disk)
    (outputsRoot : list N) (runDirs : list (list N)) :
  discoverRunDirs P D outputsRoot = Ok runDirs ->
  exists summaries,
    listRunSummaries P D outputsRoot = Ok summaries
    /\ summaries = omap (summary_of P D outputsRoot) runDirs
    /\ (forall runDir runDetail,
          runDir ∈ runDirs ->
          loadRunDetail P D runDir outputsRoot = Ok runDetail ->
          summarize runDir runDetail ∈ summaries)
    /\ (forall runDir e,
          loadRunDetail P D runDir outputsRoot = Throw e ->
          forall summary, summary ∈ summaries ->
                          RunSummary.run_dir summary <> runDir).
Proof.
  intros Hdisc. eexists. split; [|split; [reflexivity|split]].
  - unfold listRunSummaries. rewrite Hdisc. simpl.
    now rewrite summaries_loop.
  - intros runDir runDetail Hin Hload. apply list_elem_of_omap.
    exists runDir. split; [exact Hin|]. unfold summary_of. now rewrite Hload.
  - intros runDir e Hload summary Hin Heq.
    apply list_elem_of_omap in Hin as (runDir' & _ & Hsum).
    unfold summary_of in Hsum.
    destruct (loadRunDetail P D runDir' outputsRoot) as [runDetail|] eqn:Hload';
      [|discriminate].
    injection Hsum as <-. simpl in Heq. congruence.
Qed.

Lemma listing_tolerates_broken_runs_witness :
  exists summaries,
    listRunSummaries Sample.host Sample.disk Sample.outputsRoot = Ok summaries
    /\ List.map RunSummary.run_dir summaries = [Sample.run1]
    /\ loadRunDetail Sample.host Sample.disk Sample.run3 Sample.outputsRoot
       = Throw (InvalidRunJson Sample.run3).
Proof.
  assert (H : discoverRunDirs Sample.host Sample.disk Sample.outputsRoot
              = Ok [Sample.run3; Sample.run1]) by by_evaluation.
  destruct (listing_tolerates_broken_runs _ _ _ _ H)
    as (summaries & Hlist & Heq & _).
  exists summaries. split; [exact Hlist|]. split.
  - rewrite Heq. vm_compute. reflexivity.
  - vm_compute. reflexivity.
Defined.

(** ** Cell keys *)

Section Keys.

Lemma str_cons (c : ascii) (s : string) : str (String c s) = N_of_ascii c :: str s.
Proof. reflexivity. Qed.

Lemma N_of_ascii_inj (a b : ascii) : N_of_ascii a = N_of_ascii b -> a = b.
Proof.
  intros H. rewrite <- (ascii_N_embedding a), <- (ascii_N_embedding b).
  now rewrite H.
Qed.

Lemma str_inj (a b : string) : str a = str b -> a = b.
Proof.
  revert b; induction a as [|c a IH]; intros [|d b]; try discriminate.
  - reflexivity.
  - rewrite !str_cons. intros [= Hc Hs].
    apply N_of_ascii_inj in Hc. apply IH in Hs. congruence.
Qed.

Lemma number_to_string_inj (m n : Z) :
  number_to_string m = number_to_string n -> m = n.
Proof.
  unfold number_to_string. intros H. apply str_inj in H.
  apply DecimalZ.to_int_inj.
  assert (Hs : Some (Z.to_int m) = Some (Z.to_int n))
    by (rewrite <- !NilEmpty.isi; now rewrite H).
  now injection Hs.
Qed.

Lemma uint_no_comma (d : Decimal.uint) :
  Char.COMMA ∉ str (NilEmpty.string_of_uint d).
Proof.
  induction d; simpl NilEmpty.string_of_uint; rewrite ?str_cons;
    try (apply not_elem_of_cons; split; [discriminate | assumption]).
  apply not_elem_of_nil.
Qed.

Lemma number_to_string_no_comma (n : Z) : Char.COMMA ∉ number_to_string n.
Proof.
  unfold number_to_string. destruct (Z.to_int n) as [d|d]; simpl.
  - apply uint_no_comma.
  - rewrite str_cons. apply not_elem_of_cons. split; [discriminate|].
    apply uint_no_comma.
Qed.

Lemma app_separator_inj (sep : N) (a b a' b' : list N) :
  sep ∉ a -> sep ∉ a' -> a ++ sep :: b = a' ++ sep :: b' -> a = a' /\ b = b'.
Proof.
  revert a'; induction a as [|c a IH]; intros [|c' a'] Ha Ha'; simpl.
  - intros [= <-]. auto.
  - intros [= <- _]. exfalso. apply Ha'. left.
  - intros [= -> _]. exfalso. apply Ha. left.
  - intros [= <- Hrest].
    apply not_elem_of_cons in Ha as [_ Ha], Ha' as [_ Ha'].
    destruct (IH a' Ha Ha' Hrest) as [-> ->]. auto.
Qed.

(** Two coordinates have the same key only when they are equal. *)
Lemma toCellKey_inj (x y x' y' : Z) :
  toCellKey x y = toCellKey x' y' -> x = x' /\ y = y'.
Proof.
  unfold toCellKey. intros H.
  apply app_separator_inj in H as [Hx Hy];
    auto using number_to_string_no_comma, number_to_string_inj.
Qed.

End Keys.

(** ** Insertion-ordered dictionaries *)

Section DictFacts.
Context {V : Type}.
Implicit Types (m : list (list N * V)) (k : list N) (v : V).

Lemma get_set m k v k' :
  Dict.get (Dict.set m k v) k' = if bool_decide (k = k') then Some v else Dict.get m k'.
Proof.
  induction m as [|[k0 v0] m IH]; simpl.
  - reflexivity.
  - destruct (bool_decide_reflect (k0 = k)) as [->|Hne]; simpl.
    + destruct (bool_decide (k = k')); reflexivity.
    + rewrite IH.
      destruct (bool_decide_reflect (k0 = k')) as [->|Hne'];
        [rewrite bool_decide_eq_false_2 by congruence|]; reflexivity.
Qed.

Lemma get_Some_keys m k v : Dict.get m k = Some v -> k ∈ Dict.keys m.
Proof.
  induction m as [|[k0 v0] m IH]; simpl; [discriminate|].
  destruct (bool_decide_reflect (k0 = k)) as [->|Hne].
  - intros _. left.
  - intros H. right. auto.
Qed.

Lemma get_None_keys m k : Dict.get m k = None <-> k ∉ Dict.keys m.
Proof.
  induction m as [|[k0 v0] m IH]; simpl.
  - split; [intros _; apply not_elem_of_nil | reflexivity].
  - rewrite not_elem_of_cons.
    destruct (bool_decide_reflect (k0 = k)) as [->|Hne].
    + split; [discriminate | intros [H _]; contradiction].
    + rewrite IH. split; [intros H; split; [congruence | exact H] | tauto].
Qed.

Lemma set_fresh m k v : k ∉ Dict.keys m -> Dict.set m k v = m ++ [(k, v)].
Proof.
  induction m as [|[k0 v0] m IH]; simpl; [reflexivity|].
  rewrite not_elem_of_cons. intros [Hne Hnotin].
  rewrite bool_decide_eq_false_2 by congruence. now rewrite IH.
Qed.

Lemma keys_set_present m k v :
  k ∈ Dict.keys m -> Dict.keys (Dict.set m k v) = Dict.keys m.
Proof.
  induction m as [|[k0 v0] m IH]; simpl.
  - intros H; inversion H.
  - destruct (bool_decide_reflect (k0 = k)) as [->|Hne]; [reflexivity|].
    rewrite elem_of_cons. intros [Heq | Hin]; [congruence|].
    simpl. now rewrite IH.
Qed.

Lemma keys_set m k v :
  Dict.keys (Dict.set m k v)
  = if bool_decide (k ∈ Dict.keys m) then Dict.keys m else Dict.keys m ++ [k].
Proof.
  destruct (bool_decide_reflect (k ∈ Dict.keys m)) as [Hin|Hnotin].
  - now apply keys_set_present.
  - rewrite set_fresh by assumption. unfold Dict.keys.
    now rewrite map_app.
Qed.

Lemma keys_set_NoDup m k v : NoDup (Dict.keys m) -> NoDup (Dict.keys (Dict.set m k v)).
Proof.
  intros Hnd. rewrite keys_set.
  destruct (bool_decide_reflect (k ∈ Dict.keys m)) as [Hin|Hnotin]; [exact Hnd|].
  apply NoDup_app. split; [exact Hnd|]. split.
  - intros x Hx Hx'. apply list_elem_of_singleton in Hx'. congruence.
  - apply NoDup_singleton.
Qed.

End DictFacts.

(** ** The event log *)

Section EventLog.
Variable P : Platform.

Lemma ingest_line_parse (cells : list (list N * GridCell.t)) (line : list N) :
  ingest_line P cells line =
    match parse_line P line with
    | Some cell =>
        Dict.set cells (toCellKey (GridCell.x_index cell) (GridCell.y_index cell))
                 cell
    | None => cells
    end.
Proof.
  unfold ingest_line, parse_line.
  destruct (JsString.trim line) as [|c s]; [reflexivity|].
  destruct (parseJsonObject P (c :: s)) as [parsed|]; [|reflexivity].
  simpl. destruct (normalizeGridCell parsed); reflexivity.
Qed.

(** Lines about other coordinates leave the record at a key alone. *)
Lemma ingest_others (x y : Z) (lines : list (list N))
    (cells : list (list N * GridCell.t)) :
  (forall line cell, line ∈ lines -> parse_line P line = Some cell ->
                     coordinate cell <> (x, y)) ->
  Dict.get (fold_left (ingest_line P) lines cells) (toCellKey x y)
  = Dict.get cells (toCellKey x y).
Proof.
  revert cells; induction lines as [|line lines IH]; intros cells Hother;
    simpl; [reflexivity|].
  rewrite IH by (intros l c Hin; apply Hother; now right).
  rewrite ingest_line_parse.
  destruct (parse_line P line) as [cell|] eqn:Eline; [|reflexivity].
  rewrite get_set, bool_decide_eq_false_2; [reflexivity|]. intros Hkey.
  apply toCellKey_inj in Hkey as [Hx Hy].
  apply (Hother line cell); [left | exact Eline |].
  unfold coordinate. congruence.
Qed.

Lemma ingest_last (earlier later : list (list N)) (line : list N)
    (cell : GridCell.t) :
  parse_line P line = Some cell ->
  (forall line' cell', line' ∈ later -> parse_line P line' = Some cell' ->
                       coordinate cell' <> coordinate cell) ->
  Dict.get (fold_left (ingest_line P) (earlier ++ line :: later) [])
           (toCellKey (GridCell.x_index cell) (GridCell.y_index cell))
  = Some cell.
Proof.
  intros Hline Hlater. rewrite fold_left_app. simpl.
  rewrite ingest_others by exact Hlater.
  rewrite ingest_line_parse, Hline, get_set.
  now rewrite bool_decide_eq_true_2.
Qed.

End EventLog.

(** C5. Last write wins. When the log is read, the record stored at a
    coordinate is the one parsed from the last line of the file that yields
    that coordinate: it replaces whatever earlier lines stored there, in
    particular an earlier line with the same coordinate and another
    status. *)
Theorem last_write_wins (P : Platform) (D : Disk) (runDir outputsRoot : list N)
    (raw : list N) (earlier later : list (list N)) (line : list N)
    (cell : GridCell.t) :
  readFile D (path_join P [outputsRoot; runDir; METADATA_JSONL_FILENAME]) = Ok raw ->
  JsString.split_lines raw = earlier ++ line :: later ->
  parse_line P line = Some cell ->
  (forall line' cell', line' ∈ later -> parse_line P line' = Some cell' ->
                       coordinate cell' <> coordinate cell) ->
  exists cells,
    parseMetadataJsonl P D runDir outputsRoot = Ok cells
    /\ Dict.get cells (toCellKey (GridCell.x_index cell) (GridCell.y_index cell))
       = Some cell.
Proof.
  intros Hread Hlines Hline Hlater. unfold parseMetadataJsonl.
  rewrite Hread, Hlines. eexists. split; [reflexivity|].
  now apply ingest_last.
Qed.

(** In the sample log the cell (0,1) is first recorded as failed and later
    as success: the later record is the one stored. *)
Lemma last_write_wins_witness :
  coordinate <$> parse_line Sample.host Sample.line_a = Some (0, 1)%Z
  /\ GridCell.status <$> parse_line Sample.host Sample.line_a = Some failed
  /\ exists cells cell,
    parseMetadataJsonl Sample.host Sample.disk Sample.run1 Sample.outputsRoot
    = Ok cells
    /\ parse_line Sample.host Sample.line_d = Some cell
    /\ Dict.get cells (toCellKey 0 1) = Some cell
    /\ GridCell.status cell = success.
Proof.
  split; [by_evaluation|]. split; [by_evaluation|].
  destruct (parse_line Sample.host Sample.line_d) as [cell|] eqn:Ecell;
    [|vm_compute in Ecell; discriminate].
  assert (Hcoord : coordinate cell = (0, 1)%Z /\ GridCell.status cell = success).
  { vm_compute in Ecell. injection Ecell as <-. split; reflexivity. }
  destruct Hcoord as [Hcoord Hstatus].
  destruct (last_write_wins Sample.host Sample.disk Sample.run1 Sample.outputsRoot
              Sample.metadata_jsonl
              [Sample.line_a; Sample.line_b; Sample.line_c] [[]]
              Sample.line_d cell) as (cells & Hcells & Hget).
  - vm_compute. reflexivity.
  - vm_compute. reflexivity.
  - exact Ecell.
  - intros line' cell' Hin Hparse. apply list_elem_of_singleton in Hin. subst line'.
    vm_compute in Hparse. discriminate.
  - exists cells, cell. split; [exact Hcells|]. split; [reflexivity|].
    injection Hcoord as Hx Hy. rewrite Hx, Hy in Hget. auto.
Defined.

(** ** Cell status *)

Section Status.

Lemma parseCellStatus_name (s : CellStatus) :
  parseCellStatus (CellStatus_name s) = Some s.
Proof. destruct s; vm_compute; reflexivity. Qed.

Lemma parseCellStatus_Some (text : list N) (s : CellStatus) :
  parseCellStatus text = Some s -> text = CellStatus_name s.
Proof.
  unfold parseCellStatus. intros H. apply find_some in H as [_ H].
  unfold JsString.eqb in H. apply bool_decide_eq_true in H. now symmetry.
Qed.

Lemma normalizeCellStatus_missing (v : value) :
  normalizeCellStatus v = missing <-> v = VString (str "missing").
Proof.
  split.
  - destruct v; simpl; try discriminate.
    destruct (parseCellStatus s) as [status|] eqn:E; simpl; [|discriminate].
    intros ->. apply parseCellStatus_Some in E. now rewrite E.
  - intros ->. vm_compute. reflexivity.
Qed.

End Status.

(** C6, as the code has it. A record read from a log line has status
    [missing] exactly when the line's status field is the string
    [missing], which [isCellStatus] accepts like the other three names;
    in every other case the status is [success], [failed] or [skipped],
    and a status field that is absent, not a string, or not one of the
    four names gives [failed]. *)
Theorem parsed_status (record : list (list N * value)) (cell : GridCell.t) :
  normalizeGridCell record = Some cell ->
  (GridCell.status cell = missing <->
   get record (str "status") = VString (str "missing"))
  /\ (get record (str "status") <> VString (str "missing") ->
      attempted (GridCell.status cell))
  /\ ((forall s, get record (str "status") = VString s -> isCellStatus s = false) ->
      GridCell.status cell = failed).
Proof.
  unfold normalizeGridCell.
  destruct (toNullableInteger _) as [xIndex|]; [|discriminate].
  destruct (toNullableInteger _) as [yIndex|]; [|discriminate].
  intros [= <-]. cbn [GridCell.status].
  split; [apply normalizeCellStatus_missing|]. split.
  - intros Hnot. rewrite <- normalizeCellStatus_missing in Hnot. unfold attempted.
    destruct (normalizeCellStatus _); tauto.
  - intros Hbad. destruct (get record (str "status")) as [| | | |s| |];
      try reflexivity.
    specialize (Hbad s eq_refl). unfold isCellStatus in Hbad. simpl.
    apply bool_decide_eq_false in Hbad.
    destruct (parseCellStatus s); [|reflexivity].
    exfalso. apply Hbad. eauto.
Qed.

(** Scenario D: a line with status [bogus] gives a [failed] record. *)
Lemma parsed_status_witness :
  exists cell,
    normalizeGridCell [(str "x_index", json_int 0); (str "y_index", json_int 0);
                       (str "status", VString (str "bogus"))] = Some cell
    /\ GridCell.status cell = failed.
Proof.
  eexists. split; [by_evaluation|].
  refine (proj2 (proj2 (parsed_status
    [(str "x_index", json_int 0); (str "y_index", json_int 0);
     (str "status", VString (str "bogus"))] _ _)) _).
  - vm_compute. reflexivity.
  - intros s Hs. vm_compute in Hs. injection Hs as <-. vm_compute. reflexivity.
Defined.

(** C6, as stated, fails on a line whose status field is the string
    [missing]: the record read from it has status [missing]. *)
Lemma parsed_status_missing :
  exists cell,
    parse_line Sample.host Sample.line_m = Some cell
    /\ GridCell.status cell = missing
    /\ ~ attempted (GridCell.status cell).
Proof.
  eexists. split; [by_evaluation|]. split; [reflexivity|].
  cbn [GridCell.status]. intros [H | [H | H]]; discriminate.
Qed.

(** ** The Selection record *)

(** C8, as the code has it. The normalized counts are the explicit counts
    of the record whenever those are integers, also when they disagree with
    the lengths of the index lists; the lengths of the normalized lists
    (and their product) are used only for a count that is absent or not an
    integer. *)
Theorem selection_counts (v : value) :
  let selection := normalizeSelection v in
  let m := Z.of_nat (length (Selection.x_indexes selection)) in
  let n := Z.of_nat (length (Selection.y_indexes selection)) in
  (forall c, explicit_count v "x_count" = Some c -> Selection.x_count selection = c)
  /\ (explicit_count v "x_count" = None -> Selection.x_count selection = m)
  /\ (forall c, explicit_count v "y_count" = Some c -> Selection.y_count selection = c)
  /\ (explicit_count v "y_count" = None -> Selection.y_count selection = n)
  /\ (forall c, explicit_count v "total_cells" = Some c ->
                Selection.total_cells selection = c)
  /\ (explicit_count v "total_cells" = None ->
      Selection.total_cells selection = (m * n)%Z).
Proof.
  unfold explicit_count, normalizeSelection. cbn zeta.
  cbn [Selection.x_count Selection.y_count Selection.total_cells
       Selection.x_indexes Selection.y_indexes].
  repeat split; intros; match goal with H : _ = _ |- _ => rewrite H end;
    reflexivity.
Qed.

Lemma selection_counts_witness :
  explicit_count (VObject [(str "x_indexes", VArray [json_int 3; json_int 5])]) "x_count" = None
  /\ Selection.x_count
       (normalizeSelection (VObject [(str "x_indexes", VArray [json_int 3; json_int 5])]))
     = 2%Z.
Proof.
  assert (H : explicit_count (VObject [(str "x_indexes", VArray [json_int 3; json_int 5])])
                "x_count" = None) by by_evaluation.
  split; [exact H|].
  exact (proj1 (proj2 (selection_counts _)) H).
Defined.

(** C8, as stated, fails when an explicit count disagrees with its list:
    the explicit [x_count] 5 is kept beside a list of one index. *)
Lemma selection_count_kept :
  let selection :=
    normalizeSelection
      (VObject [(str "x_indexes", VArray [json_int 0]); (str "x_count", json_int 5)]) in
  Selection.x_indexes selection = [0%Z]
  /\ Selection.x_count selection = 5%Z
  /\ Selection.x_count selection
     <> Z.of_nat (length (Selection.x_indexes selection)).
Proof. vm_compute. repeat split; discriminate. Qed.

(** ** The grid *)

Section Grid.
Variable cells : list (list N * GridCell.t).

Lemma inner_loop (xIndexes : list Z) (yIndex : Z)
    (gridCells : list (list N * GridCell.t)) :
  fold_left
    (fun gridCells xIndex =>
       let key := toCellKey xIndex yIndex in
       Dict.set gridCells key
         (default (createMissingCell xIndex yIndex) (Dict.get cells key)))
    xIndexes gridCells
  = fold_left (place cells) (List.map (fun xIndex => (xIndex, yIndex)) xIndexes)
              gridCells.
Proof.
  revert gridCells; induction xIndexes as [|x xs IH]; intros g; simpl;
    [reflexivity | apply IH].
Qed.

Lemma outer_loop (xIndexes yIndexes : list Z)
    (gridCells : list (list N * GridCell.t)) :
  fold_left
    (fun gridCells yIndex =>
       fold_left
         (fun gridCells xIndex =>
            let key := toCellKey xIndex yIndex in
            Dict.set gridCells key
              (default (createMissingCell xIndex yIndex) (Dict.get cells key)))
         xIndexes gridCells)
    yIndexes gridCells
  = fold_left (place cells) (coordinates xIndexes yIndexes) gridCells.
Proof.
  revert gridCells; induction yIndexes as [|y ys IH]; intros g; simpl;
    [reflexivity|].
  now rewrite fold_left_app, IH, inner_loop.
Qed.

Lemma place_stable (coords : list (Z * Z)) (g : list (list N * GridCell.t))
    (x y : Z) :
  Dict.get g (toCellKey x y) = Some (cell_at cells x y) ->
  Dict.get (fold_left (place cells) coords g) (toCellKey x y)
  = Some (cell_at cells x y).
Proof.
  revert g; induction coords as [|[x' y'] coords IH]; intros g Hg; simpl;
    [exact Hg|].
  apply IH. unfold place. cbn [fst snd]. rewrite get_set.
  destruct (bool_decide_reflect (toCellKey x' y' = toCellKey x y)) as [Hk|_];
    [|exact Hg].
  apply toCellKey_inj in Hk as [-> ->]. reflexivity.
Qed.

Lemma place_get (coords : list (Z * Z)) (g : list (list N * GridCell.t))
    (x y : Z) :
  (x, y) ∈ coords ->
  Dict.get (fold_left (place cells) coords g) (toCellKey x y)
  = Some (cell_at cells x y).
Proof.
  revert g; induction coords as [|[x' y'] coords IH]; intros g Hin; simpl.
  - inversion Hin.
  - apply elem_of_cons in Hin as [[= <- <-] | Hin]; [|now apply IH].
    apply place_stable. unfold place. cbn [fst snd]. rewrite get_set.
    now rewrite bool_decide_eq_true_2.
Qed.

Lemma place_NoDup (coords : list (Z * Z)) (g : list (list N * GridCell.t)) :
  NoDup (Dict.keys g) -> NoDup (Dict.keys (fold_left (place cells) coords g)).
Proof.
  revert g; induction coords as [|[x y] coords IH]; intros g Hg; simpl;
    [exact Hg|].
  apply IH. unfold place. now apply keys_set_NoDup.
Qed.

Lemma place_keys (coords : list (Z * Z)) (g : list (list N * GridCell.t))
    (k : list N) :
  k ∈ Dict.keys (fold_left (place cells) coords g) <->
  k ∈ Dict.keys g \/ exists x y, (x, y) ∈ coords /\ k = toCellKey x y.
Proof.
  revert g; induction coords as [|[x y] coords IH]; intros g; simpl.
  - split; [now left|]. intros [H | (x & y & H & _)]; [exact H | inversion H].
  - rewrite IH. unfold place. cbn [fst snd]. rewrite keys_set.
    destruct (bool_decide_reflect (toCellKey x y ∈ Dict.keys g)) as [Hin|Hnotin].
    + split.
      * intros [H | (x' & y' & H & ->)]; [now left|].
        right. exists x', y'. split; [now right | reflexivity].
      * intros [H | (x' & y' & H & ->)]; [now left|].
        apply elem_of_cons in H as [[= -> ->] | H]; [now left|].
        right. eauto.
    + rewrite elem_of_app, list_elem_of_singleton. split.
      * intros [[H | ->] | (x' & y' & H & ->)].
        -- now left.
        -- right. exists x, y. split; [left | reflexivity].
        -- right. exists x', y'. split; [now right | reflexivity].
      * intros [H | (x' & y' & H & ->)]; [now left; left|].
        apply elem_of_cons in H as [[= -> ->] | H]; [left; now right|].
        right. eauto.
Qed.

End Grid.

Section Coordinates.

Lemma elem_of_coordinates (xIndexes yIndexes : list Z) (x y : Z) :
  (x, y) ∈ coordinates xIndexes yIndexes <-> x ∈ xIndexes /\ y ∈ yIndexes.
Proof.
  unfold coordinates. rewrite list_elem_of_In, in_flat_map. split.
  - intros (y' & Hy & Hx). apply in_map_iff in Hx as (x' & [= -> ->] & Hx).
    now rewrite !list_elem_of_In.
  - rewrite !list_elem_of_In. intros [Hx Hy]. exists y. split; [exact Hy|].
    apply in_map_iff. eauto.
Qed.

Lemma length_coordinates (xIndexes yIndexes : list Z) :
  length (coordinates xIndexes yIndexes) = length xIndexes * length yIndexes.
Proof.
  unfold coordinates. induction yIndexes as [|y ys IH]; simpl; [lia|].
  rewrite length_app, length_map, IH. lia.
Qed.

Lemma NoDup_coordinates (xIndexes yIndexes : list Z) :
  NoDup xIndexes -> NoDup yIndexes -> NoDup (coordinates xIndexes yIndexes).
Proof.
  intros Hx Hy. induction Hy as [|y ys Hnotin Hys IH]; simpl; [constructor|].
  apply NoDup_app. split; [|split; [|exact IH]].
  - assert (Hinj : Inj (=) (=) (fun x : Z => (x, y)))
      by (intros a b [= ->]; reflexivity).
    exact (NoDup_fmap_2 _ _ Hx).
  - intros [x' y'] Hin Hin'.
    apply list_elem_of_fmap in Hin as (x'' & [= -> ->] & _).
    apply (elem_of_coordinates xIndexes ys) in Hin' as [_ Hin']. contradiction.
Qed.

Lemma remove_dups_NoDup (l : list Z) : NoDup l -> remove_dups l = l.
Proof.
  induction 1 as [|x l Hnotin _ IH]; simpl; [reflexivity|].
  destruct (decide_rel elem_of x l); [contradiction | now rewrite IH].
Qed.

Lemma key_of_inj : Inj (=) (=) (fun xy : Z * Z => toCellKey xy.1 xy.2).
Proof.
  intros [x y] [x' y'] H. simpl in H. apply toCellKey_inj in H as [-> ->].
  reflexivity.
Qed.

(** The distinct coordinates are the pairs of a distinct X index and a
    distinct Y index. *)
Lemma distinct_coordinates (xIndexes yIndexes : list Z) :
  length (remove_dups (coordinates xIndexes yIndexes))
  = length (remove_dups xIndexes) * length (remove_dups yIndexes).
Proof.
  rewrite <- length_coordinates. apply Permutation_length, NoDup_Permutation.
  - apply NoDup_remove_dups.
  - apply NoDup_coordinates; apply NoDup_remove_dups.
  - intros [x y].
    rewrite elem_of_remove_dups, !elem_of_coordinates, !elem_of_remove_dups.
    reflexivity.
Qed.

End Coordinates.

Section GridCells.
Variables (runDetail : RunDetail.t) (cells : list (list N * GridCell.t)).

Lemma buildGridIndex_cells :
  GridIndex.cells (buildGridIndex runDetail cells)
  = fold_left (place cells)
      (coordinates (Selection.x_indexes (RunDetail.selection runDetail))
                   (Selection.y_indexes (RunDetail.selection runDetail))) [].
Proof.
  unfold buildGridIndex.
  destruct (fold_left note_first (Dict.values cells) (∅, ∅)) as [firstByX firstByY].
  cbn [GridIndex.cells]. apply outer_loop.
Qed.

Lemma buildGridIndex_counts :
  GridIndex.x_count (buildGridIndex runDetail cells)
  = length (Selection.x_indexes (RunDetail.selection runDetail))
  /\ GridIndex.y_count (buildGridIndex runDetail cells)
     = length (Selection.y_indexes (RunDetail.selection runDetail)).
Proof.
  unfold buildGridIndex.
  destruct (fold_left note_first (Dict.values cells) (∅, ∅)) as [firstByX firstByY].
  split; reflexivity.
Qed.

(** One entry for each distinct declared coordinate. *)
Lemma buildGridIndex_size :
  length (GridIndex.cells (buildGridIndex runDetail cells))
  = length (remove_dups (Selection.x_indexes (RunDetail.selection runDetail)))
    * length (remove_dups (Selection.y_indexes (RunDetail.selection runDetail))).
Proof.
  rewrite <- distinct_coordinates, buildGridIndex_cells.
  set (coords := coordinates _ _).
  set (grid := fold_left (place cells) coords []).
  transitivity (length (Dict.keys grid)); [unfold Dict.keys; now rewrite length_map|].
  transitivity (length ((fun xy : Z * Z => toCellKey xy.1 xy.2)
                          <$> remove_dups coords));
    [|now rewrite length_fmap].
  apply Permutation_length, NoDup_Permutation.
  - apply place_NoDup. constructor.
  - pose proof key_of_inj as Hinj.
    exact (NoDup_fmap_2 _ _ (NoDup_remove_dups coords)).
  - intros k. unfold grid. rewrite place_keys, list_elem_of_fmap. split.
    + intros [H | (x & y & Hin & ->)]; [inversion H|].
      exists (x, y). split; [reflexivity | now apply elem_of_remove_dups].
    + intros ([x y] & -> & Hin). right. exists x, y.
      split; [now apply elem_of_remove_dups | reflexivity].
Qed.

End GridCells.

(** C4, as the code has it. The grid [buildGridIndex] returns declares the
    lengths of the two index lists as its counts, and whatever the log
    holds: every coordinate of the cross product of the declared lists has
    an entry in the cell map, the record of the log or a synthesized
    [missing] record; no key occurs twice and every key is the key of a
    declared coordinate. The map has one entry for each distinct
    coordinate, that is (distinct X indexes) times (distinct Y indexes)
    entries, which is [x_count * y_count] when no declared list repeats an
    index. *)
Theorem grid_is_complete (runDetail : RunDetail.t)
    (cells : list (list N * GridCell.t)) :
  let grid := buildGridIndex runDetail cells in
  let xIndexes := Selection.x_indexes (RunDetail.selection runDetail) in
  let yIndexes := Selection.y_indexes (RunDetail.selection runDetail) in
  GridIndex.x_count grid = length xIndexes
  /\ GridIndex.y_count grid = length yIndexes
  /\ (forall x y, x ∈ xIndexes -> y ∈ yIndexes ->
        Dict.get (GridIndex.cells grid) (toCellKey x y) = Some (cell_at cells x y))
  /\ NoDup (Dict.keys (GridIndex.cells grid))
  /\ (forall key, key ∈ Dict.keys (GridIndex.cells grid) ->
        exists x y, x ∈ xIndexes /\ y ∈ yIndexes /\ key = toCellKey x y)
  /\ length (GridIndex.cells grid)
     = length (remove_dups xIndexes) * length (remove_dups yIndexes)
  /\ (NoDup xIndexes -> NoDup yIndexes ->
      length (GridIndex.cells grid) = GridIndex.x_count grid * GridIndex.y_count grid).
Proof.
  cbn zeta.
  destruct (buildGridIndex_counts runDetail cells) as [Hx Hy].
  split; [exact Hx|]. split; [exact Hy|]. split; [|split; [|split; [|split]]].
  - intros x y Hinx Hiny. rewrite buildGridIndex_cells.
    apply place_get, elem_of_coordinates. auto.
  - rewrite buildGridIndex_cells. apply place_NoDup. constructor.
  - intros key. rewrite buildGridIndex_cells, place_keys.
    intros [H | (x & y & Hin & ->)]; [inversion H|].
    apply elem_of_coordinates in Hin as [Hinx Hiny]. eauto.
  - apply buildGridIndex_size.
  - intros Hndx Hndy.
    rewrite buildGridIndex_size, Hx, Hy, !remove_dups_NoDup by assumption.
    reflexivity.
Qed.

Lemma grid_is_complete_witness :
  exists runDetail grid,
    loadRunGridIndex Sample.host Sample.disk Sample.run1 Sample.outputsRoot
    = Ok (runDetail, grid)
    /\ GridIndex.x_count grid = 2
    /\ GridIndex.y_count grid = 2
    /\ length (GridIndex.cells grid) = 4.
Proof.
  destruct (loadRunDetail Sample.host Sample.disk Sample.run1 Sample.outputsRoot)
    as [runDetail|] eqn:Edetail; [|vm_compute in Edetail; discriminate].
  destruct (parseMetadataJsonl Sample.host Sample.disk Sample.run1
              Sample.outputsRoot) as [cells|] eqn:Ecells;
    [|vm_compute in Ecells; discriminate].
  exists runDetail, (buildGridIndex runDetail cells).
  split; [unfold loadRunGridIndex; now rewrite Edetail, Ecells|].
  assert (Hsel : Selection.x_indexes (RunDetail.selection runDetail) = [0; 1]%Z
                 /\ Selection.y_indexes (RunDetail.selection runDetail) = [0; 1]%Z).
  { vm_compute in Edetail. injection Edetail as <-. split; reflexivity. }
  destruct Hsel as [Hxs Hys].
  destruct (grid_is_complete runDetail cells) as (Hx & Hy & _ & _ & _ & _ & Hrect).
  assert (Hndx : NoDup (Selection.x_indexes (RunDetail.selection runDetail)))
    by (rewrite Hxs; decide_by_evaluation).
  assert (Hndy : NoDup (Selection.y_indexes (RunDetail.selection runDetail)))
    by (rewrite Hys; decide_by_evaluation).
  rewrite (Hrect Hndx Hndy), Hx, Hy, Hxs, Hys.
  repeat split; reflexivity.
Defined.

(** C4, as stated, fails for a descriptor that declares an index twice:
    with X indexes 0, 0 and Y index 0 the counts are 2 and 1 and the cell
    map has one entry. *)
Lemma grid_repeated_index :
  exists runDetail,
    normalizeRunDetail Sample.repeated_object (str "run-20260220T000000Z")
    = Ok runDetail
    /\ GridIndex.x_count (buildGridIndex runDetail []) = 2
    /\ GridIndex.y_count (buildGridIndex runDetail []) = 1
    /\ length (GridIndex.cells (buildGridIndex runDetail [])) = 1
    /\ length (GridIndex.cells (buildGridIndex runDetail []))
       <> GridIndex.x_count (buildGridIndex runDetail [])
          * GridIndex.y_count (buildGridIndex runDetail []).
Proof.
  eexists. split; [by_evaluation|].
  vm_compute. repeat split; discriminate.
Qed.

(** ** Labels *)

Section Labels.

Lemma note_first_lookup (values : list GridCell.t)
    (firstByX firstByY : gmap Z GridCell.t) (i : Z) :
  (fold_left note_first values (firstByX, firstByY)).1 !! i
  = match firstByX !! i with
    | Some cell => Some cell
    | None => List.find (fun cell => bool_decide (GridCell.x_index cell = i)) values
    end
  /\ (fold_left note_first values (firstByX, firstByY)).2 !! i
     = match firstByY !! i with
       | Some cell => Some cell
       | None => List.find (fun cell => bool_decide (GridCell.y_index cell = i)) values
       end.
Proof.
  revert firstByX firstByY;
    induction values as [|cell values IH]; intros firstByX firstByY; simpl.
  - split; [destruct (firstByX !! i) | destruct (firstByY !! i)]; reflexivity.
  - destruct (IH
      (match firstByX !! GridCell.x_index cell with
       | Some _ => firstByX
       | None => <[GridCell.x_index cell := cell]> firstByX
       end)
      (match firstByY !! GridCell.y_index cell with
       | Some _ => firstByY
       | None => <[GridCell.y_index cell := cell]> firstByY
       end)) as [HX HY].
    rewrite HX, HY. clear IH HX HY. split.
    + destruct (bool_decide_reflect (GridCell.x_index cell = i)) as [<-|Hne].
      * destruct (firstByX !! GridCell.x_index cell) eqn:E; [now rewrite E|].
        now rewrite lookup_insert_eq.
      * destruct (firstByX !! GridCell.x_index cell); [reflexivity|].
        now rewrite lookup_insert_ne.
    + destruct (bool_decide_reflect (GridCell.y_index cell = i)) as [<-|Hne].
      * destruct (firstByY !! GridCell.y_index cell) eqn:E; [now rewrite E|].
        now rewrite lookup_insert_eq.
      * destruct (firstByY !! GridCell.y_index cell); [reflexivity|].
        now rewrite lookup_insert_ne.
Qed.

Lemma buildGridIndex_labels (runDetail : RunDetail.t)
    (cells : list (list N * GridCell.t)) :
  GridIndex.xLabels (buildGridIndex runDetail cells)
  = List.map (fun x => formatXLabel (first_with GridCell.x_index cells x) x)
             (Selection.x_indexes (RunDetail.selection runDetail))
  /\ GridIndex.yLabels (buildGridIndex runDetail cells)
     = List.map (fun y => formatYLabel (first_with GridCell.y_index cells y) y)
                (Selection.y_indexes (RunDetail.selection runDetail)).
Proof.
  unfold buildGridIndex, first_with.
  pose proof (note_first_lookup (Dict.values cells) ∅ ∅) as Hfirst.
  destruct (fold_left note_first (Dict.values cells) (∅, ∅))
    as [firstByX firstByY].
  cbn [GridIndex.xLabels GridIndex.yLabels]. simpl in Hfirst.
  split; apply map_ext; intros i; destruct (Hfirst i) as [HX HY];
    rewrite lookup_empty in HX, HY; now rewrite ?HX, ?HY.
Qed.

Lemma formatXLabel_fallback (cell : option GridCell.t) (xIndex : Z) :
  (forall c, cell = Some c -> ~ x_populated c) ->
  formatXLabel cell xIndex = str "x" ++ number_to_string xIndex.
Proof.
  destruct cell as [c|]; [|reflexivity]. intros Hnot.
  specialize (Hnot c eq_refl). unfold formatXLabel.
  destruct (omap _ X_FIELDS_ORDER) as [|v values] eqn:E; [reflexivity|].
  exfalso. apply Hnot.
  assert (Hv : v ∈ v :: values) by left. rewrite <- E in Hv.
  apply list_elem_of_omap in Hv as (key & _ & Hkey).
  destruct (XFields.read (GridCell.x_fields c) key) as [s|] eqn:Es;
    [|discriminate].
  exists key, s. split; [exact Es|]. simpl in Hkey.
  destruct (JsString.trim s); [discriminate | discriminate].
Qed.

Lemma formatYLabel_fallback (cell : option GridCell.t) (yIndex : Z) :
  (forall c, cell = Some c -> ~ y_populated c) ->
  formatYLabel cell yIndex = str "y" ++ number_to_string yIndex.
Proof.
  destruct cell as [c|]; [|reflexivity]. intros Hnot.
  specialize (Hnot c eq_refl). unfold formatYLabel. simpl.
  destruct (GridCell.y_value c) as [s|] eqn:Es; [|reflexivity]. simpl.
  destruct (JsString.trim s) eqn:Et; [reflexivity|].
  exfalso. apply Hnot. exists s. split; [exact Es|]. rewrite Et. discriminate.
Qed.

End Labels.

(** C7, as the code has it. The record from which the label of an X value
    is derived is the first record, in the enumeration order of the record
    map, whose X index is that value, whatever its Y index; symmetrically
    for a Y value. With the same map, enumerated in the same order, the
    labels are the same. When there is no such record, or the record has no
    populated descriptive attribute, the label is the positional
    placeholder built from the index. *)
Theorem labels_from_first_record (runDetail : RunDetail.t)
    (cells : list (list N * GridCell.t)) :
  let grid := buildGridIndex runDetail cells in
  let xIndexes := Selection.x_indexes (RunDetail.selection runDetail) in
  let yIndexes := Selection.y_indexes (RunDetail.selection runDetail) in
  GridIndex.xLabels grid
  = List.map (fun x => formatXLabel (first_with GridCell.x_index cells x) x) xIndexes
  /\ GridIndex.yLabels grid
     = List.map (fun y => formatYLabel (first_with GridCell.y_index cells y) y) yIndexes
  /\ (forall x,
        (forall cell, first_with GridCell.x_index cells x = Some cell ->
                      ~ x_populated cell) ->
        formatXLabel (first_with GridCell.x_index cells x) x
        = str "x" ++ number_to_string x)
  /\ (forall y,
        (forall cell, first_with GridCell.y_index cells y = Some cell ->
                      ~ y_populated cell) ->
        formatYLabel (first_with GridCell.y_index cells y) y
        = str "y" ++ number_to_string y).
Proof.
  cbn zeta. destruct (buildGridIndex_labels runDetail cells) as [HX HY].
  split; [exact HX|]. split; [exact HY|].
  split; intros i Hnot; [apply formatXLabel_fallback | apply formatYLabel_fallback];
    exact Hnot.
Qed.

(** In the sample run no record has X index 1: its label is the
    placeholder [x1]. *)
Lemma labels_from_first_record_witness :
  exists runDetail cells,
    loadRunDetail Sample.host Sample.disk Sample.run1 Sample.outputsRoot
    = Ok runDetail
    /\ parseMetadataJsonl Sample.host Sample.disk Sample.run1 Sample.outputsRoot
       = Ok cells
    /\ first_with GridCell.x_index cells 1 = None
    /\ formatXLabel (first_with GridCell.x_index cells 1) 1 = str "x1".
Proof.
  destruct (loadRunDetail Sample.host Sample.disk Sample.run1 Sample.outputsRoot)
    as [runDetail|] eqn:Edetail; [|vm_compute in Edetail; discriminate].
  destruct (parseMetadataJsonl Sample.host Sample.disk Sample.run1
              Sample.outputsRoot) as [cells|] eqn:Ecells;
    [|vm_compute in Ecells; discriminate].
  exists runDetail, cells. split; [reflexivity|]. split; [reflexivity|].
  assert (Hnone : first_with GridCell.x_index cells 1 = None).
  { vm_compute in Ecells. injection Ecells as <-. vm_compute. reflexivity. }
  split; [exact Hnone|].
  refine (proj1 (proj2 (proj2 (labels_from_first_record runDetail cells))) 1%Z _).
  intros cell Hcell. rewrite Hnone in Hcell. discriminate.
Defined.

(** C7, as stated, fails on the sample run: the log records the cell
    (0,1) before the cell (0,0), so the record map enumerates (0,1) first
    and the label of X index 0 is taken from it ([final]), not from the
    record with the lowest Y index, (0,0), whose label is [best]. *)
Lemma labels_not_from_lowest_index :
  exists runDetail cells,
    loadRunDetail Sample.host Sample.disk Sample.run1 Sample.outputsRoot
    = Ok runDetail
    /\ parseMetadataJsonl Sample.host Sample.disk Sample.run1 Sample.outputsRoot
       = Ok cells
    /\ Dict.keys cells = [str "0,1"; str "0,0"]
    /\ GridIndex.xLabels (buildGridIndex runDetail cells) = [str "final"; str "x1"]
    /\ coordinate <$> lowest_with GridCell.x_index GridCell.y_index cells 0
       = Some (0, 0)%Z
    /\ List.map
         (fun x => formatXLabel
                     (lowest_with GridCell.x_index GridCell.y_index cells x) x)
         (Selection.x_indexes (RunDetail.selection runDetail))
       = [str "best"; str "x1"]
    /\ GridIndex.xLabels (buildGridIndex runDetail cells)
       <> List.map
            (fun x => formatXLabel
                        (lowest_with GridCell.x_index GridCell.y_index cells x) x)
            (Selection.x_indexes (RunDetail.selection runDetail)).
Proof.
  eexists. eexists.
  split; [by_evaluation|]. split; [by_evaluation|].
  vm_compute. repeat split. discriminate.
Qed.

(** ** Scenarios of the specification *)

Section Scenarios.

(** One candidate for each rejection rule, and an accepted one. *)
Example sanitizer_rejections :
  List.map assertSafeRelativeImagePath
    [ str "   "; [97; 0; 98]%N; str "a%20b"; [97; 92; 98]%N; str "/etc/passwd";
      str "C:secret"; str "a//b"; str "a/../b"; str "./a"; str "images/a.png" ]
  = [ Throw (EmptyField "imagePath"); Throw NullByte; Throw EncodedChars;
      Throw Backslash; Throw Absolute; Throw DriveLetter; Throw EmptySegment;
      Throw DotSegment; Throw DotSegment; Ok (str "images/a.png") ].
Proof. by_evaluation. Qed.

(** Scenario A: X indexes 0 and 1, Y index 0, and one record, for (0,0):
    the grid has two cells, the second one synthesized. *)
Example scenario_a :
  let descriptor :=
    [ (str "run_id", VString (str "r"));
      (str "created_at", VString (str "t"));
      (str "selection",
       VObject [ (str "x_indexes", VArray [json_int 0; json_int 1]);
                 (str "y_indexes", VArray [json_int 0]) ]) ] in
  let record :=
    [ (str "x_index", json_int 0); (str "y_index", json_int 0);
      (str "status", VString (str "success")) ] in
  exists runDetail cell,
    normalizeRunDetail descriptor Sample.run1 = Ok runDetail
    /\ normalizeGridCell record = Some cell
    /\ List.map (fun entry => (fst entry, GridCell.status (snd entry)))
         (GridIndex.cells (buildGridIndex runDetail [(toCellKey 0 0, cell)]))
       = [(str "0,0", success); (str "1,0", missing)].
Proof.
  eexists. eexists. split; [by_evaluation|]. split; [by_evaluation|].
  by_evaluation.
Qed.

(** Scenario C: the second sample directory matches the pattern and has no
    descriptor; asking for it is refused. *)
Example scenario_c :
  isValidRunDir Sample.run2 = true
  /\ (let* runDirs :=
        discoverRunDirs Sample.host Sample.disk Sample.outputsRoot in
      assertAllowedRunDir Sample.run2 (list_to_set runDirs))
     = Throw NotInAllowlist.
Proof. split; by_evaluation. Qed.

End Scenarios.


(** * Further properties of the code *)

(** ** Re-validation in the resolver *)

Section Revalidation.
Variable P : Platform.

Lemma resolvePathUnderRoot_trimmed (root relPath : list N) :
  resolvePathUnderRoot P root (JsString.trim relPath)
  = resolvePathUnderRoot P root relPath.
Proof.
  unfold resolvePathUnderRoot. now rewrite sanitizer_trim.
Qed.

End Revalidation.

(** X1. The resolver validates again what it is given. A blank root is
    refused first; with a root that is not blank, a candidate the sanitizer
    rejects is rejected by the resolver with the same error; and handing
    the resolver a path the sanitizer has already returned gives the same
    result as handing it the raw candidate. *)
Theorem resolver_revalidates (P : Platform) (root relPath : list N) :
  (JsString.trim root = [] ->
   resolvePathUnderRoot P root relPath = Throw (EmptyField "root"))
  /\ (forall e, JsString.trim root <> [] ->
                assertSafeRelativeImagePath relPath = Throw e ->
                resolvePathUnderRoot P root relPath = Throw e)
  /\ (forall safe, assertSafeRelativeImagePath relPath = Ok safe ->
                   resolvePathUnderRoot P root safe
                   = resolvePathUnderRoot P root relPath).
Proof.
  split; [|split].
  - intros Hblank. unfold resolvePathUnderRoot, assertNonEmptyTrimmed.
    now rewrite Hblank.
  - intros e Hroot Hrel. unfold resolvePathUnderRoot, assertNonEmptyTrimmed.
    destruct (JsString.trim root); [contradiction|]. simpl. now rewrite Hrel.
  - intros safe Hsafe. rewrite (sanitizer_returns_trimmed _ _ Hsafe).
    apply resolvePathUnderRoot_trimmed.
Qed.

Lemma resolver_revalidates_witness :
  resolvePathUnderRoot plain_host (str "out") (str "a/../b") = Throw DotSegment
  /\ resolvePathUnderRoot plain_host (str "out") (str "a/b")
     = resolvePathUnderRoot plain_host (str "out") (str " a/b ").
Proof.
  destruct (resolver_revalidates plain_host (str "out") (str "a/../b"))
    as (_ & Hsame & _).
  destruct (resolver_revalidates plain_host (str "out") (str " a/b "))
    as (_ & _ & Hagain).
  split.
  - apply Hsame; [vm_compute; discriminate | by_evaluation].
  - apply Hagain. by_evaluation.
Defined.

(** ** What an accepted path looks like *)

(** X2. A path the sanitizer returns is not empty, has no white space around
    it, holds no null byte, percent sign or backslash, is not absolute
    under either convention, has no drive letter prefix, and each of its
    [/]-separated segments is neither empty nor [.] nor [..]. *)
Theorem accepted_path_is_plain (imagePath r : list N) :
  assertSafeRelativeImagePath imagePath = Ok r ->
  r <> []
  /\ JsString.trim r = r
  /\ (Char.NUL ∉ r) /\ (Char.PERCENT ∉ r) /\ (Char.BACKSLASH ∉ r)
  /\ Posix.isAbsolute r = false
  /\ win32_isAbsolute r = false
  /\ WINDOWS_DRIVE_LETTER_PREFIX_test r = false
  /\ Forall clean_segment (JsString.split Char.SLASH r).
Proof.
  intros Hok. pose proof (sanitizer_returns_trimmed _ _ Hok) as Hr.
  rewrite sanitizer_refines in Hok. unfold sanitize in Hok.
  destruct (List.find _ rejection_rules) as [rule|] eqn:Efind; [discriminate|].
  clear Hok. rewrite <- Hr in Efind.
  assert (Hrule : forall t e, In (t, e) rejection_rules -> t r = false)
    by (intros t e Hin; exact (find_none _ _ Efind _ Hin)).
  unfold rejection_rules in Hrule.
  assert (H1 := Hrule _ _ (or_introl eq_refl)).
  assert (H2 := Hrule _ _ (or_intror (or_introl eq_refl))).
  assert (H3 := Hrule _ _ (or_intror (or_intror (or_introl eq_refl)))).
  assert (H4 := Hrule _ _ (or_intror (or_intror (or_intror (or_introl eq_refl))))).
  assert (H5 := Hrule _ _ (or_intror (or_intror (or_intror (or_intror
                  (or_introl eq_refl)))))).
  assert (H6 := Hrule _ _ (or_intror (or_intror (or_intror (or_intror
                  (or_intror (or_introl eq_refl))))))).
  assert (H7 := Hrule _ _ (or_intror (or_intror (or_intror (or_intror
                  (or_intror (or_intror (or_introl eq_refl)))))))).
  assert (H8 := Hrule _ _ (or_intror (or_intror (or_intror (or_intror
                  (or_intror (or_intror (or_intror (or_introl eq_refl))))))))).
  cbv beta in H1, H2, H3, H4, H5, H6, H7, H8.
  apply bool_decide_eq_false_1 in H1, H2, H3, H4, H7, H8.
  apply orb_false_iff in H5 as [H5 H5'].
  repeat (split; [first [assumption | rewrite Hr; apply trim_idem] |]).
  apply Forall_forall. intros seg Hseg. unfold clean_segment.
  repeat split; intros ->; tauto.
Qed.

Lemma accepted_path_is_plain_witness :
  assertSafeRelativeImagePath (str " images/x0_y1.png") = Ok (str "images/x0_y1.png")
  /\ (Char.PERCENT ∉ str "images/x0_y1.png")
  /\ Forall clean_segment (JsString.split Char.SLASH (str "images/x0_y1.png")).
Proof.
  assert (H : assertSafeRelativeImagePath (str " images/x0_y1.png")
              = Ok (str "images/x0_y1.png")) by by_evaluation.
  split; [exact H|].
  destruct (accepted_path_is_plain _ _ H) as (_ & _ & _ & Hp & _ & _ & _ & _ & Hs).
  split; assumption.
Defined.

(** ** Resolution on a POSIX host *)

Section PosixResolution.

Lemma split_without_sep (sep : N) (s : list N) :
  sep ∉ s -> JsString.split sep s = [s].
Proof.
  induction s as [|c s IH]; simpl; [reflexivity|].
  rewrite not_elem_of_cons. intros [Hne Hnotin].
  destruct (N.eqb_spec c sep) as [->|_]; [contradiction|].
  now rewrite IH.
Qed.

Lemma split_segments_no_sep (sep : N) (s : list N) :
  Forall (fun seg => sep ∉ seg) (JsString.split sep s).
Proof.
  induction s as [|c s IH]; simpl.
  - repeat constructor. apply not_elem_of_nil.
  - destruct (N.eqb_spec c sep) as [->|Hne].
    + constructor; [apply not_elem_of_nil | exact IH].
    + destruct (JsString.split sep s) as [|seg rest].
      * repeat constructor. rewrite list_elem_of_singleton. congruence.
      * apply Forall_cons_1 in IH as [Hseg Hrest].
        constructor; [|exact Hrest]. rewrite not_elem_of_cons. split; congruence.
Qed.

Lemma split_join (sep : N) (segs : list (list N)) :
  Forall (fun seg => sep ∉ seg) segs -> segs <> [] ->
  JsString.split sep (JsString.join [sep] segs) = segs.
Proof.
  induction 1 as [|seg segs Hseg Hsegs IH]; [contradiction|]. intros _.
  destruct segs as [|seg' segs]; simpl.
  - now apply split_without_sep.
  - change (JsString.split sep (seg ++ sep :: JsString.join [sep] (seg' :: segs))
            = seg :: seg' :: segs).
    rewrite split_app, split_without_sep by assumption.
    rewrite IH by discriminate. reflexivity.
Qed.

Lemma join_app (sep : list N) (a b : list (list N)) :
  a <> [] -> b <> [] ->
  JsString.join sep (a ++ b) = JsString.join sep a ++ sep ++ JsString.join sep b.
Proof.
  intros Ha Hb. induction a as [|seg a IH]; [contradiction|].
  destruct a as [|seg' a].
  - simpl. destruct b; [contradiction | reflexivity].
  - change (seg ++ sep ++ JsString.join sep ((seg' :: a) ++ b)
            = (seg ++ sep ++ JsString.join sep (seg' :: a)) ++ sep
              ++ JsString.join sep b).
    rewrite IH by discriminate. now rewrite <- !app_assoc.
Qed.

Lemma normalize_segment_empty (b : bool) (acc : list (list N)) :
  Posix.normalize_segment b acc [] = acc.
Proof. reflexivity. Qed.

Lemma normalize_segment_tidy (acc : list (list N)) (seg : list N) :
  Char.SLASH ∉ seg -> tidy acc -> tidy (Posix.normalize_segment false acc seg).
Proof.
  intros Hseg Hacc. unfold Posix.normalize_segment.
  destruct (bool_decide_reflect (seg = [])) as [->|H1]; [exact Hacc|].
  destruct (bool_decide_reflect (seg = [Char.DOT])) as [->|H2]; [exact Hacc|].
  simpl. destruct (bool_decide_reflect (seg = Posix.dotdot)) as [->|H3].
  - destruct acc as [|top below]; [exact Hacc|].
    destruct (bool_decide (top = Posix.dotdot)); [exact Hacc|].
    now apply Forall_cons_1 in Hacc as [_ Hbelow].
  - constructor; [|exact Hacc]. unfold clean_segment. auto.
Qed.

Lemma normalize_fold_tidy (segs acc : list (list N)) :
  Forall (fun seg => Char.SLASH ∉ seg) segs -> tidy acc ->
  tidy (fold_left (Posix.normalize_segment false) segs acc).
Proof.
  intros Hsegs; revert acc; induction Hsegs as [|seg segs Hseg _ IH];
    intros acc Hacc; simpl; [exact Hacc|].
  apply IH. now apply normalize_segment_tidy.
Qed.

(** Resolving a root that is not empty, in an absolute working directory,
    gives [/] followed by tidy segments. *)
Lemma posix_resolve_root (cwd safeRoot : list N) :
  Posix.isAbsolute cwd = true -> safeRoot <> [] ->
  exists segs, tidy segs
    /\ Posix.resolve cwd [safeRoot] = Char.SLASH :: JsString.join [Char.SLASH] segs.
Proof.
  intros Hcwd Hroot. unfold Posix.resolve. simpl rev. simpl app.
  assert (Hloop : exists text,
             Posix.resolve_loop [safeRoot; cwd] [] = (text, true)).
  { destruct safeRoot as [|c s]; [contradiction|]. simpl.
    destruct (c =? Char.SLASH)%N; [eauto|].
    destruct cwd as [|d cwd']; [discriminate|]. simpl in Hcwd |- *.
    rewrite Hcwd. eauto. }
  destruct Hloop as [text ->]. simpl negb. cbv iota beta.
  exists (rev (fold_left (Posix.normalize_segment false)
                         (JsString.split Char.SLASH text) [])).
  split; [|reflexivity].
  apply Forall_rev, normalize_fold_tidy;
    [apply split_segments_no_sep | constructor].
Qed.

Lemma tidy_clean (segs : list (list N)) : tidy segs -> Forall clean_segment segs.
Proof. intros H. eapply Forall_impl; [exact H|]. simpl. tauto. Qed.

Lemma tidy_no_slash (segs : list (list N)) :
  tidy segs -> Forall (fun seg => Char.SLASH ∉ seg) segs.
Proof. intros H. eapply Forall_impl; [exact H|]. simpl. tauto. Qed.

(** Resolving a clean relative path against such a root appends its
    segments. *)
Lemma posix_resolve_under (cwd : list N) (segs : list (list N)) (rel : list N) :
  tidy segs -> rel <> [] ->
  Forall clean_segment (JsString.split Char.SLASH rel) ->
  Posix.resolve cwd [Char.SLASH :: JsString.join [Char.SLASH] segs; rel]
  = Char.SLASH :: JsString.join [Char.SLASH] (segs ++ JsString.split Char.SLASH rel).
Proof.
  intros Hsegs Hne Hclean. unfold Posix.resolve. simpl rev. simpl app.
  assert (Hrel : Posix.isAbsolute rel = false).
  { destruct rel as [|a rel]; [reflexivity|]. simpl.
    destruct (a =? Char.SLASH)%N eqn:E; [|reflexivity].
    simpl in Hclean. rewrite E in Hclean.
    apply Forall_cons_1 in Hclean as [[Hseg _] _]. now destruct Hseg. }
  assert (Hloop :
    Posix.resolve_loop
      [rel; Char.SLASH :: JsString.join [Char.SLASH] segs; cwd] []
    = ((Char.SLASH :: JsString.join [Char.SLASH] segs)
         ++ Char.SLASH :: rel ++ [Char.SLASH], true)).
  { destruct rel as [|a rel]; [contradiction|].
    cbn [Posix.resolve_loop]. rewrite Hrel. cbn [Posix.resolve_loop].
    reflexivity. }
  rewrite Hloop. simpl negb. cbv iota beta. f_equal.
  unfold Posix.normalizeString. f_equal.
  change ((Char.SLASH :: JsString.join [Char.SLASH] segs)
            ++ Char.SLASH :: rel ++ [Char.SLASH])
    with ([] ++ Char.SLASH :: (JsString.join [Char.SLASH] segs
                                ++ Char.SLASH :: (rel ++ Char.SLASH :: []))).
  rewrite !split_app. simpl (JsString.split Char.SLASH []).
  rewrite !fold_left_app. cbn [fold_left]. rewrite !normalize_segment_empty.
  rewrite (fold_normalize_clean _ _ _ Hclean).
  destruct segs as [|seg segs].
  - simpl. now rewrite normalize_segment_empty, app_nil_r, rev_involutive.
  - rewrite split_join; [|now apply tidy_no_slash | discriminate].
    rewrite (fold_normalize_clean _ _ _ (tidy_clean _ Hsegs)).
    rewrite app_nil_r, rev_app_distr, !rev_involutive. reflexivity.
Qed.

End PosixResolution.

(** X3. On a POSIX host whose working directory is absolute, a root that is
    not blank and a candidate the sanitizer accepts are never rejected as a
    root escape: the result is the resolved root followed by [/] and the
    sanitized path, or [/] and the sanitized path when the resolved root is
    [/] itself. *)
Theorem posix_resolution_never_escapes (cwd : list N)
    (parse : list N -> option value) (root relPath safe : list N) :
  Posix.isAbsolute cwd = true ->
  JsString.trim root <> [] ->
  assertSafeRelativeImagePath relPath = Ok safe ->
  let resolvedRoot := Posix.resolve cwd [JsString.trim root] in
  resolvePathUnderRoot (posix cwd parse) root relPath
  = Ok (if bool_decide (resolvedRoot = [Char.SLASH])
        then Char.SLASH :: safe
        else resolvedRoot ++ Char.SLASH :: safe).
Proof.
  intros Hcwd Hroot Hsafe resolvedRoot.
  destruct (sanitizer_accepted _ _ Hsafe) as (Hne & Hclean & _).
  pose proof (sanitizer_returns_trimmed _ _ Hsafe) as Hr. rewrite <- Hr in *.
  destruct (posix_resolve_root cwd _ Hcwd Hroot) as (segs & Htidy & HR).
  assert (Htarget :
    Posix.resolve cwd [resolvedRoot; safe]
    = if bool_decide (resolvedRoot = [Char.SLASH])
      then Char.SLASH :: safe else resolvedRoot ++ Char.SLASH :: safe).
  { unfold resolvedRoot. rewrite HR, (posix_resolve_under cwd segs safe) by assumption.
    destruct segs as [|seg segs].
    - simpl. now rewrite join_split.
    - rewrite bool_decide_eq_false_2.
      + rewrite join_app, join_split by (discriminate || apply split_nonempty).
        reflexivity.
      + intros Heq. injection Heq as Heq.
        apply Forall_cons_1 in Htidy as [[(Hseg & _ & _) _] _].
        destruct seg; [contradiction|]. destruct segs; discriminate. }
  rewrite (resolvePathUnderRoot_unfold (posix cwd parse) root relPath
             (JsString.trim root) safe);
    [|now apply assertNonEmptyTrimmed_Ok | exact Hsafe].
  cbn [path_resolve posix]. fold resolvedRoot. rewrite Htarget.
  unfold toComparablePath. cbn [win32 posix].
  rewrite (proj2 (within_root_test (posix cwd parse) _ _)); [reflexivity|].
  right. unfold rootWithSep. cbn [path_sep posix].
  destruct (bool_decide_reflect (resolvedRoot = [Char.SLASH])) as [->|_].
  - reflexivity.
  - destruct (JsString.endsWith resolvedRoot [Char.SLASH]).
    + apply startsWith_app.
    + change (Char.SLASH :: safe) with ([Char.SLASH] ++ safe).
      rewrite app_assoc. apply startsWith_app.
Qed.

Lemma posix_resolution_never_escapes_witness :
  resolvePathUnderRoot plain_host (str "comfyui_api_outputs/../outputs/")
    (str "images/a.png")
  = Ok (str "/srv/app/outputs/images/a.png").
Proof.
  refine (eq_trans
    (posix_resolution_never_escapes (str "/srv/app") (fun _ => None)
       (str "comfyui_api_outputs/../outputs/") (str "images/a.png")
       (str "images/a.png") _ _ _) _).
  - reflexivity.
  - vm_compute. discriminate.
  - by_evaluation.
  - by_evaluation.
Defined.

(** ** Run identifiers *)

Section RunIdentifiers.

Lemma eat_literal_Some (lit s rest : list N) :
  eat_literal lit s = Some rest <-> s = lit ++ rest.
Proof.
  unfold eat_literal. destruct (JsString.startsWith s lit) eqn:E.
  - apply startsWith_prefix in E as [r ->]. rewrite drop_app_length. split.
    + now intros [= ->].
    + intros H. apply app_inv_head in H. now subst.
  - split; [discriminate|]. intros ->. rewrite startsWith_app in E. discriminate.
Qed.

Lemma eat_digits_Some (n : nat) (s rest : list N) :
  eat_digits n s = Some rest <->
  exists digits, length digits = n
                 /\ Forall (fun c => Char.is_digit c = true) digits
                 /\ s = digits ++ rest.
Proof.
  revert s; induction n as [|n IH]; intros s; simpl.
  - split.
    + intros [= ->]. exists []. repeat split. constructor.
    + intros (digits & Hlen & _ & ->). destruct digits; [reflexivity|discriminate].
  - destruct s as [|c s].
    + split; [discriminate|]. intros ([|d digits] & Hlen & _ & Heq); discriminate.
    + destruct (Char.is_digit c) eqn:Ec.
      * rewrite IH. split.
        -- intros (digits & Hlen & Hall & ->). exists (c :: digits).
           repeat split; [simpl; congruence | now constructor].
        -- intros ([|d digits] & Hlen & Hall & Heq); [discriminate|].
           injection Heq as <- ->. injection Hlen as Hlen.
           apply Forall_cons_1 in Hall as [_ Hall]. eauto.
      * split; [discriminate|].
        intros ([|d digits] & Hlen & Hall & Heq); [discriminate|].
        injection Heq as <- _. apply Forall_cons_1 in Hall as [Hd _]. congruence.
Qed.

Lemma includes_without_first (s p : list N) (c : N) :
  c ∉ s -> JsString.includes s (c :: p) = false.
Proof.
  induction s as [|b s IH]; intros Hnotin; simpl; [reflexivity|].
  apply not_elem_of_cons in Hnotin as [Hne Hnotin].
  rewrite (IH Hnotin), orb_false_r.
  destruct (N.eqb_spec c b) as [->|_]; [contradiction | reflexivity].
Qed.

Lemma trim_fixed (s : list N) (first last : N) (middle : list N) :
  s = first :: middle ++ [last] ->
  Char.is_space first = false -> Char.is_space last = false ->
  JsString.trim s = s.
Proof.
  intros -> Hfirst Hlast. unfold JsString.trim.
  rewrite trimStart_fixed by assumption. unfold JsString.trimEnd.
  assert (Hrev : rev (first :: middle ++ [last]) = last :: rev (first :: middle))
    by (rewrite app_comm_cons; apply rev_unit).
  now rewrite Hrev, trimStart_fixed, <- Hrev, rev_involutive.
Qed.

Lemma run_identifier_shape_aux (s : list N) :
  isValidRunDir s = true -> run_identifier s.
Proof.
  unfold isValidRunDir, RUN_DIR_REGEX_test, run_identifier.
  destruct (eat_literal (str "run-") s) as [r1|] eqn:E1; [|discriminate].
  cbn [mbind option_bind]. destruct (eat_digits 8 r1) as [r2|] eqn:E2; [|discriminate].
  cbn [mbind option_bind]. destruct (eat_literal (str "T") r2) as [r3|] eqn:E3; [|discriminate].
  cbn [mbind option_bind]. destruct (eat_digits 6 r3) as [r4|] eqn:E4; [|discriminate].
  cbn [mbind option_bind]. destruct (eat_literal (str "Z") r4) as [[|c r5]|] eqn:E5;
    try discriminate.
  intros _.
  apply eat_literal_Some in E1, E3, E5.
  apply eat_digits_Some in E2 as (date & Hdate & Hd & ->).
  apply eat_digits_Some in E4 as (time & Htime & Ht & ->).
  exists date, time. subst. rewrite app_nil_r. auto.
Qed.

End RunIdentifiers.

(** X4. [isValidRunDir] accepts exactly the strings made of [run-], eight
    decimal digits, [T], six decimal digits and [Z]. *)
Theorem run_identifier_shape (s : list N) :
  isValidRunDir s = true <-> run_identifier s.
Proof.
  split; [apply run_identifier_shape_aux|].
  unfold isValidRunDir, RUN_DIR_REGEX_test, run_identifier.
  - intros (date & time & Hdate & Htime & Hd & Ht & ->).
    rewrite (proj2 (eat_literal_Some _ _ _) eq_refl). cbn [mbind option_bind].
    rewrite (proj2 (eat_digits_Some 8 _ (str "T" ++ time ++ str "Z")))
      by (exists date; auto).
    cbn [mbind option_bind].
    rewrite (proj2 (eat_literal_Some (str "T") _ _) eq_refl).
    cbn [mbind option_bind].
    rewrite (proj2 (eat_digits_Some 6 _ (str "Z"))) by (exists time; auto).
    reflexivity.
Qed.

(** X5. A valid run identifier is a single harmless path segment: twenty code
    units with no separator among them, unchanged by trimming, and accepted
    unchanged by the path sanitizer. *)
Theorem valid_run_dir_is_one_segment (s : list N) :
  isValidRunDir s = true ->
  length s = 20
  /\ (Char.SLASH ∉ s) /\ (Char.BACKSLASH ∉ s)
  /\ JsString.trim s = s
  /\ assertSafeRelativeImagePath s = Ok s.
Proof.
  intros Hvalid. apply run_identifier_shape_aux in Hvalid
    as (date & time & Hdate & Htime & Hd & Ht & ->).
  assert (Hchars : Forall (fun c => c <> Char.NUL /\ c <> Char.PERCENT
                                    /\ c <> Char.BACKSLASH /\ c <> Char.SLASH
                                    /\ c <> Char.DOT /\ c <> Char.COLON)
                     (str "run-" ++ date ++ str "T" ++ time ++ str "Z")).
  { assert (Hdigit : forall l, Forall (fun c => Char.is_digit c = true) l ->
              Forall (fun c => c <> Char.NUL /\ c <> Char.PERCENT
                              /\ c <> Char.BACKSLASH /\ c <> Char.SLASH
                              /\ c <> Char.DOT /\ c <> Char.COLON) l).
    { intros l Hl. eapply Forall_impl; [exact Hl|]. intros c Hc.
      repeat split; intros ->; discriminate. }
    repeat (apply Forall_app; split); auto;
      repeat constructor; discriminate. }
  set (s := str "run-" ++ date ++ str "T" ++ time ++ str "Z") in *.
  assert (Hnot : forall c, (forall x, x <> Char.NUL /\ x <> Char.PERCENT
                              /\ x <> Char.BACKSLASH /\ x <> Char.SLASH
                              /\ x <> Char.DOT /\ x <> Char.COLON -> x <> c) ->
                           c ∉ s).
  { intros c Hc Hin. rewrite Forall_forall in Hchars.
    exact (Hc c (Hchars c Hin) eq_refl). }
  assert (Hslash : Char.SLASH ∉ s) by (apply Hnot; tauto).
  assert (Hback : Char.BACKSLASH ∉ s) by (apply Hnot; tauto).
  assert (Hlen : length s = 20).
  { unfold s. rewrite !length_app, Hdate, Htime. reflexivity. }
  assert (Htrim : JsString.trim s = s).
  { apply (trim_fixed s 114%N 90%N (str "un-" ++ date ++ str "T" ++ time));
      [|reflexivity|reflexivity].
    unfold s. change (str "run-") with (114%N :: str "un-").
    change (str "Z") with [90%N]. simpl. now rewrite <- !app_assoc. }
  split; [exact Hlen|]. split; [exact Hslash|]. split; [exact Hback|].
  split; [exact Htrim|].
  assert (Hsplit : JsString.split Char.SLASH s = [s])
    by now apply split_without_sep.
  assert (Hclean : Forall clean_segment (JsString.split Char.SLASH s)).
  { rewrite Hsplit. repeat constructor; intros Heq; rewrite Heq in Hlen;
      discriminate. }
  assert (Hne : s <> []) by (intros Heq; rewrite Heq in Hlen; discriminate).
  rewrite sanitizer_refines. unfold sanitize. rewrite Htrim.
  rewrite (normalize_clean s Hne Hclean).
  cbn [rejection_rules List.find fst snd].
  rewrite (bool_decide_eq_false_2 _ Hne).
  rewrite (bool_decide_eq_false_2 (Char.NUL ∈ s)) by (apply Hnot; tauto).
  rewrite (bool_decide_eq_false_2 (Char.PERCENT ∈ s)) by (apply Hnot; tauto).
  rewrite (bool_decide_eq_false_2 _ Hback).
  rewrite Hsplit.
  replace (Posix.isAbsolute s) with false by reflexivity.
  replace (win32_isAbsolute s) with false
    by (unfold s; destruct date as [|d [|e date']]; try discriminate; reflexivity).
  replace (WINDOWS_DRIVE_LETTER_PREFIX_test s) with false by reflexivity.
  cbn [orb].
  rewrite (bool_decide_eq_false_2 ([] ∈ [s]))
    by (rewrite list_elem_of_singleton; congruence).
  rewrite (bool_decide_eq_false_2 (_ ∨ _)).
  2:{ rewrite !list_elem_of_singleton.
      intros [Heq | Heq]; rewrite <- Heq in Hlen; discriminate. }
  cbv zeta. rewrite !(normalize_clean s Hne Hclean).
  rewrite (bool_decide_eq_false_2 (s = [Char.DOT]))
    by (intros Heq; rewrite Heq in Hlen; discriminate).
  replace (JsString.startsWith s (str "../")) with false by reflexivity.
  change (str "/../") with (Char.SLASH :: str "../").
  rewrite (includes_without_first _ _ _ Hslash). reflexivity.
Qed.

Lemma valid_run_dir_is_one_segment_witness :
  isValidRunDir Sample.run1 = true
  /\ assertSafeRelativeImagePath Sample.run1 = Ok Sample.run1.
Proof.
  assert (H : isValidRunDir Sample.run1 = true) by by_evaluation.
  split; [exact H|].
  exact (proj2 (proj2 (proj2 (proj2 (valid_run_dir_is_one_segment _ H))))).
Defined.

(** ** Order and multiplicity of the discovered runs *)

Section Sorting.
Context {A : Type}.
Variable cmp : A -> A -> Z.

Lemma sort_insert_Permutation (a : A) (sorted : list A) :
  sort_insert cmp a sorted ≡ₚ a :: sorted.
Proof.
  induction sorted as [|b rest IH]; simpl; [reflexivity|].
  destruct (0 <? cmp a b)%Z; [|reflexivity].
  rewrite IH. apply Permutation_swap.
Qed.

Lemma sort_Permutation (items : list A) : sort cmp items ≡ₚ items.
Proof.
  unfold sort. induction items as [|a items IH]; simpl; [reflexivity|].
  now rewrite sort_insert_Permutation, IH.
Qed.

Hypothesis cmp_asym : forall a b, (0 < cmp a b)%Z -> (cmp b a <= 0)%Z.

Lemma sort_insert_Sorted (a : A) (sorted : list A) :
  Sorted (fun x y => (cmp x y <= 0)%Z) sorted ->
  Sorted (fun x y => (cmp x y <= 0)%Z) (sort_insert cmp a sorted).
Proof.
  induction 1 as [|b rest Hrest IH Hhd]; simpl.
  - repeat constructor.
  - destruct (Z.ltb_spec 0 (cmp a b)) as [Hgt|Hle].
    + constructor; [exact IH|].
      destruct rest as [|c rest]; simpl.
      * constructor. now apply cmp_asym.
      * destruct (0 <? cmp a c)%Z.
        -- constructor. now inversion Hhd.
        -- constructor. now apply cmp_asym.
    + constructor; [now constructor|]. now constructor.
Qed.

Lemma sort_Sorted (items : list A) :
  Sorted (fun x y => (cmp x y <= 0)%Z) (sort cmp items).
Proof.
  unfold sort. induction items as [|a items IH]; simpl; [constructor|].
  now apply sort_insert_Sorted.
Qed.

End Sorting.

Section Multiplicity.
Variables (P : Platform) (D : Disk).

Lemma found_sublist (outputsRoot : list N) (candidates : list Dirent)
    (found : list (option (list N))) :
  Forall2
    (fun entry o =>
       (let* present :=
          containsRunJson P D (path_join P [outputsRoot; name entry]) in
        Ok (if present then Some (name entry) else None)) = Ok o)
    candidates found ->
  omap id found `sublist_of` List.map name candidates.
Proof.
  induction 1 as [|entry o candidates found Hf _ IH]; simpl; [constructor|].
  destruct (containsRunJson P D _) as [[|]|]; simpl in Hf; try discriminate;
    injection Hf as <-; simpl.
  - now apply sublist_skip.
  - now apply sublist_cons.
Qed.

Lemma filter_names_sublist (keep : Dirent -> bool) (entries : list Dirent) :
  List.map name (List.filter keep entries) `sublist_of` List.map name entries.
Proof.
  induction entries as [|entry entries IH]; simpl; [constructor|].
  destruct (keep entry); simpl; [now apply sublist_skip | now apply sublist_cons].
Qed.

End Multiplicity.

Lemma compare_code_units_asym (a b : list N) :
  (0 < compare_code_units a b)%Z -> (compare_code_units b a <= 0)%Z.
Proof.
  revert b; induction a as [|x a IH]; intros [|y b]; simpl; try lia.
  rewrite (N.compare_antisym x y).
  destruct (x ?= y)%N; simpl; try lia. apply IH.
Qed.

(** X6. The discovered run directories are sorted most recent first: of two
    neighbours in the result the second never compares greater than the
    first, provided [localeCompare] does not rank two strings each above
    the other. *)
Theorem discovered_runs_sorted (P : Platform) (D : Disk)
    (outputsRoot : list N) (runDirs : list (list N)) :
  (forall a b, (0 < localeCompare P a b)%Z -> (localeCompare P b a <= 0)%Z) ->
  discoverRunDirs P D outputsRoot = Ok runDirs ->
  Sorted (not_before P) runDirs.
Proof.
  intros Hasym. unfold discoverRunDirs.
  destruct (readdir D outputsRoot) as [entries|e].
  - destruct (all_ok _ _) as [found|]; [|discriminate]. simpl. intros [= <-].
    apply (sort_Sorted (fun left right => localeCompare P right left)).
    intros a b. apply Hasym.
  - destruct (isENOENT e); [|discriminate]. intros [= <-]. constructor.
Qed.

Lemma discovered_runs_sorted_witness :
  discoverRunDirs Sample.host Sample.disk Sample.outputsRoot
  = Ok [Sample.run3; Sample.run1]
  /\ Sorted (not_before Sample.host) [Sample.run3; Sample.run1].
Proof.
  assert (H : discoverRunDirs Sample.host Sample.disk Sample.outputsRoot
              = Ok [Sample.run3; Sample.run1]) by by_evaluation.
  split; [exact H|].
  apply (discovered_runs_sorted Sample.host Sample.disk Sample.outputsRoot);
    [|exact H].
  intros a b. apply compare_code_units_asym.
Defined.

(** X7. The discovered run directories are a rearrangement of a selection of
    the directory's entry names: no name is invented, and when the entries
    of the storage root have distinct names no run is listed twice. *)
Theorem discovered_runs_distinct (P : Platform) (D : Disk)
    (outputsRoot : list N) (entries : list Dirent) (runDirs : list (list N)) :
  readdir D outputsRoot = Ok entries ->
  discoverRunDirs P D outputsRoot = Ok runDirs ->
  (exists chosen, chosen `sublist_of` List.map name entries /\ runDirs ≡ₚ chosen)
  /\ (NoDup (List.map name entries) -> NoDup runDirs).
Proof.
  intros Hdir. unfold discoverRunDirs. rewrite Hdir.
  destruct (all_ok _ _) as [found|] eqn:Eall; [|discriminate]. simpl.
  intros [= <-]. apply all_ok_Forall2, found_sublist in Eall.
  assert (Hsub : omap id found `sublist_of` List.map name entries).
  { etransitivity; [exact Eall|]. apply filter_names_sublist. }
  split.
  - exists (omap id found). split; [exact Hsub | apply sort_Permutation].
  - intros Hnd. rewrite sort_Permutation. eapply sublist_NoDup; eassumption.
Qed.

Lemma discovered_runs_distinct_witness :
  discoverRunDirs Sample.host Sample.disk Sample.outputsRoot
  = Ok [Sample.run3; Sample.run1]
  /\ NoDup [Sample.run3; Sample.run1].
Proof.
  assert (H : discoverRunDirs Sample.host Sample.disk Sample.outputsRoot
              = Ok [Sample.run3; Sample.run1]) by by_evaluation.
  split; [exact H|].
  refine (proj2 (discovered_runs_distinct Sample.host Sample.disk
                   Sample.outputsRoot _ [Sample.run3; Sample.run1] _ H) _).
  - by_evaluation.
  - decide_by_evaluation.
Defined.

(** ** Reading the event log *)

Section LogReading.
Variable P : Platform.

Lemma ingest_store (lines : list (list N)) (cells : list (list N * GridCell.t)) :
  fold_left (ingest_line P) lines cells
  = fold_left store (omap (parse_line P) lines) cells.
Proof.
  revert cells; induction lines as [|line lines IH]; intros cells; simpl;
    [reflexivity|].
  rewrite IH, ingest_line_parse.
  destruct (parse_line P line); reflexivity.
Qed.

Lemma elem_of_set {V : Type} (m : list (list N * V)) (k k' : list N) (v v' : V) :
  (k', v') ∈ Dict.set m k v -> (k', v') = (k, v) \/ (k', v') ∈ m.
Proof.
  induction m as [|[k0 v0] m IH]; simpl.
  - rewrite list_elem_of_singleton. auto.
  - destruct (bool_decide_reflect (k0 = k)) as [->|_]; rewrite !elem_of_cons.
    + tauto.
    + intros [H | H]; [tauto|]. destruct (IH H); tauto.
Qed.

Lemma get_elem_of {V : Type} (m : list (list N * V)) (k : list N) (v : V) :
  NoDup (Dict.keys m) -> (k, v) ∈ m -> Dict.get m k = Some v.
Proof.
  induction m as [|[k0 v0] m IH]; simpl; intros Hnd Hin; [inversion Hin|].
  apply NoDup_cons in Hnd as [Hnotin Hnd].
  apply elem_of_cons in Hin as [[= <- <-] | Hin].
  - now rewrite bool_decide_eq_true_2.
  - rewrite bool_decide_eq_false_2; [now apply IH|].
    intros ->. apply Hnotin. unfold Dict.keys.
    apply list_elem_of_fmap. now exists (k, v).
Qed.

(** What the loop keeps true of the map it builds. *)
Lemma ingest_invariant (lines : list (list N)) :
  let cells := fold_left (ingest_line P) lines [] in
  NoDup (Dict.keys cells)
  /\ forall key cell, (key, cell) ∈ cells ->
        key = toCellKey (GridCell.x_index cell) (GridCell.y_index cell)
        /\ exists line, line ∈ lines /\ parse_line P line = Some cell.
Proof.
  induction lines as [|line lines IH] using rev_ind; simpl.
  - split; [constructor | intros key cell H; inversion H].
  - rewrite fold_left_app. simpl. destruct IH as [Hnd Hall].
    rewrite ingest_line_parse.
    destruct (parse_line P line) as [new|] eqn:Eline.
    + split; [now apply keys_set_NoDup|].
      intros key cell Hin. apply elem_of_set in Hin as [[= -> ->] | Hin].
      * split; [reflexivity|]. exists line. rewrite elem_of_app, list_elem_of_singleton.
        auto.
      * destruct (Hall _ _ Hin) as [Hkey (l & Hl & Hparse)].
        split; [exact Hkey|]. exists l. rewrite elem_of_app. auto.
    + split; [exact Hnd|]. intros key cell Hin.
      destruct (Hall _ _ Hin) as [Hkey (l & Hl & Hparse)].
      split; [exact Hkey|]. exists l. rewrite elem_of_app. auto.
Qed.

(** The record found at a coordinate comes from a line of the log, and
    nothing is found only when no line yields that coordinate. *)
Lemma ingest_lookup (lines : list (list N)) (x y : Z) :
  match Dict.get (fold_left (ingest_line P) lines []) (toCellKey x y) with
  | Some cell =>
      coordinate cell = (x, y)
      /\ exists line, line ∈ lines /\ parse_line P line = Some cell
  | None =>
      forall line cell, line ∈ lines -> parse_line P line = Some cell ->
                        coordinate cell <> (x, y)
  end.
Proof.
  induction lines as [|line lines IH] using rev_ind; simpl.
  - intros line cell H. inversion H.
  - rewrite fold_left_app. simpl. rewrite ingest_line_parse.
    destruct (parse_line P line) as [new|] eqn:Eline.
    + rewrite get_set.
      destruct (bool_decide_reflect
                  (toCellKey (GridCell.x_index new) (GridCell.y_index new)
                   = toCellKey x y)) as [Hkey|Hkey].
      * apply toCellKey_inj in Hkey as [Hx Hy]. split.
        -- unfold coordinate. congruence.
        -- exists line. rewrite elem_of_app, list_elem_of_singleton. auto.
      * destruct (Dict.get _ (toCellKey x y)) as [cell|].
        -- destruct IH as [Hcoord (l & Hl & Hparse)]. split; [exact Hcoord|].
           exists l. rewrite elem_of_app. auto.
        -- intros l c Hl Hparse.
           apply elem_of_app in Hl as [Hl | Hl]; [eauto|].
           apply list_elem_of_singleton in Hl. subst l.
           assert (c = new) as -> by congruence.
           intros Hcoord. apply Hkey. unfold coordinate in Hcoord. congruence.
    + destruct (Dict.get _ (toCellKey x y)) as [cell|].
      * destruct IH as [Hcoord (l & Hl & Hparse)]. split; [exact Hcoord|].
        exists l. rewrite elem_of_app. auto.
      * intros l c Hl Hparse.
        apply elem_of_app in Hl as [Hl | Hl]; [eauto|].
        apply list_elem_of_singleton in Hl. subst l. congruence.
Qed.

End LogReading.

(** X8. Reading the event log. A log file that does not exist is an empty map
    and not an error; any other failure to read it is passed on. When the
    file is read, the map is what storing, in file order, the records of
    the lines that yield one gives: blank lines, lines that are not JSON
    objects and objects without integer coordinates contribute nothing, so
    two logs whose lines yield the same records give the same map. *)
Theorem event_log_reading (P : Platform) (D : Disk) (runDir outputsRoot : list N) :
  let metadataPath := path_join P [outputsRoot; runDir; METADATA_JSONL_FILENAME] in
  (forall e, readFile D metadataPath = Throw e -> isENOENT e = true ->
             parseMetadataJsonl P D runDir outputsRoot = Ok [])
  /\ (forall e, readFile D metadataPath = Throw e -> isENOENT e = false ->
                parseMetadataJsonl P D runDir outputsRoot = Throw e)
  /\ (forall raw, readFile D metadataPath = Ok raw ->
        parseMetadataJsonl P D runDir outputsRoot
        = Ok (fold_left store (omap (parse_line P) (JsString.split_lines raw)) []))
  /\ (forall D' runDir' outputsRoot' raw raw',
        readFile D metadataPath = Ok raw ->
        readFile D' (path_join P [outputsRoot'; runDir'; METADATA_JSONL_FILENAME])
        = Ok raw' ->
        omap (parse_line P) (JsString.split_lines raw)
        = omap (parse_line P) (JsString.split_lines raw') ->
        parseMetadataJsonl P D runDir outputsRoot
        = parseMetadataJsonl P D' runDir' outputsRoot').
Proof.
  cbn zeta. unfold parseMetadataJsonl.
  split; [|split; [|split]].
  - intros e -> ->. reflexivity.
  - intros e -> ->. reflexivity.
  - intros raw ->. now rewrite ingest_store.
  - intros D' runDir' outputsRoot' raw raw' -> -> Hsame.
    now rewrite !ingest_store, Hsame.
Qed.

(** The sample log holds a corrupt line; the map read from it is the one
    of its three good lines. *)
Lemma event_log_reading_witness :
  parseMetadataJsonl Sample.host Sample.disk Sample.run1 Sample.outputsRoot
  = Ok (fold_left store
          (omap (parse_line Sample.host)
                [Sample.line_a; Sample.line_c; Sample.line_d]) [])
  /\ parseMetadataJsonl Sample.host Sample.disk Sample.run2 Sample.outputsRoot
     = Ok [].
Proof.
  destruct (event_log_reading Sample.host Sample.disk Sample.run1
              Sample.outputsRoot) as (_ & _ & Hread & _).
  destruct (event_log_reading Sample.host Sample.disk Sample.run2
              Sample.outputsRoot) as (Habsent & _).
  split.
  - rewrite (Hread Sample.metadata_jsonl) by by_evaluation. by_evaluation.
  - apply (Habsent (Errno "ENOENT")); by_evaluation.
Defined.

(** X9. The map read from the event log never holds a key twice, and every
    entry is a record that some line of the log yields, stored under the
    key of its own coordinate and found again by looking that key up. *)
Theorem event_log_map_invariant (P : Platform) (D : Disk)
    (runDir outputsRoot : list N) (cells : list (list N * GridCell.t)) :
  parseMetadataJsonl P D runDir outputsRoot = Ok cells ->
  NoDup (Dict.keys cells)
  /\ forall key cell, (key, cell) ∈ cells ->
        key = toCellKey (GridCell.x_index cell) (GridCell.y_index cell)
        /\ Dict.get cells key = Some cell
        /\ exists line, line ∈ log_lines P D runDir outputsRoot
                        /\ parse_line P line = Some cell.
Proof.
  unfold parseMetadataJsonl, log_lines.
  destruct (readFile D _) as [raw|e].
  - intros [= <-]. destruct (ingest_invariant P (JsString.split_lines raw))
      as [Hnd Hall].
    split; [exact Hnd|]. intros key cell Hin.
    destruct (Hall _ _ Hin) as [Hkey Hline].
    split; [exact Hkey|]. split; [now apply get_elem_of | exact Hline].
  - destruct (isENOENT e); [|discriminate]. intros [= <-].
    split; [constructor | intros key cell H; inversion H].
Qed.

Lemma event_log_map_invariant_witness :
  exists cells,
    parseMetadataJsonl Sample.host Sample.disk Sample.run1 Sample.outputsRoot
    = Ok cells
    /\ Dict.keys cells = [str "0,1"; str "0,0"]
    /\ NoDup (Dict.keys cells).
Proof.
  destruct (parseMetadataJsonl Sample.host Sample.disk Sample.run1
              Sample.outputsRoot) as [cells|] eqn:Ecells;
    [|vm_compute in Ecells; discriminate].
  exists cells. split; [reflexivity|]. split.
  - vm_compute in Ecells. injection Ecells as <-. reflexivity.
  - exact (proj1 (event_log_map_invariant _ _ _ _ _ Ecells)).
Defined.

(** ** From the log to the grid *)

Section LogToGrid.
Variables (P : Platform) (D : Disk).

Lemma parseMetadataJsonl_lines (runDir outputsRoot : list N)
    (cells : list (list N * GridCell.t)) :
  parseMetadataJsonl P D runDir outputsRoot = Ok cells ->
  cells = fold_left (ingest_line P) (log_lines P D runDir outputsRoot) [].
Proof.
  unfold parseMetadataJsonl, log_lines. destruct (readFile D _) as [raw|e].
  - now intros [= <-].
  - destruct (isENOENT e); [now intros [= <-] | discriminate].
Qed.

Lemma loadRunGridIndex_Ok (runDir outputsRoot : list N)
    (runDetail : RunDetail.t) (grid : GridIndex.t) :
  loadRunGridIndex P D runDir outputsRoot = Ok (runDetail, grid) ->
  exists cells,
    loadRunDetail P D runDir outputsRoot = Ok runDetail
    /\ parseMetadataJsonl P D runDir outputsRoot = Ok cells
    /\ grid = buildGridIndex runDetail cells.
Proof.
  unfold loadRunGridIndex.
  destruct (loadRunDetail P D runDir outputsRoot) as [rd|]; [|discriminate].
  simpl. destruct (parseMetadataJsonl P D runDir outputsRoot) as [cells|];
    [|discriminate].
  simpl. intros [= <- <-]. eauto.
Qed.

End LogToGrid.

(** X10. In the grid loaded for a run, the cell at a declared coordinate carries
    that coordinate and is either a record that a line of the event log
    yields, or, exactly when no line of the log yields that coordinate, the
    synthesized [missing] cell. *)
Theorem loaded_grid_follows_log (P : Platform) (D : Disk)
    (runDir outputsRoot : list N) (runDetail : RunDetail.t) (grid : GridIndex.t)
    (x y : Z) :
  loadRunGridIndex P D runDir outputsRoot = Ok (runDetail, grid) ->
  x ∈ Selection.x_indexes (RunDetail.selection runDetail) ->
  y ∈ Selection.y_indexes (RunDetail.selection runDetail) ->
  exists cell,
    Dict.get (GridIndex.cells grid) (toCellKey x y) = Some cell
    /\ coordinate cell = (x, y)
    /\ ((exists line, line ∈ log_lines P D runDir outputsRoot
                      /\ parse_line P line = Some cell)
        \/ (cell = createMissingCell x y
            /\ forall line other, line ∈ log_lines P D runDir outputsRoot ->
                 parse_line P line = Some other -> coordinate other <> (x, y))).
Proof.
  intros Hload Hx Hy.
  apply loadRunGridIndex_Ok in Hload as (cells & _ & Hcells & ->).
  apply parseMetadataJsonl_lines in Hcells.
  exists (cell_at cells x y). split.
  - rewrite buildGridIndex_cells. apply place_get, elem_of_coordinates. auto.
  - unfold cell_at. pose proof (ingest_lookup P (log_lines P D runDir outputsRoot) x y)
      as Hlookup.
    rewrite <- Hcells in Hlookup.
    destruct (Dict.get cells (toCellKey x y)) as [cell|]; simpl.
    + destruct Hlookup as [Hcoord Hline]. auto.
    + split; [reflexivity|]. right. auto.
Qed.

(** In the sample run the cell (1,0) is declared and never logged. *)
Lemma loaded_grid_follows_log_witness :
  exists runDetail grid,
    loadRunGridIndex Sample.host Sample.disk Sample.run1 Sample.outputsRoot
    = Ok (runDetail, grid)
    /\ exists cell,
         Dict.get (GridIndex.cells grid) (toCellKey 1 0) = Some cell
         /\ coordinate cell = (1, 0)%Z.
Proof.
  destruct (loadRunGridIndex Sample.host Sample.disk Sample.run1 Sample.outputsRoot)
    as [[runDetail grid]|] eqn:Eload; [|vm_compute in Eload; discriminate].
  exists runDetail, grid. split; [reflexivity|].
  assert (Hsel : Selection.x_indexes (RunDetail.selection runDetail) = [0; 1]%Z
                 /\ Selection.y_indexes (RunDetail.selection runDetail) = [0; 1]%Z).
  { vm_compute in Eload. injection Eload as <- _. split; reflexivity. }
  destruct Hsel as [Hxs Hys].
  destruct (loaded_grid_follows_log _ _ _ _ _ _ 1%Z 0%Z Eload)
    as (cell & Hget & Hcoord & _).
  - rewrite Hxs. decide_by_evaluation.
  - rewrite Hys. decide_by_evaluation.
  - eauto.
Defined.

(** ** Labels of the grid *)

Section LabelFacts.

Lemma join_nonempty (sep : list N) (c : N) (s : list N) (rest : list (list N)) :
  JsString.join sep ((c :: s) :: rest) <> [].
Proof. destruct rest; discriminate. Qed.

Lemma formatXLabel_nonempty (cell : option GridCell.t) (xIndex : Z) :
  formatXLabel cell xIndex <> [].
Proof.
  unfold formatXLabel. destruct cell as [cell|]; [|discriminate].
  destruct (omap _ X_FIELDS_ORDER) as [|v values] eqn:E; [discriminate|].
  assert (Hv : v ∈ v :: values) by left. rewrite <- E in Hv.
  apply list_elem_of_omap in Hv as (key & _ & Hkey).
  destruct (JsString.trim <$> _) as [[|c s]|]; try discriminate.
  injection Hkey as <-. apply join_nonempty.
Qed.

Lemma formatYLabel_nonempty (cell : option GridCell.t) (yIndex : Z) :
  formatYLabel cell yIndex <> [].
Proof.
  unfold formatYLabel. destruct (JsString.trim <$> _) as [[|c s]|]; discriminate.
Qed.

End LabelFacts.

(** X11. The grid has one X label for each declared X index and one Y label for
    each declared Y index, in the declared order, and no label is empty:
    a cell with nothing to show is labelled by its index. *)
Theorem grid_labels_cover_axes (runDetail : RunDetail.t)
    (cells : list (list N * GridCell.t)) :
  let grid := buildGridIndex runDetail cells in
  length (GridIndex.xLabels grid) = GridIndex.x_count grid
  /\ length (GridIndex.yLabels grid) = GridIndex.y_count grid
  /\ Forall (fun label => label <> []) (GridIndex.xLabels grid)
  /\ Forall (fun label => label <> []) (GridIndex.yLabels grid).
Proof.
  cbn zeta. destruct (buildGridIndex_labels runDetail cells) as [-> ->].
  destruct (buildGridIndex_counts runDetail cells) as [-> ->].
  rewrite !length_map. repeat split; try reflexivity.
  - apply Forall_forall. intros label Hin. apply list_elem_of_In in Hin.
    apply in_map_iff in Hin as (x & <- & _). apply formatXLabel_nonempty.
  - apply Forall_forall. intros label Hin. apply list_elem_of_In in Hin.
    apply in_map_iff in Hin as (y & <- & _). apply formatYLabel_nonempty.
Qed.

(** ** A run without a log *)

(** X12. For a run whose descriptor loads and whose event log does not exist,
    the grid is loaded all the same: every declared coordinate holds the
    synthesized [missing] cell and every label is the placeholder built
    from the index. *)
Theorem run_without_log (P : Platform) (D : Disk) (runDir outputsRoot : list N)
    (runDetail : RunDetail.t) (e : exn) :
  loadRunDetail P D runDir outputsRoot = Ok runDetail ->
  readFile D (path_join P [outputsRoot; runDir; METADATA_JSONL_FILENAME]) = Throw e ->
  isENOENT e = true ->
  let xIndexes := Selection.x_indexes (RunDetail.selection runDetail) in
  let yIndexes := Selection.y_indexes (RunDetail.selection runDetail) in
  exists grid,
    loadRunGridIndex P D runDir outputsRoot = Ok (runDetail, grid)
    /\ GridIndex.xLabels grid
       = List.map (fun x => str "x" ++ number_to_string x) xIndexes
    /\ GridIndex.yLabels grid
       = List.map (fun y => str "y" ++ number_to_string y) yIndexes
    /\ forall x y, x ∈ xIndexes -> y ∈ yIndexes ->
         Dict.get (GridIndex.cells grid) (toCellKey x y)
         = Some (createMissingCell x y).
Proof.
  intros Hdetail Hread Henoent. cbn zeta.
  exists (buildGridIndex runDetail []). split.
  - unfold loadRunGridIndex, parseMetadataJsonl.
    now rewrite Hdetail, Hread, Henoent.
  - destruct (buildGridIndex_labels runDetail []) as [-> ->].
    split; [reflexivity|]. split; [reflexivity|].
    intros x y Hx Hy. rewrite buildGridIndex_cells.
    rewrite (place_get [] _ _ x y) by (apply elem_of_coordinates; auto).
    reflexivity.
Qed.

Lemma run_without_log_witness :
  exists runDetail grid,
    loadRunGridIndex Sample.host Fresh.disk Sample.run1 Sample.outputsRoot
    = Ok (runDetail, grid)
    /\ GridIndex.xLabels grid = [str "x0"; str "x1"]
    /\ GridIndex.yLabels grid = [str "y0"; str "y1"].
Proof.
  destruct (loadRunDetail Sample.host Fresh.disk Sample.run1 Sample.outputsRoot)
    as [runDetail|] eqn:Edetail; [|vm_compute in Edetail; discriminate].
  destruct (run_without_log Sample.host Fresh.disk Sample.run1 Sample.outputsRoot
              runDetail (Errno "ENOENT") Edetail)
    as (grid & Hload & Hx & Hy & _); [by_evaluation | reflexivity |].
  exists runDetail, grid. split; [exact Hload|].
  assert (Hsel : Selection.x_indexes (RunDetail.selection runDetail) = [0; 1]%Z
                 /\ Selection.y_indexes (RunDetail.selection runDetail) = [0; 1]%Z).
  { vm_compute in Edetail. injection Edetail as <-. split; reflexivity. }
  destruct Hsel as [Hxs Hys]. rewrite Hx, Hy, Hxs, Hys. split; by_evaluation.
Defined.

(** ** The descriptor *)

Section Descriptor.

Lemma falsy_false (s : option (list N)) :
  falsy s = false -> exists text, s = Some text /\ text <> [].
Proof.
  destruct s as [[|c text]|]; try discriminate. intros _.
  eexists. split; [reflexivity | discriminate].
Qed.

Lemma toNullableString_Some (v : value) (text : list N) :
  toNullableString v = Some text <-> v = VString text.
Proof. destruct v; simpl; split; congruence. Qed.

Lemma normalizeRunDetail_Ok (record : list (list N * value)) (runDir : list N)
    (runDetail : RunDetail.t) :
  normalizeRunDetail record runDir = Ok runDetail ->
  get record (str "run_id") = VString (RunDetail.run_id runDetail)
  /\ RunDetail.run_id runDetail <> []
  /\ get record (str "created_at") = VString (RunDetail.created_at runDetail)
  /\ RunDetail.created_at runDetail <> []
  /\ RunDetail.selection runDetail
     = normalizeSelection (get record (str "selection"))
  /\ RunDetail.run_dir runDetail
     = default (Posix.join [str "comfyui_api_outputs"; runDir])
               (toNullableString (get record (str "run_dir"))).
Proof.
  unfold normalizeRunDetail.
  destruct (falsy (toNullableString (get record (str "run_id")))) eqn:E1;
    [discriminate|].
  destruct (falsy (toNullableString (get record (str "created_at")))) eqn:E2;
    [discriminate|].
  cbn [negb orb]. intros [= <-].
  cbn [RunDetail.run_id RunDetail.created_at RunDetail.selection RunDetail.run_dir].
  apply falsy_false in E1 as (id & E1 & Hid), E2 as (at_ & E2 & Hat).
  rewrite E1, E2. cbn [default from_option].
  apply toNullableString_Some in E1, E2. auto 10.
Qed.

Lemma loadRunDetail_Ok (P : Platform) (D : Disk) (runDir outputsRoot : list N)
    (runDetail : RunDetail.t) :
  loadRunDetail P D runDir outputsRoot = Ok runDetail ->
  exists raw record,
    readFile D (path_join P [outputsRoot; runDir; RUN_JSON_FILENAME]) = Ok raw
    /\ parseJsonObject P raw = Some record
    /\ normalizeRunDetail record runDir = Ok runDetail.
Proof.
  unfold loadRunDetail. destruct (readFile D _) as [raw|]; [|discriminate].
  simpl. destruct (parseJsonObject P raw) as [record|] eqn:Eparse; [|discriminate].
  intros Hnorm. exists raw, record. auto.
Qed.

Lemma posix_join_two (a b : list N) :
  a <> [] -> b <> [] ->
  Forall clean_segment (JsString.split Char.SLASH a) ->
  Forall clean_segment (JsString.split Char.SLASH b) ->
  Posix.join [a; b] = a ++ Char.SLASH :: b.
Proof.
  intros Ha Hb Hca Hcb. unfold Posix.join.
  rewrite !filter_cons_True, filter_nil by assumption.
  change (JsString.join [Char.SLASH] [a; b]) with (a ++ Char.SLASH :: b).
  destruct (a ++ Char.SLASH :: b) eqn:E; [now destruct a|]. rewrite <- E.
  apply normalize_clean; [now destruct a|].
  rewrite split_app. now apply Forall_app.
Qed.

End Descriptor.

(** X13. A descriptor that loads always has an identity: its [run_id] and
    [created_at] are the strings of the descriptor file and neither is
    empty. When the file gives no [run_dir] string, the descriptor of a
    run with a valid identifier gets [comfyui_api_outputs/] followed by that
    identifier. *)
Theorem loaded_descriptor_identity (P : Platform) (D : Disk)
    (runDir outputsRoot : list N) (runDetail : RunDetail.t) :
  loadRunDetail P D runDir outputsRoot = Ok runDetail ->
  exists raw record,
    readFile D (path_join P [outputsRoot; runDir; RUN_JSON_FILENAME]) = Ok raw
    /\ parseJsonObject P raw = Some record
    /\ get record (str "run_id") = VString (RunDetail.run_id runDetail)
    /\ RunDetail.run_id runDetail <> []
    /\ get record (str "created_at") = VString (RunDetail.created_at runDetail)
    /\ RunDetail.created_at runDetail <> []
    /\ (toNullableString (get record (str "run_dir")) = None ->
        isValidRunDir runDir = true ->
        RunDetail.run_dir runDetail = str "comfyui_api_outputs/" ++ runDir).
Proof.
  intros Hload. apply loadRunDetail_Ok in Hload as (raw & record & Hread & Hparse & Hnorm).
  exists raw, record. split; [exact Hread|]. split; [exact Hparse|].
  apply normalizeRunDetail_Ok in Hnorm as (Hid & Hidne & Hat & Hatne & _ & Hdir).
  repeat (split; [assumption|]).
  intros Hnone Hvalid. rewrite Hdir, Hnone. simpl.
  apply run_identifier_shape_aux in Hvalid as Hshape.
  destruct Hshape as (date & time & Hdate & Htime & Hd & Ht & Heq).
  assert (Hslash : Char.SLASH ∉ runDir).
  { subst runDir. rewrite !elem_of_app.
    assert (Hdigits : forall l, Forall (fun c => Char.is_digit c = true) l ->
                                Char.SLASH ∉ l).
    { intros l Hl Hin. rewrite Forall_forall in Hl. now apply Hl in Hin. }
    intros [H | [H | [H | [H | H]]]];
      try (now apply Hdigits in H);
      vm_compute in H; repeat (apply elem_of_cons in H as [H | H]; [discriminate|]);
      inversion H. }
  assert (Hlen : length runDir = 20)
    by (subst runDir; rewrite !length_app, Hdate, Htime; reflexivity).
  rewrite posix_join_two.
  - reflexivity.
  - discriminate.
  - intros ->. discriminate.
  - by_clean_literal.
  - rewrite split_without_sep by assumption.
    repeat constructor; intros ->; discriminate.
Qed.

Lemma loaded_descriptor_identity_witness :
  exists runDetail,
    loadRunDetail Sample.host Sample.disk Sample.run1 Sample.outputsRoot
    = Ok runDetail
    /\ RunDetail.run_id runDetail <> []
    /\ RunDetail.run_dir runDetail = str "comfyui_api_outputs/run-20260217T072414Z".
Proof.
  destruct (loadRunDetail Sample.host Sample.disk Sample.run1 Sample.outputsRoot)
    as [runDetail|] eqn:Edetail; [|vm_compute in Edetail; discriminate].
  exists runDetail. split; [reflexivity|].
  destruct (loaded_descriptor_identity _ _ _ _ _ Edetail)
    as (raw & record & Hread & Hparse & _ & Hid & _ & _ & Hdir).
  split; [exact Hid|]. apply Hdir; [|by_evaluation].
  vm_compute in Hread. injection Hread as <-.
  vm_compute in Hparse. injection Hparse as <-. reflexivity.
Defined.

(** ** The summaries *)

(** X14. Every summary of the listing belongs to a discovered run and keeps the
    discovery order; its identity fields are not empty, its counts are the
    lengths of the descriptor's index lists and [total_cells] is their
    product. *)
Theorem summaries_are_consistent (P : Platform) (D : Disk)
    (outputsRoot : list N) (runDirs : list (list N))
    (summaries : list RunSummary.t) :
  discoverRunDirs P D outputsRoot = Ok runDirs ->
  listRunSummaries P D outputsRoot = Ok summaries ->
  List.map RunSummary.run_dir summaries `sublist_of` runDirs
  /\ Forall
       (fun summary =>
          RunSummary.run_id summary <> []
          /\ RunSummary.created_at summary <> []
          /\ RunSummary.total_cells summary
             = RunSummary.x_count summary * RunSummary.y_count summary
          /\ exists runDetail,
               loadRunDetail P D (RunSummary.run_dir summary) outputsRoot
               = Ok runDetail
               /\ RunSummary.x_count summary
                  = length (Selection.x_indexes (RunDetail.selection runDetail))
               /\ RunSummary.y_count summary
                  = length (Selection.y_indexes (RunDetail.selection runDetail)))
       summaries.
Proof.
  intros Hdisc. unfold listRunSummaries. rewrite Hdisc. simpl.
  rewrite summaries_loop. simpl. intros [= <-]. split.
  - clear Hdisc. induction runDirs as [|runDir runDirs IH]; simpl; [constructor|].
    unfold summary_of at 1.
    destruct (loadRunDetail P D runDir outputsRoot); simpl;
      [now apply sublist_skip | now apply sublist_cons].
  - apply Forall_forall. intros summary Hin.
    apply list_elem_of_omap in Hin as (runDir & _ & Hsum).
    unfold summary_of in Hsum.
    destruct (loadRunDetail P D runDir outputsRoot) as [runDetail|] eqn:Hload;
      [|discriminate].
    injection Hsum as <-. cbn.
    apply loadRunDetail_Ok in Hload as Hparts.
    destruct Hparts as (raw & record & _ & _ & Hnorm).
    apply normalizeRunDetail_Ok in Hnorm as (_ & Hid & _ & Hat & _).
    repeat split; try assumption. exists runDetail. auto.
Qed.

Lemma summaries_are_consistent_witness :
  exists summaries,
    listRunSummaries Sample.host Sample.disk Sample.outputsRoot = Ok summaries
    /\ List.map RunSummary.run_dir summaries `sublist_of` [Sample.run3; Sample.run1].
Proof.
  destruct (listRunSummaries Sample.host Sample.disk Sample.outputsRoot)
    as [summaries|] eqn:Elist; [|vm_compute in Elist; discriminate].
  exists summaries. split; [reflexivity|].
  refine (proj1 (summaries_are_consistent Sample.host Sample.disk
                   Sample.outputsRoot _ summaries _ Elist)).
  by_evaluation.
Defined.

(** ** Image paths of a record *)

(** X15. In a record read from the log, the list of image paths is either
    absent or not empty and free of empty paths; a record without a main
    image path has no list either; and a record whose main image path is a
    string that is not empty always has a list. *)
Theorem recorded_image_paths (record : list (list N * value)) (cell : GridCell.t) :
  normalizeGridCell record = Some cell ->
  (forall paths, GridCell.local_image_paths cell = Some paths ->
                 paths <> [] /\ Forall (fun path => path <> []) paths)
  /\ (GridCell.local_image_path cell = None ->
      GridCell.local_image_paths cell = None)
  /\ (forall path, GridCell.local_image_path cell = Some path -> path <> [] ->
                   exists paths, GridCell.local_image_paths cell = Some paths)
  /\ (toNullableString (get record (str "local_image_path")) = None ->
      forall paths, GridCell.local_image_paths cell = Some paths ->
                    GridCell.local_image_path cell = head paths).
Proof.
  unfold normalizeGridCell.
  destruct (toNullableInteger _) as [xIndex|]; [|discriminate].
  destruct (toNullableInteger _) as [yIndex|]; [|discriminate].
  intros [= <-]. cbn [GridCell.local_image_path GridCell.local_image_paths].
  assert (Harray : forall paths,
             toStringArray (get record (str "local_image_paths")) = Some paths ->
             paths <> [] /\ Forall (fun path => path <> []) paths).
  { intros paths. unfold toStringArray.
    destruct (get record (str "local_image_paths")); try discriminate.
    destruct (omap _ items) as [|p ps] eqn:E; [discriminate|].
    intros [= <-]. split; [discriminate|].
    rewrite <- E. apply Forall_forall. intros path Hin.
    apply list_elem_of_omap in Hin as (item & _ & Hitem).
    destruct item as [| | | |[|c s]| |]; try discriminate.
    injection Hitem as <-. discriminate. }
  destruct (toStringArray (get record (str "local_image_paths"))) as [listed|] eqn:El.
  - destruct (Harray listed eq_refl) as [Hne Hall].
    split; [intros paths [= <-]; auto|]. split; [|split].
    + destruct (toNullableString _); [discriminate|].
      destruct listed; [contradiction | discriminate].
    + eauto.
    + intros -> paths [= <-]. reflexivity.
  - destruct (toNullableString (get record (str "local_image_path")))
      as [[|c s]|]; simpl.
    + split; [discriminate|]. split; [discriminate|]. split; [|discriminate].
      intros path [= <-] Hne. contradiction.
    + split; [intros paths [= <-]; split; [discriminate | repeat constructor;
                                                              discriminate]|].
      split; [discriminate|]. split; [eauto | discriminate].
    + split; [discriminate|]. split; [reflexivity|]. split; discriminate.
Qed.

Lemma recorded_image_paths_witness :
  exists cell,
    normalizeGridCell
      [ (str "x_index", json_int 0); (str "y_index", json_int 0);
        (str "local_image_paths",
         VArray [VString []; VString (str "images/a.png"); VNull]) ] = Some cell
    /\ GridCell.local_image_paths cell = Some [str "images/a.png"]
    /\ GridCell.local_image_path cell = Some (str "images/a.png").
Proof.
  destruct (normalizeGridCell
      [ (str "x_index", json_int 0); (str "y_index", json_int 0);
        (str "local_image_paths",
         VArray [VString []; VString (str "images/a.png"); VNull]) ])
    as [cell|] eqn:Ecell; [|vm_compute in Ecell; discriminate].
  exists cell. split; [reflexivity|].
  assert (Hpaths : GridCell.local_image_paths cell = Some [str "images/a.png"]).
  { vm_compute in Ecell. injection Ecell as <-. reflexivity. }
  split; [exact Hpaths|].
  exact (proj2 (proj2 (proj2 (recorded_image_paths _ _ Ecell)))
           eq_refl _ Hpaths).
Defined.

(** ** Status names *)

(** X16. The four status names are told apart and read back: reading the name
    of a status gives that status, a status field holding the name of a
    status normalizes to it, and [isCellStatus] accepts a string exactly
    when it is one of the four names. *)
Theorem status_names_round_trip :
  (forall status, parseCellStatus (CellStatus_name status) = Some status)
  /\ (forall status,
        normalizeCellStatus (VString (CellStatus_name status)) = status)
  /\ (forall text, isCellStatus text = true <->
                   exists status, text = CellStatus_name status)
  /\ (forall a b, CellStatus_name a = CellStatus_name b -> a = b).
Proof.
  split; [apply parseCellStatus_name|]. split; [|split].
  - intros status. simpl. now rewrite parseCellStatus_name.
  - intros text. unfold isCellStatus. rewrite bool_decide_eq_true. split.
    + intros [status Hs]. exists status. now apply parseCellStatus_Some.
    + intros [status ->]. rewrite parseCellStatus_name. eauto.
  - intros a b Heq. pose proof (parseCellStatus_name a) as Ha.
    rewrite Heq, parseCellStatus_name in Ha. congruence.
Qed.

Lemma status_names_round_trip_witness :
  isCellStatus (str "skipped") = true
  /\ normalizeCellStatus (VString (str "skipped")) = skipped.
Proof.
  destruct status_names_round_trip as (_ & Hnorm & Hvalid & _).
  split.
  - apply Hvalid. exists skipped. reflexivity.
  - exact (Hnorm skipped).
Defined.

(** ** The grid widget *)

Section Widget.

Lemma filter_sublist {A : Type} (keep : A -> bool) (l : list A) :
  List.filter keep l `sublist_of` l.
Proof.
  induction l as [|a l IH]; simpl; [constructor|].
  destruct (keep a); [now apply sublist_skip | now apply sublist_cons].
Qed.

Lemma elem_of_filter_nonempty (listed : list (list N)) (path : list N) :
  path ∈ List.filter (fun path => negb (Nat.eqb (length path) 0)) listed
  <-> path ∈ listed /\ path <> [].
Proof.
  rewrite !list_elem_of_In, filter_In, negb_true_iff, Nat.eqb_neq.
  destruct path; simpl; split; intros [H1 H2]; split; auto; congruence.
Qed.

End Widget.

(** X17. The widget asks the cell map for the key of a column number and a row
    number. In a grid built by [buildGridIndex] that lookup finds a cell
    exactly when the column number is a declared X index and the row number
    a declared Y index, and the cell found is then the one of that
    coordinate; any other pair finds nothing. *)
Theorem lookup_in_built_grid (runDetail : RunDetail.t)
    (cells : list (list N * GridCell.t)) (x y : Z) :
  let grid := buildGridIndex runDetail cells in
  let xIndexes := Selection.x_indexes (RunDetail.selection runDetail) in
  let yIndexes := Selection.y_indexes (RunDetail.selection runDetail) in
  (x ∈ xIndexes /\ y ∈ yIndexes ->
   getGridCell (GridIndex.cells grid) x y = Some (cell_at cells x y))
  /\ (~ (x ∈ xIndexes /\ y ∈ yIndexes) ->
      getGridCell (GridIndex.cells grid) x y = None).
Proof.
  cbn zeta. unfold getGridCell. rewrite buildGridIndex_cells. split.
  - intros [Hx Hy]. apply place_get, elem_of_coordinates. auto.
  - intros Hnot. apply get_None_keys. rewrite place_keys.
    intros [H | (x' & y' & Hin & Hkey)]; [inversion H|].
    apply toCellKey_inj in Hkey as [-> ->].
    now apply elem_of_coordinates in Hin.
Qed.

(** With the X indexes 3 and 5 declared, column number 0 finds no cell. *)
Lemma lookup_in_built_grid_witness :
  exists runDetail,
    normalizeRunDetail
      [ (str "run_id", VString (str "r"));
        (str "created_at", VString (str "t"));
        (str "selection",
         VObject [ (str "x_indexes", VArray [json_int 3; json_int 5]);
                   (str "y_indexes", VArray [json_int 0]) ]) ]
      Sample.run1 = Ok runDetail
    /\ getGridCell (GridIndex.cells (buildGridIndex runDetail [])) 0 0 = None
    /\ getGridCell (GridIndex.cells (buildGridIndex runDetail [])) 3 0
       = Some (createMissingCell 3 0).
Proof.
  destruct (normalizeRunDetail
      [ (str "run_id", VString (str "r"));
        (str "created_at", VString (str "t"));
        (str "selection",
         VObject [ (str "x_indexes", VArray [json_int 3; json_int 5]);
                   (str "y_indexes", VArray [json_int 0]) ]) ]
      Sample.run1) as [runDetail|] eqn:Edetail;
    [|vm_compute in Edetail; discriminate].
  exists runDetail. split; [reflexivity|].
  assert (Hsel : Selection.x_indexes (RunDetail.selection runDetail) = [3; 5]%Z
                 /\ Selection.y_indexes (RunDetail.selection runDetail) = [0]%Z).
  { vm_compute in Edetail. injection Edetail as <-. split; reflexivity. }
  destruct Hsel as [Hxs Hys]. split.
  - apply (proj2 (lookup_in_built_grid runDetail [] 0 0)).
    rewrite Hxs, Hys. intros [H _]. revert H. decide_by_evaluation.
  - apply (proj1 (lookup_in_built_grid runDetail [] 3 0)).
    rewrite Hxs, Hys. split; decide_by_evaluation.
Defined.

(** X18. The image paths the preview shows for a cell: none of them is empty;
    they are the main image path and the listed paths of the cell, each
    one that is not empty; and the listed paths are not repeated when the
    cell does not repeat them. *)
Theorem preview_image_paths (cell : RunGridCell.t) :
  let shown := getCellImagePaths cell in
  let listed := default [] (RunGridCell.local_image_paths cell) in
  Forall (fun path => path <> []) shown
  /\ (forall path, path ∈ shown <->
        path <> [] /\ (RunGridCell.local_image_path cell = Some path
                       \/ path ∈ listed))
  /\ (NoDup listed -> NoDup shown).
Proof.
  cbn zeta. unfold getCellImagePaths.
  set (paths := match RunGridCell.local_image_paths cell with
                | Some listed => List.filter _ listed
                | None => []
                end).
  assert (Hpaths : forall path, path ∈ paths <->
            path ∈ default [] (RunGridCell.local_image_paths cell) /\ path <> []).
  { intros path. unfold paths.
    destruct (RunGridCell.local_image_paths cell) as [listed|]; simpl.
    - apply elem_of_filter_nonempty.
    - split; [intros H; inversion H | intros [H _]; inversion H]. }
  assert (Hnd : NoDup (default [] (RunGridCell.local_image_paths cell)) ->
                NoDup paths).
  { unfold paths. destruct (RunGridCell.local_image_paths cell) as [listed|];
      simpl; [|constructor].
    intros H. exact (sublist_NoDup _ _ H (filter_sublist _ _)). }
  clearbody paths.
  destruct (RunGridCell.local_image_path cell) as [[|c first]|] eqn:Efirst.
  - simpl. assert (Hres : match paths with _ :: _ => paths | [] => [] end = paths)
      by now destruct paths.
    rewrite Hres. split; [|split; [|exact Hnd]].
    + apply Forall_forall. intros path Hin. now apply Hpaths in Hin.
    + intros path. rewrite Hpaths. split; [tauto|].
      intros [Hne [[= <-] | Hin]]; [contradiction | tauto].
  - cbn [non_empty falsy negb andb].
    destruct (bool_decide_reflect ((c :: first) ∈ paths)) as [Hin|Hnotin];
      cbn [negb].
    + assert (Hres : match paths with
                     | _ :: _ => paths
                     | [] => [c :: first]
                     end = paths) by (destruct paths; [inversion Hin | reflexivity]).
      rewrite Hres. split; [|split; [|exact Hnd]].
      * apply Forall_forall. intros path Hp. now apply Hpaths in Hp.
      * intros path. rewrite Hpaths. split; [tauto|].
        intros [Hne [[= <-] | Hp]]; [now apply Hpaths in Hin | tauto].
    + split; [|split].
      * constructor; [discriminate|].
        apply Forall_forall. intros path Hp. now apply Hpaths in Hp.
      * intros path. rewrite elem_of_cons, Hpaths. split.
        -- intros [-> | [Hp Hne]]; [split; [discriminate | now left] | tauto].
        -- intros [Hne [[= <-] | Hp]]; [now left | tauto].
      * intros H. constructor; [exact Hnotin | now apply Hnd].
  - split; [|split; [|exact Hnd]].
    + apply Forall_forall. intros path Hin. now apply Hpaths in Hin.
    + intros path. rewrite Hpaths. split; [tauto|].
      intros [Hne [[=] | Hin]]. tauto.
Qed.

Lemma preview_image_paths_witness :
  let cell := {|
    RunGridCell.status := success;
    RunGridCell.x_index := Finite (0 # 1);
    RunGridCell.y_index := Finite (0 # 1);
    RunGridCell.local_image_path := Some (str "images/b.png");
    RunGridCell.local_image_paths := Some [str "images/a.png"; []];
    RunGridCell.seed := None;
    RunGridCell.prompt_hash := None;
    RunGridCell.positive_prompt := None;
    RunGridCell.generation_params := None |} in
  getCellImagePaths cell = [str "images/b.png"; str "images/a.png"]
  /\ NoDup (getCellImagePaths cell).
Proof.
  cbv zeta. split; [by_evaluation|].
  refine (proj2 (proj2 (preview_image_paths _)) _).
  decide_by_evaluation.
Defined.

(** X19. However the two image buttons of the preview are pressed, starting
    from the first image, the index of the image shown never becomes
    negative and never reaches the number of images (it stays 0 when there
    is none): the image shown is always one of the preview's images. *)
Theorem image_index_stays_in_range (imagePaths : list (list N))
    (presses : list press) :
  let index := fold_left (after_press (Some imagePaths)) presses 0%Z in
  (0 <= index)%Z
  /\ ((index < Z.of_nat (length imagePaths))%Z \/ (imagePaths = [] /\ index = 0%Z)).
Proof.
  cbn zeta. induction presses as [|p presses IH] using rev_ind; simpl.
  - split; [lia|]. destruct imagePaths; [right; auto | left; simpl; lia].
  - rewrite fold_left_app. simpl.
    set (index := fold_left _ presses 0%Z) in *. destruct IH as [Hlow Hhigh].
    destruct p; simpl; unfold showPreviousImage, showNextImage.
    + destruct (Z.leb_spec index 0) as [Hle|Hgt].
      * split; [lia|]. destruct imagePaths; [right; auto | left; simpl; lia].
      * split; [lia|]. destruct Hhigh as [H' | [_ H']]; [left; lia | lia].
    + rewrite Z.geb_leb.
      destruct (Z.leb_spec (Z.of_nat (length imagePaths) - 1) index) as [Hge|Hlt].
      * split; [exact Hlow | exact Hhigh].
      * split; [lia | left; lia].
Qed.

Lemma image_index_stays_in_range_witness :
  fold_left (after_press (Some [str "a.png"; str "b.png"]))
            [next_image; next_image; next_image; previous_image] 0%Z = 0%Z
  /\ fold_left (after_press (Some [str "a.png"; str "b.png"]))
               [next_image; next_image; next_image] 0%Z = 1%Z.
Proof.
  split; [by_evaluation|].
  pose proof (image_index_stays_in_range [str "a.png"; str "b.png"]
                [next_image; next_image; next_image]) as [_ Hhigh].
  by_evaluation.
Defined.

(** ** The route handlers *)

Section RouteFacts.

Lemma assertAllowedRunDir_Throw (runDir : list N) (allowed : gset (list N))
    (e : exn) :
  assertAllowedRunDir runDir allowed = Throw e ->
  e = EmptyField "runDir" \/ e = InvalidRunDirFormat \/ e = NotInAllowlist.
Proof.
  unfold assertAllowedRunDir, assertNonEmptyTrimmed.
  destruct (JsString.trim runDir) as [|c s]; simpl; [intros [= <-]; auto|].
  destruct (isValidRunDir (c :: s)); [|intros [= <-]; auto].
  destruct (bool_decide _); [discriminate | intros [= <-]; auto].
Qed.


Lemma resolvePathUnderRoot_Ok (P : Platform) (root relPath target : list N) :
  resolvePathUnderRoot P root relPath = Ok target ->
  JsString.trim root <> []
  /\ target = path_resolve P [path_resolve P [JsString.trim root];
                             JsString.trim relPath]
  /\ within_root P (toComparablePath P (path_resolve P [JsString.trim root]))
                 (toComparablePath P target).
Proof.
  intros Hok.
  destruct (assertNonEmptyTrimmed root "root") as [safeRoot|e] eqn:Hroot;
    [|unfold resolvePathUnderRoot in Hok; rewrite Hroot in Hok; discriminate].
  destruct (assertSafeRelativeImagePath relPath) as [safeRelPath|e] eqn:Hrel;
    [|unfold resolvePathUnderRoot in Hok; rewrite Hroot, Hrel in Hok;
      discriminate].
  rewrite (resolvePathUnderRoot_unfold P _ _ _ _ Hroot Hrel) in Hok.
  apply assertNonEmptyTrimmed_Ok in Hroot as [-> Hne].
  apply sanitizer_returns_trimmed in Hrel. subst safeRelPath.
  cbv zeta in *. destruct (negb _) eqn:Htest in Hok; [|discriminate].
  injection Hok as <-. apply within_root_test in Htest. auto.
Qed.

Lemma invalid_run_json_is_failure (runDir : list N) :
  RunRoute.isNotFoundError (InvalidRunJson runDir) = false
  /\ RunRoute.isNotFoundError (MissingIdentity runDir) = false.
Proof.
  unfold RunRoute.isNotFoundError, message_among, isENOENT.
  cbn [existsb]. unfold JsString.eqb.
  rewrite !bool_decide_eq_false_2; [auto | ..];
    intros H; vm_compute in H; discriminate.
Qed.

End RouteFacts.

(** X20. The run detail route. With the run directories discovered: an
    identifier that [assertAllowedRunDir] refuses is answered 404; an
    accepted identifier whose descriptor and log load is answered 200 with
    the descriptor and the labels of its grid; an accepted identifier whose
    descriptor file has gone is answered 404; and one whose descriptor is
    not a JSON object, or lacks [run_id] or [created_at], is answered 500. *)
Theorem run_route_outcomes (P : Platform) (D : Disk)
    (outputsRoot : list N) (runDirs : list (list N)) (runDir : list N) :
  discoverRunDirs P D outputsRoot = Ok runDirs ->
  let response := RunRoute.GET P D outputsRoot runDir in
  (forall e, assertAllowedRunDir runDir (list_to_set runDirs) = Throw e ->
             response = Response.failure 404 "Run not found")
  /\ (forall safeRunDir,
        assertAllowedRunDir runDir (list_to_set runDirs) = Ok safeRunDir ->
        (forall runDetail grid,
            loadRunGridIndex P D safeRunDir outputsRoot = Ok (runDetail, grid) ->
            response
            = {| Response.status := 200;
                 Response.body :=
                   Response.run_detail runDetail (GridIndex.xLabels grid)
                                       (GridIndex.yLabels grid) |})
        /\ (forall e,
              readFile D (path_join P [outputsRoot; safeRunDir; RUN_JSON_FILENAME])
              = Throw e ->
              isENOENT e = true ->
              response = Response.failure 404 "Run not found")
        /\ (forall raw,
              readFile D (path_join P [outputsRoot; safeRunDir; RUN_JSON_FILENAME])
              = Ok raw ->
              (forall runDetail,
                  loadRunDetail P D safeRunDir outputsRoot <> Ok runDetail) ->
              response = Response.failure 500 "Failed to load run detail")).
Proof.
  intros Hdisc. cbn zeta. unfold RunRoute.GET. rewrite Hdisc. cbn [bind].
  split.
  - intros e Hrefused. rewrite Hrefused. cbn [bind].
    apply assertAllowedRunDir_Throw in Hrefused as [-> | [-> | ->]]; reflexivity.
  - intros safeRunDir Haccepted. rewrite Haccepted. cbn [bind].
    split; [|split].
    + intros runDetail grid Hload. rewrite Hload. reflexivity.
    + intros e Hread Henoent. unfold loadRunGridIndex, loadRunDetail.
      rewrite Hread. cbn [bind]. unfold RunRoute.isNotFoundError.
      rewrite Henoent, orb_true_r. reflexivity.
    + intros raw Hread Hfails. unfold loadRunGridIndex.
      unfold loadRunDetail in *. rewrite Hread in *. cbn [bind] in *.
      destruct (parseJsonObject P raw) as [record|].
      * unfold normalizeRunDetail in *.
        destruct (negb _); [exfalso; eapply Hfails; reflexivity|].
        cbn [bind]. now rewrite (proj2 (invalid_run_json_is_failure safeRunDir)).
      * cbn [bind]. now rewrite (proj1 (invalid_run_json_is_failure safeRunDir)).
Qed.

Lemma run_route_outcomes_witness :
  Response.status (RunRoute.GET Sample.host Sample.disk Sample.outputsRoot
                     (str " run-20260217T072414Z")) = 200
  /\ RunRoute.GET Sample.host Sample.disk Sample.outputsRoot Sample.run2
     = Response.failure 404 "Run not found"
  /\ RunRoute.GET Sample.host Sample.disk Sample.outputsRoot Sample.run3
     = Response.failure 500 "Failed to load run detail".
Proof.
  assert (Hdisc : discoverRunDirs Sample.host Sample.disk Sample.outputsRoot
                  = Ok [Sample.run3; Sample.run1]) by by_evaluation.
  split; [by_evaluation|]. split.
  - destruct (run_route_outcomes _ _ _ _ Sample.run2 Hdisc) as [Hrefused _].
    apply (Hrefused NotInAllowlist). by_evaluation.
  - destruct (run_route_outcomes _ _ _ _ Sample.run3 Hdisc) as [_ Haccepted].
    destruct (Haccepted Sample.run3) as (_ & _ & Hbroken); [by_evaluation|].
    apply (Hbroken (json_text "{'run_id':")); [by_evaluation|].
    intros runDetail H. vm_compute in H. discriminate.
Defined.

Section ImageRouteFacts.
Variables (P : Platform) (D : Disk) (outputsRoot : list N).
Variable path_extname : list N -> list N.

Lemma assertAllowedRunDir_Ok (runDir : list N) (allowed : gset (list N))
    (accepted : list N) :
  assertAllowedRunDir runDir allowed = Ok accepted ->
  accepted = JsString.trim runDir /\ isValidRunDir accepted = true
  /\ accepted ∈ allowed.
Proof.
  unfold assertAllowedRunDir, assertNonEmptyTrimmed.
  destruct (JsString.trim runDir) as [|c s]; simpl; [discriminate|].
  destruct (isValidRunDir (c :: s)) eqn:Evalid; [|discriminate].
  destruct (bool_decide_reflect ((c :: s) ∈ allowed)); [|discriminate].
  intros [= <-]. auto.
Qed.


Lemma image_route_failure (e : exn) :
  not_found_or_failed "Image not found" "Failed to load image"
    (if ImageRoute.isNotFoundError e
     then Response.failure 404 "Image not found"
     else Response.failure 500 "Failed to load image").
Proof. destruct (ImageRoute.isNotFoundError e); [now left | now right]. Qed.

End ImageRouteFacts.

(** X21. The image route streams only regular files of allowlisted runs. A 200
    answer means: the run identifier was accepted against the discovered
    run directories, so the run is backed by a descriptor; the joined path
    segments passed the sanitizer; the path streamed is their resolution
    under the directory of that run and lies within it; and [stat] reports
    it as a regular file. *)
Theorem image_route_serves_run_files (P : Platform) (D : Disk)
    (outputsRoot : list N) (path_extname : list N -> list N)
    (runDir : list N) (imagePath : list (list N))
    (streamed : list N) (contentType cacheControl : string) :
  ImageRoute.GET P D outputsRoot path_extname runDir imagePath
  = {| Response.status := 200;
       Response.body := Response.stream streamed contentType cacheControl |} ->
  exists safeRunDir relative file,
    backed_run P D outputsRoot safeRunDir
    /\ safeRunDir = JsString.trim runDir
    /\ assertSafeRelativeImagePath (JsString.join [Char.SLASH] imagePath)
       = Ok relative
    /\ (let runRoot :=
          path_resolve P [JsString.trim (path_join P [outputsRoot; safeRunDir])] in
        streamed = path_resolve P [runRoot; relative]
        /\ within_root P (toComparablePath P runRoot) (toComparablePath P streamed))
    /\ stat D streamed = Ok file /\ isFile file = true
    /\ contentType = ImageRoute.contentTypeFromExt P path_extname relative
    /\ cacheControl = ImageRoute.CACHE_CONTROL.
Proof.
  unfold ImageRoute.GET.
  destruct (discoverRunDirs P D outputsRoot) as [runDirs|e] eqn:Hdisc;
    cbn [bind]; [|destruct (ImageRoute.isNotFoundError e); discriminate].
  destruct (assertAllowedRunDir runDir (list_to_set runDirs)) as [safeRunDir|e]
    eqn:Hallowed; cbn [bind];
    [|destruct (ImageRoute.isNotFoundError e); discriminate].
  destruct (assertSafeRelativeImagePath _) as [relative|e] eqn:Hsafe; cbn [bind];
    [|destruct (ImageRoute.isNotFoundError e); discriminate].
  destruct (resolvePathUnderRoot P _ relative) as [absolute|e] eqn:Hresolve;
    cbn [bind]; [|destruct (ImageRoute.isNotFoundError e); discriminate].
  destruct (stat D absolute) as [file|e] eqn:Hstat; cbn [bind];
    [|destruct (ImageRoute.isNotFoundError e); discriminate].
  destruct (isFile file) eqn:Hfile; cbn [negb]; [|discriminate].
  intros [= <- <- <-].
  apply assertAllowedRunDir_Ok in Hallowed as (Htrim & _ & Hin).
  apply elem_of_list_to_set in Hin.
  apply (discoverRunDirs_elem P D _ _ Hdisc) in Hin.
  apply resolvePathUnderRoot_Ok in Hresolve as (_ & Htarget & Hwithin).
  pose proof (sanitizer_returns_trimmed _ _ Hsafe) as Hrel.
  assert (Hfixed : JsString.trim relative = relative)
    by (rewrite Hrel; apply trim_idem).
  rewrite Hfixed in Htarget.
  exists safeRunDir, relative, file. cbn zeta. auto 12.
Qed.



Lemma image_route_serves_run_files_witness :
  exists safeRunDir relative file,
    backed_run Sample.host Sample.disk Sample.outputsRoot safeRunDir
    /\ safeRunDir = Sample.run1
    /\ relative = str "run.json"
    /\ stat Sample.disk
         (str "/srv/app/comfyui_api_outputs/run-20260217T072414Z/run.json")
       = Ok file
    /\ isFile file = true.
Proof.
  destruct (image_route_serves_run_files Sample.host Sample.disk
              Sample.outputsRoot (fun _ => []) (str " run-20260217T072414Z")
              [str "run.json"]
              (str "/srv/app/comfyui_api_outputs/run-20260217T072414Z/run.json")
              "application/octet-stream" "public, max-age=86400")
    as (safeRunDir & relative & file & Hbacked & Hrun & Hrel & _ & Hstat & Hfile & _).
  - by_evaluation.
  - exists safeRunDir, relative, file. split; [exact Hbacked|].
    split; [rewrite Hrun; by_evaluation|].
    split; [vm_compute in Hrel; now injection Hrel as <-|].
    split; assumption.
Defined.

(** X23. When the outputs root does not exist nothing fails: no run is
    discovered, the listing and its route answer with an empty list, and
    every request for a run or for an image is answered 404. *)
Theorem absent_outputs_root (P : Platform) (D : Disk)
    (outputsRoot : list N) (e : exn) :
  readdir D outputsRoot = Throw e ->
  isENOENT e = true ->
  discoverRunDirs P D outputsRoot = Ok []
  /\ listRunSummaries P D outputsRoot = Ok []
  /\ RunsRoute.GET P D outputsRoot
     = {| Response.status := 200; Response.body := Response.run_summaries [] |}
  /\ (forall runDir,
        RunRoute.GET P D outputsRoot runDir = Response.failure 404 "Run not found")
  /\ (forall path_extname runDir imagePath,
        ImageRoute.GET P D outputsRoot path_extname runDir imagePath
        = Response.failure 404 "Image not found").
Proof.
  intros Hdir Henoent.
  assert (Hdisc : discoverRunDirs P D outputsRoot = Ok [])
    by (unfold discoverRunDirs; now rewrite Hdir, Henoent).
  assert (Hrefused : forall runDir, exists e',
             assertAllowedRunDir runDir (list_to_set []) = Throw e').
  { intros runDir. unfold assertAllowedRunDir, assertNonEmptyTrimmed.
    destruct (JsString.trim runDir) as [|c s]; simpl; [eauto|].
    destruct (isValidRunDir (c :: s)); [|eauto].
    rewrite bool_decide_eq_false_2; [eauto|]. set_solver. }
  split; [exact Hdisc|].
  assert (Hlist : listRunSummaries P D outputsRoot = Ok [])
    by (unfold listRunSummaries; now rewrite Hdisc).
  split; [exact Hlist|]. split; [|split].
  - unfold RunsRoute.GET. now rewrite Hlist.
  - intros runDir. destruct (Hrefused runDir) as [e' He'].
    unfold RunRoute.GET. rewrite Hdisc. cbn [bind]. rewrite He'. cbn [bind].
    apply assertAllowedRunDir_Throw in He' as [-> | [-> | ->]]; reflexivity.
  - intros path_extname runDir imagePath. destruct (Hrefused runDir) as [e' He'].
    unfold ImageRoute.GET. rewrite Hdisc. cbn [bind]. rewrite He'. cbn [bind].
    apply assertAllowedRunDir_Throw in He' as [-> | [-> | ->]]; reflexivity.
Qed.

Lemma absent_outputs_root_witness :
  discoverRunDirs Sample.host Empty.disk Sample.outputsRoot = Ok []
  /\ RunRoute.GET Sample.host Empty.disk Sample.outputsRoot Sample.run1
     = Response.failure 404 "Run not found".
Proof.
  destruct (absent_outputs_root Sample.host Empty.disk Sample.outputsRoot
              (Errno "ENOENT") eq_refl eq_refl) as (Hdisc & _ & _ & Hrun & _).
  split; [exact Hdisc | apply Hrun].
Defined.

(** X24. What a route can answer. The run route answers 200 with a descriptor
    and labels, or 404 or 500 with one fixed text each; the image route
    answers 200 with a stream, or 404 or 500 with one fixed text each; the
    listing route always answers 200 with a list of summaries. No answer
    carries the text of an error or a path other than the streamed one. *)
Theorem route_answers (P : Platform) (D : Disk) (outputsRoot : list N)
    (path_extname : list N -> list N) (runDir : list N)
    (imagePath : list (list N)) :
  ((exists runDetail xLabels yLabels,
       RunRoute.GET P D outputsRoot runDir
       = {| Response.status := 200;
            Response.body := Response.run_detail runDetail xLabels yLabels |})
   \/ not_found_or_failed "Run not found" "Failed to load run detail"
        (RunRoute.GET P D outputsRoot runDir))
  /\ ((exists streamed contentType,
         ImageRoute.GET P D outputsRoot path_extname runDir imagePath
         = {| Response.status := 200;
              Response.body :=
                Response.stream streamed contentType ImageRoute.CACHE_CONTROL |})
      \/ not_found_or_failed "Image not found" "Failed to load image"
           (ImageRoute.GET P D outputsRoot path_extname runDir imagePath))
  /\ (exists runs,
        RunsRoute.GET P D outputsRoot
        = {| Response.status := 200; Response.body := Response.run_summaries runs |}).
Proof.
  split; [|split].
  - unfold RunRoute.GET.
    destruct (let* discovered := discoverRunDirs P D outputsRoot in _)
      as [response|e] eqn:E.
    + left. destruct (discoverRunDirs P D outputsRoot); [|discriminate].
      cbn [bind] in E. destruct (assertAllowedRunDir _ _); [|discriminate].
      cbn [bind] in E. destruct (loadRunGridIndex _ _ _ _); [|discriminate].
      cbn [bind] in E. injection E as <-. eauto.
    + right. destruct (RunRoute.isNotFoundError e); [now left | now right].
  - unfold ImageRoute.GET.
    destruct (let* discovered := discoverRunDirs P D outputsRoot in _)
      as [response|e] eqn:E; [|right; apply image_route_failure].
    destruct (discoverRunDirs P D outputsRoot); [|discriminate].
    cbn [bind] in E. destruct (assertAllowedRunDir _ _); [|discriminate].
    cbn [bind] in E. destruct (assertSafeRelativeImagePath _); [|discriminate].
    cbn [bind] in E. destruct (resolvePathUnderRoot _ _ _); [|discriminate].
    cbn [bind] in E. destruct (stat D _) as [file|]; [|discriminate].
    cbn [bind] in E. destruct (isFile file); cbn [negb] in E; injection E as <-.
    + left. eauto.
    + right. now left.
  - unfold RunsRoute.GET. destruct (listRunSummaries P D outputsRoot); eauto.
Qed.

(** ** Keys and enumeration order *)


Section EnumerationOrder.

Lemma store_keys (records : list GridCell.t) (cells : list (list N * GridCell.t)) :
  Dict.keys (fold_left store records cells)
  = Dict.keys cells
    ++ first_occurrences (Dict.keys cells) (List.map key_of records).
Proof.
  revert cells; induction records as [|record records IH]; intros cells; simpl.
  - now rewrite app_nil_r.
  - rewrite IH.
    change (store cells record) with (Dict.set cells (key_of record) record).
    destruct (bool_decide_reflect (key_of record ∈ Dict.keys cells)) as [Hin|Hnew].
    + now rewrite keys_set_present.
    + rewrite set_fresh by exact Hnew. unfold Dict.keys.
      rewrite List.map_app. simpl. now rewrite <- app_assoc.
Qed.

End EnumerationOrder.

(** X26. The map read from the event log enumerates its records in the order in
    which their coordinates first appear in the log: a later line for a
    coordinate already seen replaces the record and keeps its place. *)
Theorem log_enumeration_order (P : Platform) (D : Disk)
    (runDir outputsRoot : list N) (cells : list (list N * GridCell.t)) :
  parseMetadataJsonl P D runDir outputsRoot = Ok cells ->
  Dict.keys cells
  = first_occurrences []
      (List.map key_of (omap (parse_line P) (log_lines P D runDir outputsRoot))).
Proof.
  intros Hcells. apply parseMetadataJsonl_lines in Hcells. subst cells.
  now rewrite ingest_store, store_keys.
Qed.

Lemma log_enumeration_order_witness :
  exists cells,
    parseMetadataJsonl Sample.host Sample.disk Sample.run1 Sample.outputsRoot
    = Ok cells
    /\ List.map key_of
         (omap (parse_line Sample.host)
               (log_lines Sample.host Sample.disk Sample.run1 Sample.outputsRoot))
       = [str "0,1"; str "0,0"; str "0,1"]
    /\ Dict.keys cells = [str "0,1"; str "0,0"].
Proof.
  destruct (parseMetadataJsonl Sample.host Sample.disk Sample.run1
              Sample.outputsRoot) as [cells|] eqn:Ecells;
    [|vm_compute in Ecells; discriminate].
  exists cells. split; [reflexivity|]. split; [by_evaluation|].
  rewrite (log_enumeration_order _ _ _ _ _ Ecells). by_evaluation.
Defined.

(** ** Discovery does not tolerate an unreadable candidate *)

Section DiscoveryFailure.
Context {A B : Type}.

Lemma all_ok_Throw (f : A -> result B) (items : list A) (a : A) (e : exn) :
  a ∈ items -> f a = Throw e -> exists e', all_ok f items = Throw e'.
Proof.
  induction items as [|b items IH]; intros Hin Hfail; [inversion Hin|].
  simpl. destruct (f b) as [ok|e'] eqn:Eb; [|eauto]. simpl.
  apply elem_of_cons in Hin as [-> | Hin]; [congruence|].
  destruct (IH Hin Hfail) as [e' ->]. simpl. eauto.
Qed.

End DiscoveryFailure.

(** X27. Discovery is all or nothing. When [stat] fails, for another reason
    than the file not existing, on the descriptor of one directory that
    looks like a run, [discoverRunDirs] fails as a whole, and so does
    [listRunSummaries]; the listing route then answers with an empty
    list. *)
Theorem discovery_fails_on_stat_error (P : Platform) (D : Disk)
    (outputsRoot : list N) (entries : list Dirent) (entry : Dirent) (e : exn) :
  readdir D outputsRoot = Ok entries ->
  entry ∈ entries ->
  isDirectory entry = true ->
  isValidRunDir (name entry) = true ->
  stat D (path_join P [path_join P [outputsRoot; name entry]; RUN_JSON_FILENAME])
  = Throw e ->
  isENOENT e = false ->
  exists e',
    discoverRunDirs P D outputsRoot = Throw e'
    /\ listRunSummaries P D outputsRoot = Throw e'
    /\ RunsRoute.GET P D outputsRoot
       = {| Response.status := 200; Response.body := Response.run_summaries [] |}.
Proof.
  intros Hdir Hin Hisdir Hvalid Hstat Hnot.
  assert (Hfail : exists e', discoverRunDirs P D outputsRoot = Throw e').
  { unfold discoverRunDirs. rewrite Hdir.
    destruct (all_ok_Throw
      (fun entry =>
         let runPath := path_join P [outputsRoot; name entry] in
         let* present := containsRunJson P D runPath in
         Ok (if present then Some (name entry) else None))
      (List.filter (fun entry => isDirectory entry && isValidRunDir (name entry))
                   entries) entry e) as [e' He'].
    - apply list_elem_of_In, filter_In. split; [now apply list_elem_of_In|].
      now rewrite Hisdir, Hvalid.
    - cbn zeta. unfold containsRunJson. now rewrite Hstat, Hnot.
    - cbn zeta in He'. rewrite He'. simpl. eauto. }
  destruct Hfail as [e' He']. exists e'. split; [exact He'|].
  assert (Hlist : listRunSummaries P D outputsRoot = Throw e')
    by (unfold listRunSummaries; now rewrite He').
  split; [exact Hlist|]. unfold RunsRoute.GET. now rewrite Hlist.
Qed.

Lemma discovery_fails_on_stat_error_witness :
  exists e',
    discoverRunDirs Sample.host Locked.disk Sample.outputsRoot = Throw e'
    /\ listRunSummaries Sample.host Locked.disk Sample.outputsRoot = Throw e'.
Proof.
  destruct (discovery_fails_on_stat_error Sample.host Locked.disk
              Sample.outputsRoot
              [ {| name := Sample.run1; isDirectory := true |};
                {| name := str "notes.txt"; isDirectory := false |};
                {| name := Sample.run2; isDirectory := true |};
                {| name := Sample.run3; isDirectory := true |} ]
              {| name := Sample.run2; isDirectory := true |} (Errno "EACCES"))
    as (e' & Hdisc & Hlist & _).
  - by_evaluation.
  - do 2 right; left.
  - reflexivity.
  - by_evaluation.
  - by_evaluation.
  - reflexivity.
  - exists e'. split; assumption.
Defined.

(** ** Descriptive attributes *)

Section Attributes.

Lemma read_write (x : XFields.t) (key key' : XKey.t) (item : list N) :
  XFields.read (XFields.write x key item) key'
  = if bool_decide (key = key') then Some item else XFields.read x key'.
Proof. destruct key, key'; reflexivity. Qed.

Lemma normalizeXFields_loop (props : list (list N * value)) (keys : list XKey.t)
    (x : XFields.t) (key : XKey.t) :
  XFields.read
    (fold_left
       (fun xFields key =>
          match get props (XKey.name key) with
          | VString item => XFields.write xFields key item
          | _ => xFields
          end)
       keys x) key
  = match toNullableString (get props (XKey.name key)) with
    | Some item => if bool_decide (key ∈ keys) then Some item else XFields.read x key
    | None => XFields.read x key
    end.
Proof.
  revert x; induction keys as [|k keys IH]; intros x; simpl.
  - destruct (toNullableString _); reflexivity.
  - rewrite IH. destruct (bool_decide_reflect (key = k)) as [->|Hne].
    + rewrite (bool_decide_eq_true_2 (k ∈ k :: keys)) by left.
      destruct (get props (XKey.name k)); simpl; try reflexivity.
      rewrite read_write, (bool_decide_eq_true_2 (k = k)) by reflexivity.
      now destruct (bool_decide (k ∈ keys)).
    + assert (Hmem : bool_decide (key ∈ k :: keys) = bool_decide (key ∈ keys)).
      { apply bool_decide_ext. rewrite elem_of_cons. tauto. }
      rewrite Hmem.
      assert (Hread : XFields.read
                (match get props (XKey.name k) with
                 | VString item => XFields.write x k item
                 | _ => x
                 end) key = XFields.read x key).
      { destruct (get props (XKey.name k)); try reflexivity.
        rewrite read_write, (bool_decide_eq_false_2 (k = key)) by congruence.
        reflexivity. }
      now rewrite Hread.
Qed.

End Attributes.

(** X28. Each of the six descriptive attributes of a record is read on its own:
    it is kept when the [x_fields] object holds a string under its name and
    is absent otherwise, whatever the other attributes and whatever else
    the object holds; and when [x_fields] is not an object no attribute is
    kept. *)
Theorem attributes_read_independently (v : value) (key : XKey.t) :
  XFields.read (normalizeXFields v) key
  = match v with
    | VObject props => toNullableString (get props (XKey.name key))
    | _ => None
    end.
Proof.
  unfold normalizeXFields.
  destruct v; try (destruct key; reflexivity).
  cbn [isJsonObject]. rewrite normalizeXFields_loop.
  rewrite (bool_decide_eq_true_2 (key ∈ X_FIELDS_ORDER))
    by (destruct key; unfold X_FIELDS_ORDER; set_solver).
  destruct (toNullableString _); [reflexivity | destruct key; reflexivity].
Qed.
